(** * Phemex trade adapter: contract routing and fixed-point value scaling

    A shallow embedding of [src/product-info.ts] (class [ProductInfoCache])
    and [src/contract-router.ts] (class [ContractRouter]), together with the
    part of the JavaScript runtime these two files rely on: IEEE 754
    binary64 numbers with [*], [/], [Math.round], [Math.pow(10, k)],
    [parseFloat] and [Number.prototype.toString], and a few [String]
    methods. *)

From Stdlib Require Import ZArith Lia String Ascii List Bool Reals Lra.
From Stdlib Require SpecFloat.
From stdpp Require Import gmap strings.

Local Open Scope Z_scope.
Local Set Warnings "-register-all".

(* ===================================================================== *)
(** ** String methods used by the sources *)
(* ===================================================================== *)

Module JSString.

(** [s.startsWith(p)] *)
Definition startsWith (s p : string) : bool := String.prefix p s.

(** [s.endsWith(suf)]: some tail of [s] is [suf]. *)
Fixpoint endsWith (s suf : string) : bool :=
  if String.eqb s suf then true
  else match s with
       | EmptyString => false
       | String _ s' => endsWith s' suf
       end.

(** [s.slice(0, -2)]: [s] without its last two characters. *)
Definition slice_0_m2 (s : string) : string :=
  String.substring 0 (String.length s - 2)%nat s.

(** [s.slice(1)] *)
Definition slice_1 (s : string) : string :=
  match s with
  | EmptyString => EmptyString
  | String _ s' => s'
  end.

(** [s.includes(sub)] (what vitest's [toContain] checks on strings) *)
Fixpoint includes (s sub : string) : bool :=
  if String.prefix sub s then true
  else match s with
       | EmptyString => false
       | String _ s' => includes s' sub
       end.

End JSString.

(* ===================================================================== *)
(** ** JavaScript numbers: IEEE 754 binary64 *)
(* ===================================================================== *)

Module JSNumber.

(** A Number value.  [Finite neg m e] stands for [(-1)^neg * m * 2^e];
    every operation below returns it in canonical form:
    [2^52 <= m < 2^53] and [-1074 <= e <= 971], or [m < 2^52] and
    [e = -1074] (subnormal). *)
Inductive number : Set :=
| NaN
| Infinity (neg : bool)
| Zero (neg : bool)
| Finite (neg : bool) (m : positive) (e : Z).

Definition number_eqb (x y : number) : bool :=
  match x, y with
  | NaN, NaN => true
  | Infinity a, Infinity b => Bool.eqb a b
  | Zero a, Zero b => Bool.eqb a b
  | Finite a m e, Finite b m' e' => Bool.eqb a b && Pos.eqb m m' && Z.eqb e e'
  | _, _ => false
  end.

(** [z * 2^e] for [e >= 0], [z] otherwise. *)
Definition shl (z e : Z) : Z := z * 2 ^ Z.max 0 e.

(** Numerator and denominator of [(n / d) / 2^e]. *)
Definition frac_shift (n d e : Z) : Z * Z := (shl n (- e), shl d e).

(** [floor (log2 (n / d))] for [n, d > 0]. *)
Definition floor_log2 (n d : Z) : Z :=
  let e0 := Z.log2 n - Z.log2 d in
  let '(n', d') := frac_shift n d e0 in
  if d' <=? n' then e0 else e0 - 1.

(** Nearest integer to [n / d], ties to even ([d > 0]). *)
Definition div_half_even (n d : Z) : Z :=
  let q := n / d in
  match 2 * (n mod d) ?= d with
  | Lt => q
  | Gt => q + 1
  | Eq => if Z.even q then q else q + 1
  end.

(** The binary64 value nearest to the rational [n / d] ([n, d > 0]),
    ties to even, with sign [neg]: the rounding every arithmetic
    operation of the language applies to its exact result. *)
Definition round_nearest_even (neg : bool) (n d : Z) : number :=
  let e := Z.max (floor_log2 n d - 52) (-1074) in
  let '(n', d') := frac_shift n d e in
  let m := div_half_even n' d' in
  let '(m, e) := if m =? 2 ^ 53 then (2 ^ 52, e + 1) else (m, e) in
  if 971 <? e then Infinity neg
  else match m with
       | Z.pos m' => Finite neg m' e
       | _ => Zero neg
       end.

(** The Number for an integer literal. *)
Definition of_Z (z : Z) : number :=
  match z with
  | Z0 => Zero false
  | Z.pos _ => round_nearest_even false z 1
  | Z.neg p => round_nearest_even true (Z.pos p) 1
  end.

(** [x * y] *)
Definition mul (x y : number) : number :=
  match x, y with
  | NaN, _ | _, NaN => NaN
  | Infinity _, Zero _ | Zero _, Infinity _ => NaN
  | Infinity s1, Infinity s2
  | Infinity s1, Finite s2 _ _
  | Finite s1 _ _, Infinity s2 => Infinity (xorb s1 s2)
  | Zero s1, Zero s2
  | Zero s1, Finite s2 _ _
  | Finite s1 _ _, Zero s2 => Zero (xorb s1 s2)
  | Finite s1 m1 e1, Finite s2 m2 e2 =>
      round_nearest_even (xorb s1 s2)
        (shl (Z.pos m1 * Z.pos m2) (e1 + e2)) (shl 1 (- (e1 + e2)))
  end.

(** [x / y] *)
Definition div (x y : number) : number :=
  match x, y with
  | NaN, _ | _, NaN => NaN
  | Infinity _, Infinity _ | Zero _, Zero _ => NaN
  | Infinity s1, Zero s2
  | Infinity s1, Finite s2 _ _
  | Finite s1 _ _, Zero s2 => Infinity (xorb s1 s2)
  | Zero s1, Infinity s2
  | Zero s1, Finite s2 _ _
  | Finite s1 _ _, Infinity s2 => Zero (xorb s1 s2)
  | Finite s1 m1 e1, Finite s2 m2 e2 =>
      round_nearest_even (xorb s1 s2)
        (shl (Z.pos m1) (e1 - e2)) (shl (Z.pos m2) (e2 - e1))
  end.

(** [Math.round(x)]: [floor (x + 1/2)], computed exactly; a zero result
    keeps the sign of [x]. *)
Definition round (x : number) : number :=
  match x with
  | Finite s m e =>
      if 0 <=? e then x
      else
        let v := if s then Z.neg m else Z.pos m in
        let r := (2 * v + 2 ^ (- e)) / 2 ^ (1 - e) in
        if r =? 0 then Zero s else of_Z r
  | _ => x
  end.

(** [Math.pow(10, k)] for an integer [k], taken as correctly rounded. *)
Definition pow10 (k : Z) : number :=
  if 0 <=? k then round_nearest_even false (10 ^ k) 1
  else round_nearest_even false 1 (10 ^ (- k)).

(** [Number.isInteger(x)] *)
Definition isInteger (x : number) : bool :=
  match x with
  | Zero _ => true
  | Finite _ m e => (0 <=? e) || (Z.pos m mod 2 ^ (- e) =? 0)
  | _ => false
  end.

(** [x >= 1] *)
Definition ge_one (x : number) : bool :=
  match x with
  | Infinity false => true
  | Finite false m e => (0 <=? e) || (2 ^ (- e) <=? Z.pos m)
  | _ => false
  end.

(** *** Decimal digits *)

Definition digit_char (d : Z) : ascii := ascii_of_nat (48 + Z.to_nat d).

Fixpoint log10_aux (fuel : nat) (z : Z) : Z :=
  match fuel with
  | O => 0
  | S fuel' => if z <? 10 then 0 else 1 + log10_aux fuel' (z / 10)
  end.

(** [floor (log10 z)] for [z >= 1] (and 0 for [z = 0]). *)
Definition log10 (z : Z) : Z := log10_aux (S (Z.to_nat (Z.log2 z))) z.

(** The last [k] decimal digits of [z >= 0], most significant first. *)
Fixpoint fixed_digits (k : nat) (z : Z) : string :=
  match k with
  | O => ""
  | S k' =>
      String (digit_char ((z / 10 ^ Z.of_nat k') mod 10)) (fixed_digits k' z)
  end.

(** The decimal numeral of [z >= 0], without leading zeros. *)
Definition Z_digits (z : Z) : string :=
  fixed_digits (Z.to_nat (log10 z + 1)) z.

(** The [n] with [10^(n-1) <= p / q < 10^n], for [p, q > 0]. *)
Definition decimal_exponent (p q : Z) : Z :=
  if q <=? p then log10 (p / q) + 1 else - log10 ((q - 1) / p).

Fixpoint zeros (n : nat) : string :=
  match n with
  | O => ""
  | S n' => String "0" (zeros n')
  end.

(** *** [Number.prototype.toString] (radix 10)

    ECMA-262, Number::toString: pick integers [n], [k], [s] with
    [10^(k-1) <= s < 10^k] such that [s * 10^(n-k)] rounds to [x] and
    [k] is as small as possible (among several [s], the one closest to
    [x]); then lay out the [k] digits of [s] according to [n]. *)

(** Numerator and denominator of [(p / q) * 10^j]. *)
Definition scale10 (p q j : Z) : Z * Z :=
  (p * 10 ^ Z.max 0 j, q * 10 ^ Z.max 0 (- j)).

(** Does the decimal [s * 10^j] round to the positive number [x]? *)
Definition rounds_to (x : number) (s j : Z) : bool :=
  let '(p, q) := scale10 s 1 j in
  number_eqb (round_nearest_even false p q) x.

(** The shortest digit string for the positive rational [p / q] whose
    binary64 value is [x]: tries [k = k0, k0 + 1, ...] digits. *)
Fixpoint shortest (fuel : nat) (x : number) (p q n k : Z) : Z * Z :=
  let '(sp, sq) := scale10 p q (k - n) in
  let lo := sp / sq in
  let hi := lo + 1 in
  let lo_ok := rounds_to x lo (n - k) in
  let hi_ok := rounds_to x hi (n - k) in
  (* is [lo] at least as close to [p / q] as [hi]?  ties go to the even *)
  let lo_closer :=
    match 2 * (sp mod sq) ?= sq with
    | Lt => true
    | Gt => false
    | Eq => Z.even lo
    end in
  match fuel with
  | O => (if lo_closer then lo else hi, k)
  | S fuel' =>
      if lo_ok && (lo_closer || negb hi_ok) then (lo, k)
      else if hi_ok then (hi, k)
      else shortest fuel' x p q n (k + 1)
  end.

(** Layout of the digits [ds] of [s] ([k] of them) for exponent [n]. *)
Definition layout (ds : string) (k n : Z) : string :=
  if (k <=? n) && (n <=? 21) then
    ds +:+ zeros (Z.to_nat (n - k))
  else if (0 <? n) && (n <=? 21) then
    String.substring 0 (Z.to_nat n) ds +:+ "."
      +:+ String.substring (Z.to_nat n) (Z.to_nat (k - n)) ds
  else if (-6 <? n) && (n <=? 0) then
    "0." +:+ zeros (Z.to_nat (- n)) +:+ ds
  else
    let e := n - 1 in
    let es := (if e <? 0 then "-" else "+") +:+ Z_digits (Z.abs e) in
    if k =? 1 then ds +:+ "e" +:+ es
    else String.substring 0 1 ds +:+ "."
           +:+ String.substring 1 (Z.to_nat (k - 1)) ds +:+ "e" +:+ es.

Definition toString_pos (x : number) (p q : Z) : string :=
  let n := decimal_exponent p q in
  let '(s, k) := shortest 16 x p q n 1 in
  let '(s, k, n) := if s =? 10 ^ k then (1, 1, n + 1) else (s, k, n) in
  layout (fixed_digits (Z.to_nat k) s) k n.

Definition toString (x : number) : string :=
  match x with
  | NaN => "NaN"
  | Zero _ => "0"
  | Infinity neg => if neg then "-Infinity" else "Infinity"
  | Finite neg m e =>
      (if neg then "-" else "")
        +:+ toString_pos (Finite false m e) (shl (Z.pos m) e) (shl 1 (- e))
  end.

(** *** [parseFloat] *)

Definition is_digit (c : ascii) : bool :=
  let n := nat_of_ascii c in (48 <=? n)%nat && (n <=? 57)%nat.

Definition digit_value (c : ascii) : Z := Z.of_nat (nat_of_ascii c) - 48.

(** White space and line terminators (the ASCII ones). *)
Definition is_space (c : ascii) : bool :=
  let n := nat_of_ascii c in
  ((9 <=? n)%nat && (n <=? 13)%nat) || (n =? 32)%nat.

Fixpoint trim_start (s : string) : string :=
  match s with
  | String c s' => if is_space c then trim_start s' else s
  | EmptyString => s
  end.

(** Reads a maximal run of digits: its value (after [acc]), its length,
    and the rest of the input. *)
Fixpoint read_digits (s : string) (acc : Z) (len : Z) : Z * Z * string :=
  match s with
  | String c s' =>
      if is_digit c then read_digits s' (10 * acc + digit_value c) (len + 1)
      else (acc, len, s)
  | EmptyString => (acc, len, s)
  end.

(** An optional sign: whether it is a minus, and the rest of the input. *)
Definition read_sign (s : string) : bool * string :=
  match s with
  | String "-" r => (true, r)
  | String "+" r => (false, r)
  | _ => (false, s)
  end.

(** ExponentPart, if one is present at the head of [s]; 0 otherwise. *)
Definition read_exponent (s : string) : Z :=
  match s with
  | String c s' =>
      if Ascii.eqb c "e" || Ascii.eqb c "E" then
        let '(neg, s'') := read_sign s' in
        let '(v, len, _) := read_digits s'' 0 0 in
        if len =? 0 then 0 else if neg then - v else v
      else 0
  | EmptyString => 0
  end.

(** [parseFloat(s)]: the longest prefix of the trimmed input that is a
    StrDecimalLiteral, rounded to the nearest Number; [NaN] when there
    is none. *)
Definition parseFloat (s : string) : number :=
  let '(neg, s) := read_sign (trim_start s) in
  if String.prefix "Infinity" s then Infinity neg
  else
    let '(ip, ilen, s) := read_digits s 0 0 in
    let '(m, flen, s) :=
      match s with
      | String "." r => read_digits r ip 0
      | _ => (ip, 0, s)
      end in
    if (ilen =? 0) && (flen =? 0) then NaN
    else if m =? 0 then Zero neg
    else
      let '(p, q) := scale10 m 1 (read_exponent s - flen) in
      round_nearest_even neg p q.

(** Is the rest of an input free of a leading digit? *)
Definition no_leading_digit (s : string) : Prop :=
  match s with
  | String c _ => is_digit c = false
  | EmptyString => True
  end.

(** *** Decimal numerals of fixed-point values *)

(** The fraction [r / 10^k], [0 <= r < 10^k], without its trailing
    zeros. *)
Fixpoint strip_zeros (k : nat) (r : Z) : string :=
  match k with
  | O => ""
  | S k' =>
      if r mod 10 =? 0 then strip_zeros k' (r / 10) else fixed_digits k r
  end.

Definition sign_string (neg : bool) : string := if neg then "-" else "".

(** The numeral of [m / 10^f] written with exactly [f] fractional
    digits, as in "95000.50" ([m = 9500050], [f = 2]). *)
Definition decimal_string (neg : bool) (m : Z) (f : nat) : string :=
  sign_string neg +:+ Z_digits (m / 10 ^ Z.of_nat f)
    +:+ match f with
        | O => ""
        | S _ => "." +:+ fixed_digits f (m mod 10 ^ Z.of_nat f)
        end.

(** The same value in canonical form: no trailing zeros in the
    fraction, and no point when the fraction is empty ("95000.5"). *)
Definition canonical_string (neg : bool) (m : Z) (f : nat) : string :=
  sign_string neg +:+ Z_digits (m / 10 ^ Z.of_nat f)
    +:+ match strip_zeros f (m mod 10 ^ Z.of_nat f) with
        | EmptyString => ""
        | fr => "." +:+ fr
        end.

(** *** Real values, for stating error bounds *)

(** The real number a finite Number stands for, without its sign. *)
Definition magnitude (x : number) : R :=
  match x with
  | Finite _ m e => (IZR (Z.pos m) * powerRZ 2 e)%R
  | _ => 0%R
  end.

(** The rational [p / q] as a real. *)
Definition ratio (p q : Z) : R := (IZR p / IZR q)%R.

(** Is [Math.pow(10, k)] exactly [10^k]? *)
Definition pow10_exact_at (k : Z) : bool :=
  match pow10 k with
  | Finite false m e =>
      (shl (Z.pos m) e =? 10 ^ k * shl 1 (- e)) && (-1072 <=? e)
  | _ => false
  end.

(** *** The Standard Library's binary floating point, for comparison *)

Definition to_spec_float (x : number) : SpecFloat.spec_float :=
  match x with
  | NaN => SpecFloat.S754_nan
  | Infinity neg => SpecFloat.S754_infinity neg
  | Zero neg => SpecFloat.S754_zero neg
  | Finite neg m e => SpecFloat.S754_finite neg m e
  end.

Definition of_spec_float (x : SpecFloat.spec_float) : number :=
  match x with
  | SpecFloat.S754_nan => NaN
  | SpecFloat.S754_infinity neg => Infinity neg
  | SpecFloat.S754_zero neg => Zero neg
  | SpecFloat.S754_finite neg m e => Finite neg m e
  end.

(** binary64 multiplication and division as [SpecFloat] defines them
    (precision 53, maximal exponent 1024). *)
Definition spec_mul (x y : number) : number :=
  of_spec_float (SpecFloat.SFmul 53 1024 (to_spec_float x) (to_spec_float y)).

Definition spec_div (x y : number) : number :=
  of_spec_float (SpecFloat.SFdiv 53 1024 (to_spec_float x) (to_spec_float y)).

(** Is a finite Number in canonical form? *)
Definition canonical (x : number) : bool :=
  match x with
  | Finite _ m e => SpecFloat.bounded 53 1024 m e
  | _ => true
  end.

(** Numbers of every kind: special values, prices, scale factors, a
    subnormal, the largest finite Number, an integer beyond [2^53]. *)
Definition samples : list number :=
  [ NaN; Infinity false; Infinity true; Zero false; Zero true ]
  ++ map parseFloat
       [ "1"; "-3"; "0.1"; "0.07"; "50000.5"; "-95000.50"; "0.00000001";
         "90000000.00000002"; "1.7976931348623157e308"; "5e-324";
         "2.2250738585072014e-308"; "1.005" ]
  ++ map of_Z [ 500005000; 9007199254740993 ]
  ++ map pow10 [ 4; 8; 23; -8 ].

(** Do [f] and [g] agree on every pair of samples? *)
Definition agree_on_samples (f g : number -> number -> number) : bool :=
  forallb (fun x => forallb (fun y => number_eqb (f x y) (g x y)) samples)
    samples.

End JSNumber.

(* ===================================================================== *)
(** ** JSON-like values *)
(* ===================================================================== *)

Module Json.
Import JSNumber.

(** What [convertResponse] receives as [unknown]: the values [JSON.parse]
    produces, plus [undefined].  The entries of an object are listed in
    the order [Object.entries] enumerates them; its keys are distinct. *)
Inductive json : Type :=
| VUndefined
| VNull
| VBoolean (b : bool)
| VNumber (x : number)
| VString (s : string)
| VArray (items : list json)
| VObject (entries : list (string * json)).

(** [typeof v === "number"] *)
Definition is_number (v : json) : bool :=
  match v with
  | VNumber _ => true
  | _ => false
  end.

(** [v !== null && typeof v === "object"] *)
Definition is_object (v : json) : bool :=
  match v with
  | VArray _ | VObject _ => true
  | _ => false
  end.

(** [k in obj], for an object whose prototype is [Object.prototype]: no
    inherited property name ends in Ep, Er or Ev, so for the keys the
    sources ask about this is membership among the own keys. *)
Fixpoint has_key (k : string) (obj : list (string * json)) : bool :=
  match obj with
  | [] => false
  | (k', _) :: rest => if String.eqb k' k then true else has_key k rest
  end.

(** [obj[k]] *)
Fixpoint get_key (k : string) (obj : list (string * json)) : option json :=
  match obj with
  | [] => None
  | (k', v) :: rest => if String.eqb k' k then Some v else get_key k rest
  end.

Fixpoint put_key (k : string) (v : json) (obj : list (string * json))
  : list (string * json) :=
  match obj with
  | [] => [(k, v)]
  | (k', v') :: rest =>
      if String.eqb k' k then (k, v) :: rest else (k', v') :: put_key k v rest
  end.

(** [result[k] = v] on an object created by the literal [{}]: an
    existing property is overwritten in place, a new one is added last.
    The name [__proto__] is the accessor inherited from
    [Object.prototype]; assigning to it creates no own property. *)
Definition set_key (k : string) (v : json) (obj : list (string * json))
  : list (string * json) :=
  if String.eqb k "__proto__" then obj else put_key k v obj.

End Json.

(* ===================================================================== *)
(** ** src/types.ts *)
(* ===================================================================== *)

Inductive ContractType : Set := linear | inverse | spot.

Record ProductInfo : Set := {
  symbol : string;
  contractType : ContractType;
  priceScale : JSNumber.number;
  ratioScale : JSNumber.number;
  valueScale : JSNumber.number;
  contractSize : JSNumber.number;
}.

(** What a method call produces: a returned value or a thrown [Error]
    with its message. *)
Inductive completion (A : Type) : Type :=
| Return (a : A)
| Throw (message : string).
Arguments Return {A} a.
Arguments Throw {A} message.

(* ===================================================================== *)
(** ** src/product-info.ts *)
(* ===================================================================== *)

Module ProductInfoCache.
Import JSString JSNumber Json.

(** The three interfaces at the end of the file.  The scale fields are
    exponents; they are taken to be integers, as the exchange reports
    them.  [contractSize] is optional in [RawProduct]; the linear loop
    tests [priceScale] and [ratioScale] for truthiness, so a
    [RawProductV2] may leave them out. *)
Record RawCurrency : Set := {
  rc_currency : string;
  rc_valueScale : Z;
}.

Record RawProduct : Set := {
  rp_symbol : string;
  rp_type : string;
  rp_status : string;
  rp_settleCurrency : string;
  rp_priceScale : Z;
  rp_ratioScale : Z;
  rp_contractSize : option number;
}.

Record RawProductV2 : Set := {
  rv_symbol : string;
  rv_type : string;
  rv_status : string;
  rv_settleCurrency : string;
  rv_priceScale : option Z;
  rv_ratioScale : option Z;
}.

(** The [data] member of the response body. *)
Record Payload : Set := {
  currencies : option (list RawCurrency);
  products : option (list RawProduct);
  perpProductsV2 : option (list RawProductV2);
}.

(** What [await fetch(...)] followed by [await res.json()] comes to:
    either promise rejects, or a body [{code, data}] is obtained.  The
    body is taken to have the shape [init] casts it to. *)
Inductive Fetched : Set :=
| FetchRejects
| JsonRejects
| Body (code : Z) (data : Payload).

(** The private fields of the class. *)
Record t : Type := {
  baseUrl : string;
  cache : gmap string ProductInfo;
  loaded : bool;
  currencyScales : gmap string number;
}.

(** [new ProductInfoCache(baseUrl)] *)
Definition new (baseUrl : string) : t :=
  {| baseUrl := baseUrl; cache := ∅; loaded := false; currencyScales := ∅ |}.

(** [xs ?? []] *)
Definition or_empty {A} (xs : option (list A)) : list A :=
  match xs with
  | Some l => l
  | None => []
  end.

(** Body of the first loop of [init]. *)
Definition add_currency (scales : gmap string number) (c : RawCurrency)
  : gmap string number :=
  <[rc_currency c := pow10 (rc_valueScale c)]> scales.

(** [this.currencyScales.get(c) ?? Math.pow(10, 8)] *)
Definition settle_scale (scales : gmap string number) (c : string) : number :=
  match scales !! c with
  | Some s => s
  | None => pow10 8
  end.

(** Body of the second loop of [init] (inverse and spot products). *)
Definition add_product (scales : gmap string number)
    (m : gmap string ProductInfo) (p : RawProduct) : gmap string ProductInfo :=
  if negb (String.eqb (rp_status p) "Listed") then m
  else if String.eqb (rp_type p) "Perpetual" then
    <[rp_symbol p :=
        {| symbol := rp_symbol p;
           contractType := inverse;
           priceScale := pow10 (rp_priceScale p);
           ratioScale := pow10 (rp_ratioScale p);
           valueScale := settle_scale scales (rp_settleCurrency p);
           contractSize :=
             match rp_contractSize p with
             | Some c => c
             | None => of_Z 1
             end |}]> m
  else if String.eqb (rp_type p) "Spot" then
    <[rp_symbol p :=
        {| symbol := rp_symbol p;
           contractType := spot;
           priceScale := pow10 (rp_priceScale p);
           ratioScale := pow10 (rp_ratioScale p);
           valueScale := settle_scale scales (rp_settleCurrency p);
           contractSize := of_Z 1 |}]> m
  else m.

(** [e ? Math.pow(10, e) : 1]: an absent or zero exponent is falsy. *)
Definition pow10_or_1 (e : option Z) : number :=
  match e with
  | Some k => if k =? 0 then of_Z 1 else pow10 k
  | None => of_Z 1
  end.

(** Body of the third loop of [init] (linear products). *)
Definition add_productV2 (m : gmap string ProductInfo) (p : RawProductV2)
  : gmap string ProductInfo :=
  if String.eqb (rv_status p) "Listed" then
    <[rv_symbol p :=
        {| symbol := rv_symbol p;
           contractType := linear;
           priceScale := pow10_or_1 (rv_priceScale p);
           ratioScale := pow10_or_1 (rv_ratioScale p);
           valueScale := of_Z 1;
           contractSize := of_Z 1 |}]> m
  else m.

(** [init()], given what the fetch produced.  A rejected promise lands
    in the empty [catch]; a non-zero [code] returns at once. *)
Definition init (this : t) (res : Fetched) : t :=
  match res with
  | FetchRejects | JsonRejects => this
  | Body code data =>
      if negb (code =? 0) then this
      else
        let scales :=
          fold_left add_currency (or_empty (currencies data))
            (currencyScales this) in
        let cache1 :=
          fold_left (add_product scales) (or_empty (products data))
            (cache this) in
        let cache2 :=
          fold_left add_productV2 (or_empty (perpProductsV2 data)) cache1 in
        {| baseUrl := baseUrl this;
           cache := cache2;
           loaded := true;
           currencyScales := scales |}
  end.

Definition isLoaded (this : t) : bool := loaded this.

Definition get (this : t) (symbol : string) : option ProductInfo :=
  cache this !! symbol.

Definition scalePrice (this : t) (symbol decimal : string) : completion number :=
  match cache this !! symbol with
  | None => Throw ("No product info for " +:+ symbol)
  | Some info => Return (round (mul (parseFloat decimal) (priceScale info)))
  end.

Definition scaleRatio (this : t) (symbol decimal : string) : completion number :=
  match cache this !! symbol with
  | None => Throw ("No product info for " +:+ symbol)
  | Some info => Return (round (mul (parseFloat decimal) (ratioScale info)))
  end.

Definition scaleValue (this : t) (symbol decimal : string) : completion number :=
  match cache this !! symbol with
  | None => Throw ("No product info for " +:+ symbol)
  | Some info => Return (round (mul (parseFloat decimal) (valueScale info)))
  end.

Definition unscalePrice (this : t) (symbol : string) (scaled : number)
  : completion string :=
  match cache this !! symbol with
  | None => Throw ("No product info for " +:+ symbol)
  | Some info => Return (toString (div scaled (priceScale info)))
  end.

Definition scaleCurrencyAmount (this : t) (currency decimal : string)
  : completion number :=
  match currencyScales this !! currency with
  | None => Throw ("No currency info for " +:+ currency)
  | Some scale => Return (round (mul (parseFloat decimal) scale))
  end.

Definition unscaleCurrencyAmount (this : t) (currency : string)
    (amountEv : number) : completion string :=
  match currencyScales this !! currency with
  | None => Throw ("No currency info for " +:+ currency)
  | Some scale => Return (toString (div amountEv scale))
  end.

(** [(value / scale).toString()], for a [value] that is a number. *)
Definition unscaled (value : json) (scale : number) : json :=
  match value with
  | VNumber x => VString (toString (div x scale))
  | _ => value
  end.

(** [(key + "Ep") in obj || (key + "Er") in obj || (key + "Ev") in obj] *)
Definition has_scaled_sibling (key : string) (obj : list (string * json))
  : bool :=
  has_key (key +:+ "Ep") obj || has_key (key +:+ "Er") obj
    || has_key (key +:+ "Ev") obj.

(** One iteration of the [for ... of Object.entries(obj)] loop, with
    [convert] standing for the recursive call. *)
Definition convert_entry (info : ProductInfo) (convert : json -> json)
    (obj : list (string * json)) (result : list (string * json))
    (key : string) (value : json) : list (string * json) :=
  if endsWith key "Ep" && is_number value then
    set_key (slice_0_m2 key) (unscaled value (priceScale info)) result
  else if endsWith key "Er" && is_number value then
    set_key (slice_0_m2 key) (unscaled value (ratioScale info)) result
  else if endsWith key "Ev" && is_number value then
    set_key (slice_0_m2 key) (unscaled value (valueScale info)) result
  else if has_scaled_sibling key obj then
    result
  else if is_object value then
    set_key key (convert value) result
  else
    set_key key value result.

(** The [for ... of Object.entries(obj)] loop: [entries] is what is
    left to visit, [result] the object built so far. *)
Fixpoint convert_entries (info : ProductInfo) (convert : json -> json)
    (obj entries result : list (string * json)) {struct entries}
  : list (string * json) :=
  match entries with
  | [] => result
  | (key, value) :: rest =>
      convert_entries info convert obj rest
        (convert_entry info convert obj result key value)
  end.

Fixpoint convertResponse (this : t) (symbol : string) (data : json)
  {struct data} : json :=
  match data with
  | VNull | VUndefined => data
  | VArray items => VArray (map (convertResponse this symbol) items)
  | VObject obj =>
      match cache this !! symbol with
      | None => data
      | Some info =>
          VObject
            (convert_entries info (convertResponse this symbol) obj obj [])
      end
  | _ => data
  end.

(** [v[k]] for a converted response [v]. *)
Definition property (v : json) (k : string) : option json :=
  match v with
  | VObject entries => get_key k entries
  | _ => None
  end.

(** Is the entry rewritten by one of the first three branches of the
    loop, that is, a scaled field? *)
Definition is_scaled_field (key : string) (value : json) : bool :=
  (endsWith key "Ep" || endsWith key "Er" || endsWith key "Ev")
    && is_number value.

(** What a converted object may hold under [k] when [k] has a scaled
    sibling in [obj]: the conversion of a numeric scaled sibling. *)
Definition from_scaled_sibling (info : ProductInfo)
    (obj : list (string * json)) (k : string) (w : json) : Prop :=
  exists suffix scale x,
    In (suffix, scale)
      [("Ep", priceScale info); ("Er", ratioScale info);
       ("Ev", valueScale info)]
    /\ In (k +:+ suffix, VNumber x) obj
    /\ w = VString (toString (div x scale)).


(** A scale factor that is a positive integer: [Number.isInteger(x)]
    and [x >= 1]. *)
Definition is_positive_integer (x : number) : bool :=
  isInteger x && ge_one x.

(** Every scale exponent a payload reports lies in [lo, hi]. *)
Definition exponents_within (lo hi : Z) (data : Payload) : Prop :=
  Forall (fun c => lo <= rc_valueScale c <= hi) (or_empty (currencies data))
  /\ Forall (fun p => lo <= rp_priceScale p <= hi /\ lo <= rp_ratioScale p <= hi)
       (or_empty (products data))
  /\ Forall (fun p =>
               (forall k, rv_priceScale p = Some k -> lo <= k <= hi)
               /\ (forall k, rv_ratioScale p = Some k -> lo <= k <= hi))
       (or_empty (perpProductsV2 data)).

(** Every scale exponent a payload reports is a nonnegative integer. *)
Definition exponents_nonnegative (data : Payload) : Prop :=
  Forall (fun c => 0 <= rc_valueScale c) (or_empty (currencies data))
  /\ Forall (fun p => 0 <= rp_priceScale p /\ 0 <= rp_ratioScale p)
       (or_empty (products data))
  /\ Forall (fun p =>
               (forall k, rv_priceScale p = Some k -> 0 <= k)
               /\ (forall k, rv_ratioScale p = Some k -> 0 <= k))
       (or_empty (perpProductsV2 data)).

(** The invariant of the currency table: a stored scale is a positive
    integer. *)
Definition good_scale (_ : string) (x : number) : Prop :=
  is_positive_integer x = true.

(** The three scale factors of an entry are positive integers. *)
Definition factors_positive_integers (info : ProductInfo) : Prop :=
  is_positive_integer (priceScale info) = true
  /\ is_positive_integer (ratioScale info) = true
  /\ is_positive_integer (valueScale info) = true.

(** The invariant of the product table. *)
Definition good_info (_ : string) (info : ProductInfo) : Prop :=
  factors_positive_integers info.

End ProductInfoCache.

(* ===================================================================== *)
(** ** src/contract-router.ts *)
(* ===================================================================== *)

Inductive Operation : Set :=
| placeOrder | cancelOrder | amendOrder | cancelAll
| setLeverage | switchPosMode
| account | positions | openOrders | orderHistory | tradeHistory
| ticker | orderbook | klines | recentTrades | fundingRate.

Definition ENDPOINTS (contractType : ContractType) (operation : Operation)
  : string :=
  match contractType with
  | linear =>
      match operation with
      | placeOrder => "/g-orders/create"
      | cancelOrder => "/g-orders/cancel"
      | amendOrder => "/g-orders/replace"
      | cancelAll => "/g-orders/all"
      | setLeverage => "/g-positions/leverage"
      | switchPosMode => "/g-positions/switch-pos-mode-sync"
      | account => "/g-accounts/accountPositions"
      | positions => "/g-accounts/positions"
      | openOrders => "/g-orders/activeList"
      | orderHistory => "/api-data/g-futures/orders"
      | tradeHistory => "/api-data/g-futures/trades"
      | ticker => "/md/v2/ticker/24hr"
      | orderbook => "/md/v2/orderbook"
      | klines => "/exchange/public/md/v2/kline/list"
      | recentTrades => "/md/v2/trade"
      | fundingRate => "/api-data/public/data/funding-rate-history"
      end
  | inverse =>
      match operation with
      | placeOrder => "/orders/create"
      | cancelOrder => "/orders/cancel"
      | amendOrder => "/orders/replace"
      | cancelAll => "/orders/all"
      | setLeverage => "/positions/leverage"
      | switchPosMode => "/positions/switch-pos-mode-sync"
      | account => "/accounts/accountPositions"
      | positions => "/accounts/positions"
      | openOrders => "/orders/activeList"
      | orderHistory => "/exchange/order/list"
      | tradeHistory => "/exchange/order/trade"
      | ticker => "/md/v1/ticker/24hr"
      | orderbook => "/md/orderbook"
      | klines => "/exchange/public/md/v2/kline"
      | recentTrades => "/md/trade"
      | fundingRate => "/api-data/public/data/funding-rate-history"
      end
  | spot =>
      match operation with
      | placeOrder => "/spot/orders/create"
      | cancelOrder => "/spot/orders"
      | amendOrder => "/spot/orders"
      | cancelAll => "/spot/orders/all"
      | setLeverage => ""
      | switchPosMode => ""
      | account => ""
      | positions => ""
      | openOrders => "/spot/orders"
      | orderHistory => "/api-data/spots/orders"
      | tradeHistory => "/api-data/spots/trades"
      | ticker => "/md/spot/ticker/24hr"
      | orderbook => "/md/orderbook"
      | klines => "/exchange/public/md/v2/kline/list"
      | recentTrades => "/md/trade"
      | fundingRate => ""
      end
  end.

Module ContractRouter.
Import JSString.

Definition getEndpoint (contractType : ContractType) (operation : Operation)
  : string :=
  ENDPOINTS contractType operation.

Definition resolveSymbol (contractType : ContractType) (symbol : string)
  : string :=
  match contractType with
  | spot => if negb (startsWith symbol "s") then "s" +:+ symbol else symbol
  | _ => symbol
  end.

(** The double-quote character of the messages. *)
Definition dquote : ascii := ascii_of_nat 34.

(** [null] is [None]; an error string is [Some] of it. *)
Definition validateSymbol (contractType : ContractType) (symbol : string)
  : option string :=
  match contractType with
  | spot =>
      let raw := if startsWith symbol "s" then slice_1 symbol else symbol in
      if endsWith raw "USD" && negb (endsWith raw "USDT") then
        Some ("Symbol " +:+ symbol +:+
              " looks like a Coin-M symbol. Spot symbols should end in USDT (e.g. BTCUSDT).")
      else None
  | inverse =>
      if endsWith symbol "USDT" then
        Some ("Symbol " +:+ symbol +:+
              " looks like a USDT-M symbol. Use contractType=" +:+ String dquote "linear"
              +:+ String dquote " for USDT-M symbols.")
      else None
  | linear =>
      if endsWith symbol "USD" && negb (endsWith symbol "USDT") then
        Some ("Symbol " +:+ symbol +:+
              " looks like a Coin-M symbol. Use contractType=" +:+ String dquote "inverse"
              +:+ String dquote " for Coin-M symbols.")
      else None
  end.

Definition isInverse (contractType : ContractType) : bool :=
  match contractType with
  | inverse => true
  | _ => false
  end.

Definition isSpot (contractType : ContractType) : bool :=
  match contractType with
  | spot => true
  | _ => false
  end.

(** The path families named by the router's tests: "g-prefixed
    endpoints for linear", "non-g endpoints for inverse", and the
    [/spot/] order endpoints. *)
Definition path_family (path : string) : option ContractType :=
  if startsWith path "/g-" then Some linear
  else if startsWith path "/spot/" then Some spot
  else if startsWith path "/" then Some inverse
  else None.

End ContractRouter.

(* ===================================================================== *)
(** ** The fixture of src/__tests__/product-info.test.ts *)
(* ===================================================================== *)

Module Fixture.
Import JSNumber Json ProductInfoCache.

(** The [data] of [MOCK_PRODUCTS_RESPONSE]. *)
Definition mock_data : Payload :=
    {| currencies := Some
         [ {| rc_currency := "BTC"; rc_valueScale := 8 |};
           {| rc_currency := "ETH"; rc_valueScale := 8 |};
           {| rc_currency := "USDT"; rc_valueScale := 8 |};
           {| rc_currency := "SOL"; rc_valueScale := 8 |} ];
       products := Some
         [ {| rp_symbol := "BTCUSD"; rp_type := "Perpetual";
              rp_status := "Listed"; rp_settleCurrency := "BTC";
              rp_priceScale := 4; rp_ratioScale := 8;
              rp_contractSize := Some (of_Z 1) |};
           {| rp_symbol := "ETHUSD"; rp_type := "Perpetual";
              rp_status := "Listed"; rp_settleCurrency := "ETH";
              rp_priceScale := 4; rp_ratioScale := 8;
              rp_contractSize := Some (of_Z 1) |};
           {| rp_symbol := "SOLUSD"; rp_type := "Perpetual";
              rp_status := "Delisted"; rp_settleCurrency := "USD";
              rp_priceScale := 4; rp_ratioScale := 8;
              rp_contractSize := Some (of_Z 1) |};
           {| rp_symbol := "cSOLUSD"; rp_type := "Perpetual";
              rp_status := "Listed"; rp_settleCurrency := "SOL";
              rp_priceScale := 4; rp_ratioScale := 8;
              rp_contractSize := Some (of_Z 1) |};
           {| rp_symbol := "sBTCUSDT"; rp_type := "Spot";
              rp_status := "Listed"; rp_settleCurrency := "USDT";
              rp_priceScale := 8; rp_ratioScale := 8;
              rp_contractSize := None |};
           {| rp_symbol := "sETHUSDT"; rp_type := "Spot";
              rp_status := "Listed"; rp_settleCurrency := "USDT";
              rp_priceScale := 8; rp_ratioScale := 8;
              rp_contractSize := None |};
           {| rp_symbol := "sDELISTED"; rp_type := "Spot";
              rp_status := "Delisted"; rp_settleCurrency := "USDT";
              rp_priceScale := 8; rp_ratioScale := 8;
              rp_contractSize := None |} ];
       perpProductsV2 := Some
         [ {| rv_symbol := "BTCUSDT"; rv_type := "PerpetualV2";
              rv_status := "Listed"; rv_settleCurrency := "USDT";
              rv_priceScale := Some 0; rv_ratioScale := Some 0 |} ] |}.

Definition MOCK_PRODUCTS_RESPONSE : Fetched := Body 0 mock_data.

(** The cache of the tests, after [await cache.init()]. *)
Definition mock_cache : ProductInfoCache.t :=
  init (new "https://api.phemex.com") MOCK_PRODUCTS_RESPONSE.

End Fixture.

(* ===================================================================== *)
(** ** Predicates on converted and scaled values *)
(* ===================================================================== *)

Module Shape.
Import JSString JSNumber Json ProductInfoCache.

(** A Number that has no fractional part: an integer, or one of [NaN],
    [Infinity], [-Infinity]. *)
Definition no_fraction (x : number) : bool :=
  match x with
  | NaN | Infinity _ => true
  | _ => isInteger x
  end.

(** No object at any depth of [v] holds a number under a key that ends
    in Ep, Er or Ev. *)
Fixpoint no_scaled_number (v : json) : bool :=
  match v with
  | VArray items => forallb no_scaled_number items
  | VObject entries =>
      forallb (fun kv => negb (is_scaled_field (fst kv) (snd kv))
                         && no_scaled_number (snd kv)) entries
  | _ => true
  end.

End Shape.

(* ===================================================================== *)
(** ** Where the entries of a populated cache come from *)
(* ===================================================================== *)

Module Provenance.
Import JSString JSNumber Json ProductInfoCache.




(** [info], found under [s], was built from a listed record of [data]
    with that symbol: a linear entry from [perpProductsV2], an inverse
    entry from a Perpetual product, a spot entry from a Spot product. *)
Definition from_listed_record (data : Payload) (s : string)
    (info : ProductInfo) : Prop :=
  symbol info = s
  /\ ((contractType info = linear
       /\ exists p, In p (or_empty (perpProductsV2 data))
                    /\ rv_symbol p = s /\ rv_status p = "Listed")
      \/ (exists p, In p (or_empty (products data))
                    /\ rp_symbol p = s /\ rp_status p = "Listed"
                    /\ ((rp_type p = "Perpetual" /\ contractType info = inverse)
                        \/ (rp_type p = "Spot" /\ contractType info = spot)))).


End Provenance.

(* ===================================================================== *)
(** ** More of the runtime: [Number(s)], [isNaN], [encodeURIComponent] *)
(* ===================================================================== *)

Module JSGlobal.
Import JSString JSNumber Json.

(** Strings are sequences of UTF-8 bytes.  The StrWhiteSpaceChar of
    ECMA-262 (WhiteSpace and LineTerminator), as byte sequences: TAB,
    LF, VT, FF, CR, SP, U+00A0, U+1680, U+2000 to U+200A, U+2028,
    U+2029, U+202F, U+205F, U+3000, U+FEFF. *)
Definition bytes (l : list nat) : string :=
  fold_right (fun n s => String (ascii_of_nat n) s) EmptyString l.

Definition white_space : list string :=
  map bytes
    [ [9]; [10]; [11]; [12]; [13]; [32]; [194; 160]; [225; 154; 128];
      [226; 128; 128]; [226; 128; 129]; [226; 128; 130]; [226; 128; 131];
      [226; 128; 132]; [226; 128; 133]; [226; 128; 134]; [226; 128; 135];
      [226; 128; 136]; [226; 128; 137]; [226; 128; 138]; [226; 128; 168];
      [226; 128; 169]; [226; 128; 175]; [226; 129; 159]; [227; 128; 128];
      [239; 187; 191] ]%nat.

Fixpoint string_rev (s : string) : string :=
  match s with
  | EmptyString => EmptyString
  | String c r => string_rev r +:+ String c EmptyString
  end.

Fixpoint drop (n : nat) (s : string) : string :=
  match n, s with
  | S n', String _ r => drop n' r
  | _, _ => s
  end.

(** [s] without one of the [patterns] at its head, if it has one. *)
Fixpoint strip_one (patterns : list string) (s : string) : option string :=
  match patterns with
  | [] => None
  | p :: rest =>
      if String.prefix p s then Some (drop (String.length p) s)
      else strip_one rest s
  end.

Fixpoint strip_all (fuel : nat) (patterns : list string) (s : string)
  : string :=
  match fuel with
  | O => s
  | S fuel' =>
      match strip_one patterns s with
      | Some r => strip_all fuel' patterns r
      | None => s
      end
  end.

(** [s] without white space at either end. *)
Definition trim (s : string) : string :=
  let s := strip_all (String.length s) white_space s in
  string_rev
    (strip_all (String.length s) (map string_rev white_space) (string_rev s)).

(** The value of a digit of a radix up to 16, if [c] is one. *)
Definition radix_digit (radix : Z) (c : ascii) : option Z :=
  let n := Z.of_nat (nat_of_ascii c) in
  let v := if (48 <=? n) && (n <=? 57) then n - 48
           else if (97 <=? n) && (n <=? 102) then n - 87
           else if (65 <=? n) && (n <=? 70) then n - 55
           else 16 in
  if v <? radix then Some v else None.

(** The value of a string made of digits of the radix only. *)
Fixpoint radix_value (radix : Z) (s : string) (acc : Z) : option Z :=
  match s with
  | EmptyString => Some acc
  | String c r =>
      match radix_digit radix c with
      | Some v => radix_value radix r (radix * acc + v)
      | None => None
      end
  end.

(** NonDecimalIntegerLiteral: [0x], [0o] or [0b] and at least one digit. *)
Definition non_decimal_literal (s : string) : option number :=
  match s with
  | String "0" (String c r) =>
      let radix :=
        if Ascii.eqb c "x" || Ascii.eqb c "X" then 16
        else if Ascii.eqb c "o" || Ascii.eqb c "O" then 8
        else if Ascii.eqb c "b" || Ascii.eqb c "B" then 2
        else 0 in
      if radix =? 0 then None
      else Some match r with
                | EmptyString => NaN
                | _ => match radix_value radix r 0 with
                       | Some v => of_Z v
                       | None => NaN
                       end
                end
  | _ => None
  end.

(** An ExponentPart that is all of [s], or nothing at all. *)
Definition exponent_part (s : string) : option Z :=
  match s with
  | EmptyString => Some 0
  | String c s' =>
      if Ascii.eqb c "e" || Ascii.eqb c "E" then
        let '(neg, s'') := read_sign s' in
        let '(v, len, rest) := read_digits s'' 0 0 in
        if (len =? 0) || negb (String.eqb rest "") then None
        else Some (if neg then - v else v)
      else None
  end.

(** StrDecimalLiteral: all of [s] is a signed decimal numeral or a
    signed [Infinity]; [NaN] otherwise. *)
Definition decimal_literal (s : string) : number :=
  let '(neg, s) := read_sign s in
  if String.eqb s "Infinity" then Infinity neg
  else
    let '(ip, ilen, s) := read_digits s 0 0 in
    let '(m, flen, s) :=
      match s with
      | String "." r => read_digits r ip 0
      | _ => (ip, 0, s)
      end in
    if (ilen =? 0) && (flen =? 0) then NaN
    else match exponent_part s with
         | None => NaN
         | Some e =>
             if m =? 0 then Zero neg
             else let '(p, q) := scale10 m 1 (e - flen) in
                  round_nearest_even neg p q
         end.

(** [Number(s)] for a string [s] (StringToNumber): the empty string and
    white space are 0; a numeral must be all of the trimmed string. *)
Definition StringToNumber (s : string) : number :=
  let s := trim s in
  if String.eqb s "" then Zero false
  else match non_decimal_literal s with
       | Some x => x
       | None => decimal_literal s
       end.

(** [-x] *)
Definition opp (x : number) : number :=
  match x with
  | NaN => NaN
  | Infinity s => Infinity (negb s)
  | Zero s => Zero (negb s)
  | Finite s m e => Finite (negb s) m e
  end.

(** [x + y]: the exact sum, rounded; an exact zero sum is [+0]. *)
Definition add (x y : number) : number :=
  match x, y with
  | NaN, _ | _, NaN => NaN
  | Infinity s1, Infinity s2 => if Bool.eqb s1 s2 then x else NaN
  | Infinity _, _ => x
  | _, Infinity _ => y
  | Zero s1, Zero s2 => Zero (s1 && s2)
  | Zero _, _ => y
  | _, Zero _ => x
  | Finite s1 m1 e1, Finite s2 m2 e2 =>
      let e := Z.min e1 e2 in
      let v1 := (if s1 then Z.neg m1 else Z.pos m1) * 2 ^ (e1 - e) in
      let v2 := (if s2 then Z.neg m2 else Z.pos m2) * 2 ^ (e2 - e) in
      match v1 + v2 with
      | Z0 => Zero false
      | Z.pos p => round_nearest_even false (shl (Z.pos p) e) (shl 1 (- e))
      | Z.neg p => round_nearest_even true (shl (Z.pos p) e) (shl 1 (- e))
      end
  end.

(** [x - y] *)
Definition sub (x y : number) : number := add x (opp y).

(** [Math.floor(x)] *)
Definition floor (x : number) : number :=
  match x with
  | Finite s m e =>
      if 0 <=? e then x
      else
        let v := if s then Z.neg m else Z.pos m in
        let r := v / 2 ^ (- e) in
        if r =? 0 then Zero false else of_Z r
  | _ => x
  end.

(** binary64 subtraction as [SpecFloat] defines it. *)
Definition spec_sub (x y : number) : number :=
  of_spec_float (SpecFloat.SFsub 53 1024 (to_spec_float x) (to_spec_float y)).

(** [isNaN(x)] for a number [x]. *)
Definition isNaN (x : number) : bool :=
  match x with
  | NaN => true
  | _ => false
  end.

(** The characters [encodeURIComponent] leaves as they are: letters,
    digits and [- _ . ! ~ * ' ( )]. *)
Definition unreserved (c : ascii) : bool :=
  let n := nat_of_ascii c in
  ((48 <=? n) && (n <=? 57) || (65 <=? n) && (n <=? 90)
   || (97 <=? n) && (n <=? 122)
   || existsb (Nat.eqb n) [45; 95; 46; 33; 126; 42; 39; 40; 41])%nat.

Definition hex_char (n : nat) : ascii :=
  ascii_of_nat (if (n <? 10)%nat then 48 + n else 55 + n).

(** [encodeURIComponent(s)]: every other byte of the UTF-8 form of [s]
    becomes [%XX], in upper-case hexadecimal. *)
Fixpoint encodeURIComponent (s : string) : string :=
  match s with
  | EmptyString => EmptyString
  | String c r =>
      if unreserved c then String c (encodeURIComponent r)
      else
        let n := nat_of_ascii c in
        String "%" (String (hex_char (n / 16)) (String (hex_char (n mod 16))
          (encodeURIComponent r)))
  end.

(** The prefix of [s] made of digits of the radix: its value, its
    length, and the rest of the input. *)
Fixpoint read_radix (radix : Z) (s : string) (acc : Z) (len : Z)
  : Z * Z * string :=
  match s with
  | String c r =>
      match radix_digit radix c with
      | Some v => read_radix radix r (radix * acc + v) (len + 1)
      | None => (acc, len, s)
      end
  | EmptyString => (acc, len, s)
  end.

(** [parseInt(s)] without a radix: leading white space and a sign are
    skipped, [0x] selects radix 16, and the longest prefix of digits is
    read; [NaN] when there is none. *)
Definition parseInt (s : string) : number :=
  let s := strip_all (String.length s) white_space s in
  let '(neg, s) := read_sign s in
  let '(radix, s) :=
    if String.prefix "0x" s || String.prefix "0X" s then (16, drop 2 s)
    else (10, s) in
  let '(v, len, _) := read_radix radix s 0 0 in
  if len =? 0 then NaN
  else if v =? 0 then Zero neg
  else round_nearest_even neg v 1.

(** [parts.join(sep)] *)
Fixpoint join (sep : string) (parts : list string) : string :=
  match parts with
  | [] => ""
  | [p] => p
  | p :: rest => p +:+ sep +:+ join sep rest
  end.

(** [String(v)], also what a template literal makes of [v].  An array
    prints its elements separated by commas, [null] and [undefined]
    among them as nothing; an object prints as [[object Object]], unless
    it has an own member [toString], which for a JSON value is not
    callable: then a TypeError is thrown, here [None]. *)
Fixpoint ToString (v : json) : option string :=
  match v with
  | VUndefined => Some "undefined"
  | VNull => Some "null"
  | VBoolean b => Some (if b then "true" else "false")
  | VNumber x => Some (toString x)
  | VString s => Some s
  | VArray items =>
      (fix elements (items : list json) : option string :=
         match items with
         | [] => Some ""
         | item :: rest =>
             match (match item with
                    | VUndefined | VNull => Some ""
                    | _ => ToString item
                    end), elements rest with
             | Some s, Some r =>
                 Some match rest with
                      | [] => s
                      | _ => s +:+ "," +:+ r
                      end
             | _, _ => None
             end
         end) items
  | VObject entries =>
      if has_key "toString" entries then None else Some "[object Object]"
  end.

(** The message of that TypeError. *)
Definition TypeError_message : string :=
  "Cannot convert object to primitive value".

(** The members every object inherits from [Object.prototype]. *)
Definition Object_prototype : list string :=
  [ "constructor"; "__defineGetter__"; "__defineSetter__"; "hasOwnProperty";
    "__lookupGetter__"; "__lookupSetter__"; "isPrototypeOf";
    "propertyIsEnumerable"; "toString"; "valueOf"; "__proto__";
    "toLocaleString" ].

(** What [params[key]] evaluates to: the value of an own property,
    [undefined] when there is none, or a member inherited from
    [Object.prototype] (a function, or the prototype itself), which is
    neither [undefined] nor [null] nor a string, number or boolean. *)
Inductive member : Type :=
| Value (v : json)
| Inherited.

Definition read (params : list (string * json)) (key : string) : member :=
  match get_key key params with
  | Some v => Value v
  | None =>
      if existsb (String.eqb key) Object_prototype then Inherited
      else Value VUndefined
  end.

(** [v !== 0] *)
Definition nonzero (x : number) : bool :=
  match x with
  | Zero _ => false
  | _ => true
  end.

(** The number of occurrences of a character. *)
Fixpoint count_char (c : ascii) (s : string) : nat :=
  match s with
  | EmptyString => O
  | String c' r => ((if Ascii.eqb c' c then 1 else 0) + count_char c r)%nat
  end.

End JSGlobal.

(* ===================================================================== *)
(** ** src/cli-parser.ts *)
(* ===================================================================== *)

Module CliParser.
Import JSString JSNumber Json JSGlobal.

Fixpoint all_digits (s : string) : bool :=
  match s with
  | EmptyString => true
  | String c r => is_digit c && all_digits r
  end.

(** [/^-?\d+$/.test(value)] *)
Definition is_integer_literal (value : string) : bool :=
  let digits := match value with
                | String "-" r => r
                | _ => value
                end in
  negb (String.eqb digits "") && all_digits digits.

Definition coerce (value : string) : json :=
  if String.eqb value "true" then VBoolean true
  else if String.eqb value "false" then VBoolean false
  else if is_integer_literal value then VNumber (StringToNumber value)
  else VString value.

(** [arg.slice(2)] *)
Definition slice_2 (arg : string) : string := drop 2 arg.

(** The [while] loop of flag mode: [args] is [args.slice(i)], [result]
    the object built so far. *)
Fixpoint parse_flags (args : list string) (result : list (string * json))
  : list (string * json) :=
  match args with
  | [] => result
  | arg :: rest =>
      if negb (startsWith arg "--") then parse_flags rest result
      else
        let key := slice_2 arg in
        match rest with
        | [] => set_key key (VBoolean true) result
        | nextArg :: rest' =>
            if startsWith nextArg "--" then
              parse_flags rest (set_key key (VBoolean true) result)
            else
              parse_flags rest' (set_key key (coerce nextArg) result)
        end
  end.

(** [parseCliArgs(args)].  [JSON_parse] stands for [JSON.parse] on a
    text that starts with a brace: it throws or returns an object, given
    by its entries. *)
Definition parseCliArgs
    (JSON_parse : string -> completion (list (string * json)))
    (args : list string) : completion (list (string * json)) :=
  match args with
  | [] => Return []
  | [arg] =>
      if startsWith arg "{" then JSON_parse arg
      else Return (parse_flags args [])
  | _ => Return (parse_flags args [])
  end.

(** The arguments [--k1 v1 ... --kn vn]. *)
Fixpoint flag_pairs (pairs : list (string * string)) : list string :=
  match pairs with
  | [] => []
  | (k, v) :: rest => ("--" +:+ k) :: v :: flag_pairs rest
  end.

(** The object [{k1: coerce(v1), ..., kn: coerce(vn)}], built by
    assignment in this order. *)
Fixpoint coerced_pairs (pairs : list (string * string))
    (result : list (string * json)) : list (string * json) :=
  match pairs with
  | [] => result
  | (k, v) :: rest => coerced_pairs rest (set_key k (coerce v) result)
  end.

End CliParser.

(* ===================================================================== *)
(** ** src/param-helpers.ts *)
(* ===================================================================== *)

Module ParamHelpers.
Import JSString JSNumber Json JSGlobal.

Definition requireString (params : list (string * json)) (key : string)
  : completion string :=
  match read params key with
  | Value (VNumber x) => Return (toString x)
  | Value (VString v) =>
      if String.eqb v "" then
        Throw ("Missing required parameter: --" +:+ key)
      else Return v
  | _ => Throw ("Missing required parameter: --" +:+ key)
  end.

(** [undefined] is [None]. *)
Definition optString (params : list (string * json)) (key : string)
  : option string :=
  match read params key with
  | Value (VString v) => Some v
  | Value (VNumber x) => Some (toString x)
  | _ => None
  end.

Definition optNumber (params : list (string * json)) (key : string)
    (defaultVal : option number) : completion (option number) :=
  match read params key with
  | Value VUndefined => Return defaultVal
  | Value (VNumber x) => Return (Some x)
  | Value (VString v) =>
      let n := StringToNumber v in
      if negb (isNaN n) then Return (Some n)
      else Throw ("Parameter --" +:+ key +:+ " must be a number")
  | _ => Throw ("Parameter --" +:+ key +:+ " must be a number")
  end.

Definition requireNumber (params : list (string * json)) (key : string)
  : completion number :=
  match optNumber params key None with
  | Return (Some v) => Return v
  | Return None => Throw ("Missing required parameter: --" +:+ key)
  | Throw message => Throw message
  end.

Definition optBool (params : list (string * json)) (key : string)
    (defaultVal : bool) : bool :=
  match read params key with
  | Value VUndefined => defaultVal
  | Value (VBoolean v) => v
  | Value (VString v) =>
      if String.eqb v "true" then true
      else if String.eqb v "false" then false
      else defaultVal
  | _ => defaultVal
  end.

End ParamHelpers.

(* ===================================================================== *)
(** ** src/client.ts *)
(* ===================================================================== *)

(** [PHEMEX_ERRORS] of src/types.ts, by property name. *)
Definition PHEMEX_ERRORS : list (string * string) :=
  [ ("0", "OK");
    ("10001", "Illegal request");
    ("10002", "Too many requests");
    ("10003", "Key is not valid");
    ("10005", "Request timeout");
    ("10500", "Missing required parameter");
    ("11001", "Insufficient available balance");
    ("11038", "Invalid trigger price");
    ("11074", "Invalid leverage");
    ("20004", "Inconsistent position mode (check posSide param matches account pos mode)");
    ("39108", "Invalid parameter");
    ("39995", "Too many requests (rate limited)");
    ("39996", "Order not found") ].

Module PhemexClient.
Import JSString JSNumber Json JSGlobal.

(** [v !== undefined && v !== null] *)
Definition present (entry : string * json) : bool :=
  match snd entry with
  | VUndefined | VNull => false
  | _ => true
  end.

(** [`${encodeURIComponent(k)}=${encodeURIComponent(String(v))}`] *)
Definition encode_entry (entry : string * json) : option string :=
  match ToString (snd entry) with
  | Some s => Some (encodeURIComponent (fst entry) +:+ "="
                      +:+ encodeURIComponent s)
  | None => None
  end.

(** [entries.map(f)], where [f] may throw. *)
Fixpoint map_all {A B : Type} (f : A -> option B) (l : list A)
  : option (list B) :=
  match l with
  | [] => Some []
  | a :: rest =>
      match f a, map_all f rest with
      | Some b, Some bs => Some (b :: bs)
      | _, _ => None
      end
  end.

(** [buildQueryParams(params)], [params] given by
    [Object.entries(params)]; [None] is the TypeError of [String(v)]. *)
Definition buildQueryParams (params : list (string * json)) : option string :=
  match map_all encode_entry (filter present params) with
  | Some parts => Some (join "&" parts)
  | None => None
  end.

Fixpoint lookup_message (key : string) (table : list (string * string))
  : option string :=
  match table with
  | [] => None
  | (k, m) :: rest => if String.eqb k key then Some m else lookup_message key rest
  end.

(** [getErrorMessage(code, msg)]; an omitted [msg] is [None]. *)
Definition getErrorMessage (code : number) (msg : option string) : string :=
  match msg with
  | Some m =>
      if negb (String.eqb m "") then m
      else match lookup_message (toString code) PHEMEX_ERRORS with
           | Some text => text
           | None => "Unknown error (code: " +:+ toString code +:+ ")"
           end
  | None =>
      match lookup_message (toString code) PHEMEX_ERRORS with
      | Some text => text
      | None => "Unknown error (code: " +:+ toString code +:+ ")"
      end
  end.

End PhemexClient.

(* ===================================================================== *)
(** ** What the parsed arguments can hold *)
(* ===================================================================== *)

Module Arguments.
Import JSString JSNumber Json JSGlobal.

(** A value flag mode can produce: a boolean, a number other than
    [NaN], or a string that does not start with two dashes. *)
Definition flag_value (v : json) : bool :=
  match v with
  | VBoolean _ => true
  | VNumber x => negb (isNaN x)
  | VString s => negb (startsWith s "--")
  | _ => false
  end.

End Arguments.

(* ===================================================================== *)
(** ** src/cli.ts *)
(* ===================================================================== *)

Module Cli.
Import JSString JSNumber Json JSGlobal ProductInfoCache ContractRouter.
Import PhemexClient.

(** How the process ends: [fail(message)] prints [{error: message}] and
    exits with status 1, [succeed(data)] prints [data] and exits with
    status 0.  An error thrown in a handler reaches the [catch] of
    [main], which calls [fail] with its message. *)
Inductive exit : Type :=
| Failed (message : string)
| Succeeded (data : json).

(** A step that returns a value or ends the process. *)
Inductive step (A : Type) : Type :=
| Go (a : A)
| Stop (e : exit).
Arguments Go {A} a.
Arguments Stop {A} e.

Definition bind {A B : Type} (s : step A) (f : A -> step B) : step B :=
  match s with
  | Go a => f a
  | Stop e => Stop e
  end.

Notation "'let*' x ':=' s 'in' t" := (bind s (fun x => t))
  (at level 10, x name, s at level 100, t at level 200).

(** A thrown error, passed on to the [catch] of [main]. *)
Definition rethrow {A : Type} (c : completion A) : step A :=
  match c with
  | Return a => Go a
  | Throw message => Stop (Failed message)
  end.

(** The requests of [PhemexClient]: [get], [getPublic], [getPublicMd],
    [putWithQuery], [delete] and [post]. *)
Inductive Method : Set :=
| GET | GET_public | GET_md | PUT | DELETE | POST.

(** A request as it leaves the client: the path, the query string
    built by [buildQueryParams], and for [post] the value that is
    serialised as the body. *)
Record request : Type := {
  method : Method;
  path : string;
  query : string;
  body : option json;
}.

(** [PhemexResponse] and [PhemexMdResponse] of src/types.ts; a response
    is taken to have the shape it is cast to. *)
Record PhemexResponse (T : Type) : Type := {
  code : number;
  msg : string;
  data : T;
}.
Arguments code {T} _.
Arguments msg {T} _.
Arguments data {T} _.

Record PhemexMdResponse : Type := {
  error : option (number * string);
  id : number;
  result : json;
}.

(** What [await client.get(...)] comes to: the promise rejects (the
    fetch fails, or the body is not JSON) with an error of the given
    message, or resolves with the parsed body. *)
Inductive fetched (A : Type) : Type :=
| Rejects (message : string)
| Resolves (a : A).
Arguments Rejects {A} message.
Arguments Resolves {A} a.

(** A handler run up to its one request: it ends without one, or sends
    it and ends according to the answer, which is a [PhemexResponse] of
    any JSON value, a [PhemexResponse] of an object given by its
    entries, or a [PhemexMdResponse]. *)
Inductive process : Type :=
| Ends (e : exit)
| Sends (r : request) (k : fetched (PhemexResponse json) -> exit)
| SendsRecord (r : request)
    (k : fetched (PhemexResponse (list (string * json))) -> exit)
| SendsMd (r : request) (k : fetched PhemexMdResponse -> exit).

Definition run (s : step process) : process :=
  match s with
  | Go p => p
  | Stop e => Ends e
  end.

(** [await client.m(path, params)] for the methods that take query
    parameters: building the query string may throw. *)
Definition call (m : Method) (path : string) (params : list (string * json))
    (k : fetched (PhemexResponse json) -> exit) : process :=
  match buildQueryParams params with
  | Some qp => Sends {| method := m; path := path; query := qp; body := None |} k
  | None => Ends (Failed TypeError_message)
  end.

Definition callMd (path : string) (params : list (string * json))
    (k : fetched PhemexMdResponse -> exit) : process :=
  match buildQueryParams params with
  | Some qp =>
      SendsMd {| method := GET_md; path := path; query := qp; body := None |} k
  | None => Ends (Failed TypeError_message)
  end.

(** [await client.post(path, body)] *)
Definition post (path : string) (body : list (string * json))
    (k : fetched (PhemexResponse (list (string * json))) -> exit) : process :=
  SendsRecord {| method := POST; path := path; query := "";
                 body := Some (VObject body) |} k.

(** [params.name] for a name [Object.prototype] does not define. *)
Definition field (params : list (string * json)) (name : string) : json :=
  match get_key name params with
  | Some v => v
  | None => VUndefined
  end.

(** [v ?? d] *)
Definition or_default (v d : json) : json :=
  match v with
  | VUndefined | VNull => d
  | _ => v
  end.

(** A template literal with [v] in it, [render] making the text. *)
Definition template {A : Type} (v : json) (render : string -> step A)
  : step A :=
  match ToString v with
  | Some s => render s
  | None => Stop (Failed TypeError_message)
  end.

(** The contract type a value names: [None] when [ct !== "linear" &&
    ct !== "inverse" && ct !== "spot"]. *)
Definition contract_type_of (ct : json) : option ContractType :=
  match ct with
  | VString s =>
      if String.eqb s "linear" then Some linear
      else if String.eqb s "inverse" then Some inverse
      else if String.eqb s "spot" then Some spot
      else None
  | _ => None
  end.

Definition getContractType (params : list (string * json))
  : step ContractType :=
  let ct := or_default (field params "contractType") (VString "linear") in
  match contract_type_of ct with
  | Some t => Go t
  | None =>
      template ct (fun s =>
        Stop (Failed ("Invalid contractType: " +:+ s
                        +:+ ". Must be linear, inverse, or spot.")))
  end.

Definition requireString (params : list (string * json)) (key : string)
  : step string :=
  match read params key with
  | Value (VString v) =>
      if String.eqb v "" then
        Stop (Failed ("Missing required parameter: --" +:+ key))
      else Go v
  | _ => Stop (Failed ("Missing required parameter: --" +:+ key))
  end.

Definition optString (params : list (string * json)) (key : string)
  : option string :=
  match read params key with
  | Value (VString v) => Some v
  | Value (VNumber x) => Some (toString x)
  | _ => None
  end.

Definition optNumber (params : list (string * json)) (key : string)
    (defaultVal : option number) : step (option number) :=
  match read params key with
  | Value VUndefined => Go defaultVal
  | Value (VNumber x) => Go (Some x)
  | Value (VString v) =>
      let n := StringToNumber v in
      if negb (isNaN n) then Go (Some n)
      else Stop (Failed ("Parameter --" +:+ key +:+ " must be a number"))
  | _ => Stop (Failed ("Parameter --" +:+ key +:+ " must be a number"))
  end.

Definition requireNumber (params : list (string * json)) (key : string)
  : step number :=
  let* v := optNumber params key None in
  match v with
  | Some x => Go x
  | None => Stop (Failed ("Missing required parameter: --" +:+ key))
  end.

Definition optBool (params : list (string * json)) (key : string)
    (defaultVal : bool) : bool :=
  match read params key with
  | Value VUndefined => defaultVal
  | Value (VBoolean v) => v
  | Value (VString v) =>
      if String.eqb v "true" then true
      else if String.eqb v "false" then false
      else defaultVal
  | _ => defaultVal
  end.

(** [const e = validateSymbol(ct, symbol); if (e) fail(e);] *)
Definition checkSymbol (ct : ContractType) (symbol : string) : step unit :=
  match validateSymbol ct symbol with
  | Some e => if String.eqb e "" then Go tt else Stop (Failed e)
  | None => Go tt
  end.

(** [if (res.code !== 0) fail(prefix + client.getErrorMessage(res.code,
    res.msg))], then [finish] with the response; a rejected request
    fails with the message of its error. *)
Definition answered {T : Type} (prefix : string)
    (finish : PhemexResponse T -> exit) (f : fetched (PhemexResponse T))
  : exit :=
  match f with
  | Rejects message => Failed message
  | Resolves res =>
      if nonzero (code res) then
        Failed (prefix +:+ getErrorMessage (code res) (Some (msg res)))
      else finish res
  end.

(** [if (res.error) fail(`${res.error.message} (code:
    ${res.error.code})`); succeed(res.result);] *)
Definition answeredMd (f : fetched PhemexMdResponse) : exit :=
  match f with
  | Rejects message => Failed message
  | Resolves res =>
      match error res with
      | Some (c, message) =>
          Failed (message +:+ " (code: " +:+ toString c +:+ ")")
      | None => Succeeded (result res)
      end
  end.

(** [(isInverse(ct) || isSpot(ct)) ? pc.convertResponse(symbol, data)
    : data] *)
Definition converted (pc : ProductInfoCache.t) (ct : ContractType)
    (symbol : string) (data : json) : json :=
  if isInverse ct || isSpot ct then convertResponse pc symbol data else data.

(** [if (v !== undefined) qp[name] = f(v)], where [f] may throw. *)
Definition set_scaled (name : string) (v : option string)
    (f : string -> completion number) (qp : list (string * json))
  : step (list (string * json)) :=
  match v with
  | Some d => let* x := rethrow (f d) in Go (set_key name (VNumber x) qp)
  | None => Go qp
  end.

(** [if (v !== undefined) qp[name] = v] *)
Definition set_string (name : string) (v : option string)
    (qp : list (string * json)) : list (string * json) :=
  match v with
  | Some s => set_key name (VString s) qp
  | None => qp
  end.

(** [if (v) qp[name] = v], for a string that may be [undefined]. *)
Definition set_nonempty (name : string) (v : option string)
    (qp : list (string * json)) : list (string * json) :=
  match v with
  | Some s => if String.eqb s "" then qp else set_key name (VString s) qp
  | None => qp
  end.

(** [if (flag) qp[name] = true] *)
Definition set_flag (name : string) (flag : bool)
    (qp : list (string * json)) : list (string * json) :=
  if flag then set_key name (VBoolean true) qp else qp.

(** [s.replace(/-/g, "")] *)
Fixpoint remove_dashes (s : string) : string :=
  match s with
  | EmptyString => EmptyString
  | String c r =>
      if Ascii.eqb c "-" then remove_dashes r else String c (remove_dashes r)
  end.

(** ["betta2moon" + crypto.randomUUID().replace(/-/g, "").slice(0, 30)],
    given the UUID drawn. *)
Definition clientOrderID (uuid : string) : string :=
  "betta2moon"
    +:+ String.substring 0 30 (remove_dashes uuid).

(** *** Market data handlers *)

Definition handleGetTicker (params : list (string * json)) : process :=
  run (let* symbol := requireString params "symbol" in
       let* ct := getContractType params in
       let resolved := resolveSymbol ct symbol in
       let endpoint := getEndpoint ct ticker in
       Go (callMd endpoint [("symbol", VString resolved)] answeredMd)).

Definition handleGetOrderbook (params : list (string * json)) : process :=
  run (let* symbol := requireString params "symbol" in
       let* ct := getContractType params in
       let resolved := resolveSymbol ct symbol in
       let endpoint := getEndpoint ct orderbook in
       Go (callMd endpoint
             [("symbol", VString resolved); ("id", VNumber (of_Z 0))]
             answeredMd)).

(** A number that may be [undefined], as a value and in arithmetic. *)
Definition optional (v : option number) : json :=
  match v with
  | Some x => VNumber x
  | None => VUndefined
  end.

Definition ToNumber (v : option number) : number :=
  match v with
  | Some x => x
  | None => NaN
  end.

(** [now] is what [Date.now()] returns. *)
Definition handleGetKlines (params : list (string * json)) (now : number)
  : process :=
  run (let* symbol := requireString params "symbol" in
       let* resolution := requireNumber params "resolution" in
       let* limit := optNumber params "limit" (Some (of_Z 100)) in
       let* ct := getContractType params in
       let resolved := resolveSymbol ct symbol in
       let to := floor (div now (of_Z 1000)) in
       let from := sub to (mul resolution (ToNumber limit)) in
       let endpoint := getEndpoint ct klines in
       Go (call GET_public endpoint
             [("symbol", VString resolved);
              ("resolution", VNumber resolution);
              ("limit", optional limit);
              ("from", VNumber from);
              ("to", VNumber to)]
             (answered "" (fun res => Succeeded (data res))))).

Definition handleGetRecentTrades (params : list (string * json)) : process :=
  run (let* symbol := requireString params "symbol" in
       let* ct := getContractType params in
       let resolved := resolveSymbol ct symbol in
       let endpoint := getEndpoint ct recentTrades in
       Go (callMd endpoint [("symbol", VString resolved)] answeredMd)).

Definition handleGetFundingRate (params : list (string * json)) : process :=
  run (let* symbol := requireString params "symbol" in
       let* limit := optNumber params "limit" (Some (of_Z 20)) in
       let* ct := getContractType params in
       if isSpot ct then Stop (Failed "Spot does not have funding rates.")
       else
         let endpoint := getEndpoint ct fundingRate in
         Go (call GET_public endpoint
               [("symbol", VString symbol);
                ("limit", optional limit)]
               (answered "" (fun res => Succeeded (data res))))).

(** *** Account handlers *)

Definition handleGetAccount (params : list (string * json)) : process :=
  run (let currency :=
         or_default (field params "currency") (VString "USDT") in
       let* ct := getContractType params in
       if isSpot ct then
         Stop (Failed
                 "Spot does not have a futures-style account. Use get_spot_wallet.")
       else
         let endpoint := getEndpoint ct account in
         Go (call GET endpoint [("currency", currency)]
               (answered "" (fun res => Succeeded (data res))))).

Definition handleGetPositions (params : list (string * json)) : process :=
  run (let currency :=
         or_default (field params "currency") (VString "USDT") in
       let* ct := getContractType params in
       if isSpot ct then Stop (Failed "Spot does not have positions.")
       else
         let endpoint := getEndpoint ct positions in
         Go (call GET endpoint [("currency", currency)]
               (answered "" (fun res => Succeeded (data res))))).

Definition handleGetOpenOrders (params : list (string * json))
    (pc : ProductInfoCache.t) : process :=
  run (let* symbol := requireString params "symbol" in
       let* ct := getContractType params in
       let* checked := checkSymbol ct symbol in
       let resolved := resolveSymbol ct symbol in
       let endpoint := getEndpoint ct openOrders in
       Go (call GET endpoint [("symbol", VString resolved)]
             (fun f =>
                match f with
                | Rejects message => Failed message
                | Resolves res =>
                    if nonzero (code res) then
                      if String.eqb (msg res) "OM_ORDER_NOT_FOUND" then
                        Succeeded
                          (VObject
                             [("message",
                               VString ("No open orders for " +:+ symbol +:+ "."));
                              ("orders", VArray [])])
                      else Failed (getErrorMessage (code res) (Some (msg res)))
                    else Succeeded (converted pc ct resolved (data res))
                end))).

Definition handleGetOrderHistory (params : list (string * json))
    (pc : ProductInfoCache.t) : process :=
  run (let* symbol := requireString params "symbol" in
       let* limit := optNumber params "limit" (Some (of_Z 50)) in
       let* ct := getContractType params in
       let* checked := checkSymbol ct symbol in
       let resolved := resolveSymbol ct symbol in
       let endpoint := getEndpoint ct orderHistory in
       Go (call GET endpoint
             [("symbol", VString resolved);
              ("limit", optional limit)]
             (answered ""
                (fun res => Succeeded (converted pc ct resolved (data res)))))).

Definition handleGetTrades (params : list (string * json))
    (pc : ProductInfoCache.t) : process :=
  run (let* symbol := requireString params "symbol" in
       let* limit := optNumber params "limit" (Some (of_Z 50)) in
       let* ct := getContractType params in
       let* checked := checkSymbol ct symbol in
       let resolved := resolveSymbol ct symbol in
       let endpoint := getEndpoint ct tradeHistory in
       Go (call GET endpoint
             [("symbol", VString resolved);
              ("limit", optional limit)]
             (answered ""
                (fun res => Succeeded (converted pc ct resolved (data res)))))).

(** *** Trading handlers *)

(** The query parameters of an order, by contract type. *)
Definition orderParams (pc : ProductInfoCache.t) (ct : ContractType)
    (resolved clOrdID side orderQty ordType : string)
    (timeInForce posSide qtyType : json)
    (price stopPx triggerType takeProfit stopLoss : option string)
    (reduceOnly : bool) : step (list (string * json)) :=
  if isInverse ct then
    if negb (isLoaded pc) then
      Stop (Failed "Product info not loaded. Coin-M requires product metadata.")
    else
      let qp := [("symbol", VString resolved); ("clOrdID", VString clOrdID);
                 ("side", VString side);
                 ("orderQty", VNumber (parseInt orderQty));
                 ("ordType", VString ordType); ("timeInForce", timeInForce)] in
      let* qp := set_scaled "priceEp" price (scalePrice pc resolved) qp in
      let* qp := set_scaled "stopPxEp" stopPx (scalePrice pc resolved) qp in
      let* qp := set_scaled "takeProfitEp" takeProfit (scalePrice pc resolved) qp in
      let* qp := set_scaled "stopLossEp" stopLoss (scalePrice pc resolved) qp in
      let qp := match posSide with
                | VUndefined => qp
                | _ => set_key "posSide" posSide qp
                end in
      let qp := set_string "triggerType" triggerType qp in
      Go (set_flag "reduceOnly" reduceOnly qp)
  else if isSpot ct then
    if negb (isLoaded pc) then
      Stop (Failed "Product info not loaded. Spot requires product metadata.")
    else
      let qp := [("symbol", VString resolved); ("clOrdID", VString clOrdID);
                 ("side", VString side); ("ordType", VString ordType);
                 ("timeInForce", timeInForce); ("qtyType", qtyType)] in
      let* qty := rethrow (scaleValue pc resolved orderQty) in
      let qp := match qtyType with
                | VString "ByQuote" => set_key "quoteQtyEv" (VNumber qty) qp
                | _ => set_key "baseQtyEv" (VNumber qty) qp
                end in
      let* qp := set_scaled "priceEp" price (scalePrice pc resolved) qp in
      let* qp := set_scaled "stopPxEp" stopPx (scalePrice pc resolved) qp in
      Go (set_string "triggerType" triggerType qp)
  else
    let qp := [("symbol", VString resolved); ("clOrdID", VString clOrdID);
               ("side", VString side); ("orderQtyRq", VString orderQty);
               ("ordType", VString ordType); ("timeInForce", timeInForce);
               ("posSide", posSide)] in
    let qp := set_string "priceRp" price qp in
    let qp := set_string "stopPxRp" stopPx qp in
    let qp := set_string "takeProfitRp" takeProfit qp in
    let qp := set_string "stopLossRp" stopLoss qp in
    let qp := set_string "triggerType" triggerType qp in
    Go (set_flag "reduceOnly" reduceOnly qp).

(** [uuid] is what [crypto.randomUUID()] returns. *)
Definition handlePlaceOrder (params : list (string * json))
    (pc : ProductInfoCache.t) (uuid : string) : process :=
  run (let* symbol := requireString params "symbol" in
       let* side := requireString params "side" in
       let* orderQty := requireString params "orderQty" in
       let* ordType := requireString params "ordType" in
       let* ct := getContractType params in
       let price := optString params "price" in
       let timeInForce :=
         or_default (field params "timeInForce") (VString "GoodTillCancel") in
       let posSide := or_default (field params "posSide") (VString "Merged") in
       let stopPx := optString params "stopPx" in
       let triggerType := optString params "triggerType" in
       let reduceOnly := optBool params "reduceOnly" false in
       let takeProfit := optString params "takeProfit" in
       let stopLoss := optString params "stopLoss" in
       let qtyType := or_default (field params "qtyType") (VString "ByBase") in
       let* checked := checkSymbol ct symbol in
       let resolved := resolveSymbol ct symbol in
       let clOrdID := clientOrderID uuid in
       let endpoint := getEndpoint ct placeOrder in
       let* queryParams := orderParams pc ct resolved clOrdID side orderQty ordType
                        timeInForce posSide qtyType
                        price stopPx triggerType takeProfit stopLoss
                        reduceOnly in
       Go (call PUT endpoint queryParams
             (answered "Order FAILED: "
                (fun res => Succeeded (converted pc ct resolved (data res)))))).

(** [!v] for a string that may be [undefined]. *)
Definition missing (v : option string) : bool :=
  match v with
  | Some s => String.eqb s ""
  | None => true
  end.

(** The price and quantity of an amendment, added to [qp]. *)
Definition amendParams (pc : ProductInfoCache.t) (ct : ContractType)
    (resolved : string) (price orderQty : option string)
    (qp : list (string * json)) : step (list (string * json)) :=
  if isInverse ct || isSpot ct then
    if negb (isLoaded pc) then Stop (Failed "Product info not loaded.")
    else
      let* qp := set_scaled "priceEp" price (scalePrice pc resolved) qp in
      match orderQty with
      | Some q =>
          if isSpot ct then
            let* x := rethrow (scaleValue pc resolved q) in
            Go (set_key "baseQtyEv" (VNumber x) qp)
          else Go (set_key "orderQty" (VNumber (parseInt q)) qp)
      | None => Go qp
      end
  else
    let qp := set_string "priceRp" price qp in
    Go (set_string "orderQtyRq" orderQty qp).

Definition handleAmendOrder (params : list (string * json))
    (pc : ProductInfoCache.t) : process :=
  run (let* symbol := requireString params "symbol" in
       let* ct := getContractType params in
       let orderID := optString params "orderID" in
       let origClOrdID := optString params "origClOrdID" in
       let price := optString params "price" in
       let orderQty := optString params "orderQty" in
       let posSide := or_default (field params "posSide") (VString "Merged") in
       if missing orderID && missing origClOrdID then
         Stop (Failed "Provide either --orderID or --origClOrdID")
       else
         let* checked := checkSymbol ct symbol in
         let resolved := resolveSymbol ct symbol in
         let endpoint := getEndpoint ct amendOrder in
         let qp := [("symbol", VString resolved)] in
         let qp := set_nonempty "orderID" orderID qp in
         let qp := set_nonempty "origClOrdID" origClOrdID qp in
         let qp := if negb (isInverse ct) && negb (isSpot ct)
                   then set_key "posSide" posSide qp else qp in
         let* qp := amendParams pc ct resolved price orderQty qp in
         Go (call PUT endpoint qp
               (answered ""
                  (fun res => Succeeded (converted pc ct resolved (data res)))))).

Definition handleCancelOrder (params : list (string * json))
    (pc : ProductInfoCache.t) : process :=
  run (let* symbol := requireString params "symbol" in
       let* ct := getContractType params in
       let orderID := optString params "orderID" in
       let clOrdID := optString params "clOrdID" in
       let posSide := or_default (field params "posSide") (VString "Merged") in
       if missing orderID && missing clOrdID then
         Stop (Failed "Provide either --orderID or --clOrdID")
       else
         let* checked := checkSymbol ct symbol in
         let resolved := resolveSymbol ct symbol in
         let endpoint := getEndpoint ct cancelOrder in
         let qp := [("symbol", VString resolved)] in
         let qp := set_nonempty "orderID" orderID qp in
         let qp := set_nonempty "clOrdID" clOrdID qp in
         let qp := if negb (isInverse ct) && negb (isSpot ct)
                   then set_key "posSide" posSide qp else qp in
         Go (call DELETE endpoint qp
               (answered ""
                  (fun res => Succeeded (converted pc ct resolved (data res)))))).

Definition handleCancelAllOrders (params : list (string * json))
    (pc : ProductInfoCache.t) : process :=
  run (let* symbol := requireString params "symbol" in
       let* ct := getContractType params in
       let untriggered := optBool params "untriggered" false in
       let* checked := checkSymbol ct symbol in
       let resolved := resolveSymbol ct symbol in
       let endpoint := getEndpoint ct cancelAll in
       let qp := [("symbol", VString resolved)] in
       let qp := set_flag "untriggered" untriggered qp in
       Go (call DELETE endpoint qp
             (answered ""
                (fun res => Succeeded (converted pc ct resolved (data res)))))).

(** The leverage, added to [qp]. *)
Definition leverageParams (pc : ProductInfoCache.t) (ct : ContractType)
    (symbol : string) (leverage : number) (qp : list (string * json))
  : step (list (string * json)) :=
  if isInverse ct then
    if negb (isLoaded pc) then Stop (Failed "Product info not loaded.")
    else
      let* x := rethrow (scaleRatio pc symbol (toString leverage)) in
      Go (set_key "leverageEr" (VNumber x) qp)
  else Go (set_key "leverageRr" (VNumber leverage) qp).

Definition handleSetLeverage (params : list (string * json))
    (pc : ProductInfoCache.t) : process :=
  run (let* symbol := requireString params "symbol" in
       let* leverage := requireNumber params "leverage" in
       let* ct := getContractType params in
       if isSpot ct then Stop (Failed "Spot does not support leverage.")
       else
         let* checked := checkSymbol ct symbol in
         let endpoint := getEndpoint ct setLeverage in
         let qp := [("symbol", VString symbol)] in
         let* qp := leverageParams pc ct symbol leverage qp in
         Go (call PUT endpoint qp
               (answered ""
                  (fun res =>
                     Succeeded (if isInverse ct
                                then convertResponse pc symbol (data res)
                                else data res))))).

Definition handleSwitchPosMode (params : list (string * json))
    (pc : ProductInfoCache.t) : process :=
  run (let* symbol := requireString params "symbol" in
       let* targetPosMode := requireString params "targetPosMode" in
       let* ct := getContractType params in
       if isSpot ct then Stop (Failed "Spot does not have position modes.")
       else if isInverse ct then
         Stop (Failed
                 "Position mode switching is not supported for Coin-M via API.")
       else
         let* checked := checkSymbol ct symbol in
         let endpoint := getEndpoint ct switchPosMode in
         Go (call PUT endpoint
               [("symbol", VString symbol);
                ("targetPosMode", VString targetPosMode)]
               (answered ""
                  (fun res =>
                     Succeeded (if isInverse ct
                                then convertResponse pc symbol (data res)
                                else data res))))).

(** *** Transfer handlers *)

Definition TRANSFER_STATUS : list (string * string) :=
  [ ("3", "Rejected"); ("6", "Error (waiting for recovery)");
    ("10", "Success"); ("11", "Failed") ].

(** [delete obj[name]] *)
Fixpoint delete_key (name : string) (obj : list (string * json))
  : list (string * json) :=
  match obj with
  | [] => []
  | (k, v) :: rest =>
      if String.eqb k name then rest else (k, v) :: delete_key name rest
  end.

(** [TRANSFER_STATUS[status] ?? "Processing"] *)
Definition statusText (status : number) : string :=
  match lookup_message (toString status) TRANSFER_STATUS with
  | Some text => text
  | None => "Processing"
  end.

(** What [handleTransferFunds] prints for a successful transfer: the
    response data with [amountEv] replaced by the decimal [amount] and
    with the text of a numeric [status]. *)
Definition transferred (pc : ProductInfoCache.t) (currency : string)
    (res : PhemexResponse (list (string * json))) : exit :=
  let display := data res in
  match
    match field (data res) "amountEv" with
    | VNumber x =>
        let* s := rethrow (unscaleCurrencyAmount pc currency x) in
        Go (delete_key "amountEv" (set_key "amount" (VString s) display))
    | _ => Go display
    end
  with
  | Stop e => e
  | Go display =>
      Succeeded
        (VObject
           match field (data res) "status" with
           | VNumber st => set_key "statusText" (VString (statusText st)) display
           | _ => display
           end)
  end.

Definition handleTransferFunds (params : list (string * json))
    (pc : ProductInfoCache.t) : process :=
  run (let* currency := requireString params "currency" in
       let* amount := requireString params "amount" in
       let* direction := requireString params "direction" in
       if negb (isLoaded pc) then Stop (Failed "Product info not loaded.")
       else
         match scaleCurrencyAmount pc currency amount with
         | Throw _ =>
             Stop (Failed ("Unknown currency '" +:+ currency +:+ "'."))
         | Return amountEv =>
             let moveOp :=
               if String.eqb direction "spot_to_futures" then of_Z 2
               else of_Z 1 in
             Go (post "/assets/transfer"
                   [("amountEv", VNumber amountEv);
                    ("currency", VString currency);
                    ("moveOp", VNumber moveOp)]
                   (answered "Transfer failed: " (transferred pc currency)))
         end).

End Cli.

(* ===================================================================== *)
(** ** What a handler run sends *)
(* ===================================================================== *)

Module Runs.
Import JSString JSNumber Json JSGlobal ProductInfoCache ContractRouter Cli.

(** The request of a run, if it sends one. *)
Definition request_of (p : process) : option request :=
  match p with
  | Ends _ => None
  | Sends r _ | SendsRecord r _ | SendsMd r _ => Some r
  end.

(** A step that does not end the process, or ends it in failure. *)
Definition unless_failed {A : Type} (P : A -> Prop) (s : step A) : Prop :=
  match s with
  | Go a => P a
  | Stop (Failed _) => True
  | Stop (Succeeded _) => False
  end.

(** The runs of the handlers that ask the router for their path, on
    the same parameters: all but those of the spot wallet and of the
    transfers, whose paths are fixed. *)
Definition routed_handlers (params : list (string * json))
    (pc : ProductInfoCache.t) (uuid : string) (now : number) : list process :=
  [ handleGetTicker params; handleGetOrderbook params;
    handleGetKlines params now;
    handleGetRecentTrades params; handleGetFundingRate params;
    handleGetAccount params; handleGetPositions params;
    handleGetOpenOrders params pc; handleGetOrderHistory params pc;
    handleGetTrades params pc; handlePlaceOrder params pc uuid;
    handleAmendOrder params pc; handleCancelOrder params pc;
    handleCancelAllOrders params pc; handleSetLeverage params pc;
    handleSwitchPosMode params pc ].

(** The runs of the handlers that validate the symbol. *)
Definition validating_handlers (params : list (string * json))
    (pc : ProductInfoCache.t) (uuid : string) : list process :=
  [ handleGetOpenOrders params pc; handleGetOrderHistory params pc;
    handleGetTrades params pc; handlePlaceOrder params pc uuid;
    handleAmendOrder params pc; handleCancelOrder params pc;
    handleCancelAllOrders params pc; handleSetLeverage params pc;
    handleSwitchPosMode params pc ].

(** The runs of the handlers that scale a price, a quantity or a
    ratio of a product before they send it. *)
Definition scaling_handlers (params : list (string * json))
    (pc : ProductInfoCache.t) (uuid : string) : list process :=
  [ handlePlaceOrder params pc uuid; handleAmendOrder params pc;
    handleSetLeverage params pc ].

(** The runs of the handlers that convert the answer for inverse and
    spot contracts. *)
Definition converting_handlers (params : list (string * json))
    (pc : ProductInfoCache.t) (uuid : string) : list process :=
  [ handleGetOpenOrders params pc; handleGetOrderHistory params pc;
    handleGetTrades params pc; handlePlaceOrder params pc uuid;
    handleAmendOrder params pc; handleCancelOrder params pc;
    handleCancelAllOrders params pc; handleSetLeverage params pc ].

(** What a run prints for an answer, for the kinds of request that are
    answered by a [PhemexResponse] of any JSON value. *)
Definition answer_of (p : process) (f : fetched (PhemexResponse json))
  : option exit :=
  match p with
  | Sends _ k => Some (k f)
  | _ => None
  end.

End Runs.


(* ===================================================================== *)
(** * Properties *)
(* ===================================================================== *)

Import JSString JSNumber Json ProductInfoCache.

(** ** Strings *)

Lemma endsWith_refl (s : string) : endsWith s s = true.
Proof. destruct s; cbn [endsWith]; rewrite String.eqb_refl; reflexivity. Qed.

Lemma endsWith_app (a suf : string) : endsWith (a +:+ suf) suf = true.
Proof.
  induction a as [|c a IH].
  - apply endsWith_refl.
  - change (String c a +:+ suf) with (String c (a +:+ suf)).
    cbn [endsWith]. rewrite IH. destruct (String.eqb _ _); reflexivity.
Qed.

Lemma includes_app_r (a b sub : string) :
  includes b sub = true -> includes (a +:+ b) sub = true.
Proof.
  intros Hb. induction a as [|c a IH].
  - exact Hb.
  - change (String c a +:+ b) with (String c (a +:+ b)).
    cbn [includes]. rewrite IH. destruct (String.prefix _ _); reflexivity.
Qed.

Lemma string_length_app (a b : string) :
  String.length (a +:+ b) = (String.length a + String.length b)%nat.
Proof. induction a as [|c a IH]; simpl; [reflexivity | rewrite IH; reflexivity]. Qed.

(** A string that ends with [suf] is its [slice] followed by [suf]. *)
Lemma endsWith_split (s suf : string) :
  endsWith s suf = true ->
  s = String.substring 0 (String.length s - String.length suf) s +:+ suf.
Proof.
  induction s as [|c s IH]; cbn [endsWith]; intros H.
  - destruct suf; [reflexivity | discriminate].
  - destruct (String.eqb (String c s) suf) eqn:E.
    + apply String.eqb_eq in E. subst suf.
      rewrite Nat.sub_diag. reflexivity.
    + specialize (IH H).
      assert (Hlen : (String.length suf <= String.length s)%nat).
      { rewrite IH. rewrite string_length_app. lia. }
      cbn [String.length].
      replace (S (String.length s) - String.length suf)%nat
        with (S (String.length s - String.length suf)) by lia.
      cbn [String.substring].
      change (String c ?x +:+ suf) with (String c (x +:+ suf)).
      f_equal. exact IH.
Qed.

Lemma endsWith_slice (key : string) (c1 c2 : ascii) :
  endsWith key (String c1 (String c2 "")) = true ->
  key = slice_0_m2 key +:+ String c1 (String c2 "").
Proof. intros H. apply (endsWith_split _ _ H). Qed.

(** ** Numbers *)

(** Multiplication and division agree with the Standard Library's
    binary64 on every pair of the samples, which are in canonical form. *)
Lemma mul_div_agree_with_SpecFloat :
  agree_on_samples mul spec_mul = true
  /\ agree_on_samples div spec_div = true
  /\ forallb canonical samples = true.
Proof. vm_compute. repeat split. Qed.

(** ** What src/__tests__/product-info.test.ts expects *)

Lemma product_info_test_init :
  (exists btc,
     get Fixture.mock_cache "BTCUSD" = Some btc
     /\ symbol btc = "BTCUSD" /\ contractType btc = inverse
     /\ priceScale btc = of_Z 10000 /\ ratioScale btc = of_Z 100000000
     /\ valueScale btc = of_Z 100000000)
  /\ get Fixture.mock_cache "SOLUSD" = None
  /\ get Fixture.mock_cache "cSOLUSD" <> None
  /\ (exists btcusdt,
        get Fixture.mock_cache "BTCUSDT" = Some btcusdt
        /\ contractType btcusdt = linear /\ priceScale btcusdt = of_Z 1)
  /\ get Fixture.mock_cache "XYZUSD" = None
  /\ (exists sbtc,
        get Fixture.mock_cache "sBTCUSDT" = Some sbtc
        /\ symbol sbtc = "sBTCUSDT" /\ contractType sbtc = spot
        /\ priceScale sbtc = of_Z 100000000
        /\ valueScale sbtc = of_Z 100000000)
  /\ get Fixture.mock_cache "sDELISTED" = None
  /\ isLoaded (init (new "https://api.phemex.com") FetchRejects) = false
  /\ get (init (new "https://api.phemex.com") FetchRejects) "BTCUSD" = None.
Proof.
  split; [eexists; split; [vm_compute; reflexivity | repeat split]|].
  split; [vm_compute; reflexivity|].
  split; [vm_compute; discriminate|].
  split; [eexists; split; [vm_compute; reflexivity | repeat split]|].
  split; [vm_compute; reflexivity|].
  split; [eexists; split; [vm_compute; reflexivity | repeat split]|].
  repeat split.
Qed.

Lemma product_info_test_scaling :
  scalePrice Fixture.mock_cache "BTCUSD" "50000.5" = Return (of_Z 500005000)
  /\ scalePrice Fixture.mock_cache "BTCUSD" "100" = Return (of_Z 1000000)
  /\ scaleRatio Fixture.mock_cache "BTCUSD" "10" = Return (of_Z 1000000000)
  /\ scalePrice Fixture.mock_cache "sBTCUSDT" "95000.50"
       = Return (of_Z 9500050000000)
  /\ scaleCurrencyAmount Fixture.mock_cache "BTC" "1.5"
       = Return (of_Z 150000000)
  /\ scaleCurrencyAmount Fixture.mock_cache "BTC" "0.001"
       = Return (of_Z 100000)
  /\ scaleCurrencyAmount Fixture.mock_cache "USDT" "100"
       = Return (of_Z 10000000000)
  /\ unscaleCurrencyAmount Fixture.mock_cache "BTC" (of_Z 150000000)
       = Return "1.5"
  /\ unscaleCurrencyAmount Fixture.mock_cache "BTC" (of_Z 100000)
       = Return "0.001"
  /\ unscaleCurrencyAmount Fixture.mock_cache "USDT" (of_Z 10000000000)
       = Return "100"
  /\ scaleCurrencyAmount Fixture.mock_cache "UNKNOWN" "1"
       = Throw "No currency info for UNKNOWN".
Proof. vm_compute. repeat split. Qed.

Lemma product_info_test_convertResponse :
  convertResponse Fixture.mock_cache "BTCUSD"
    (VObject [("priceEp", VNumber (of_Z 500005000));
              ("avgPriceEp", VNumber (of_Z 490000000));
              ("side", VString "Buy");
              ("orderQty", VNumber (of_Z 100))])
  = VObject [("price", VString "50000.5");
             ("avgPrice", VString "49000");
             ("side", VString "Buy");
             ("orderQty", VNumber (of_Z 100))]
  /\ convertResponse Fixture.mock_cache "BTCUSD"
       (VObject
          [("orders",
            VArray
              [VObject [("priceEp", VNumber (of_Z 500000000));
                        ("symbol", VString "BTCUSD")];
               VObject [("priceEp", VNumber (of_Z 510000000));
                        ("symbol", VString "BTCUSD")]])])
     = VObject
         [("orders",
           VArray
             [VObject [("price", VString "50000");
                       ("symbol", VString "BTCUSD")];
              VObject [("price", VString "51000");
                       ("symbol", VString "BTCUSD")]])]
  /\ convertResponse Fixture.mock_cache "XYZUSD"
       (VObject [("priceEp", VNumber (of_Z 500000000))])
     = VObject [("priceEp", VNumber (of_Z 500000000))].
Proof. vm_compute. repeat split. Qed.

(** ** The router *)

(** C7. Symbol resolution is idempotent for spot, and the identity for
    linear and inverse: for every string [s],
    [resolveSymbol(spot, resolveSymbol(spot, s)) = resolveSymbol(spot, s)],
    [resolveSymbol(linear, s) = s] and [resolveSymbol(inverse, s) = s]. *)
Theorem resolveSymbol_idempotent (s : string) :
  ContractRouter.resolveSymbol spot (ContractRouter.resolveSymbol spot s)
    = ContractRouter.resolveSymbol spot s
  /\ ContractRouter.resolveSymbol linear s = s
  /\ ContractRouter.resolveSymbol inverse s = s.
Proof.
  repeat split.
  unfold ContractRouter.resolveSymbol.
  destruct (startsWith s "s") eqn:E; cbn [negb].
  - rewrite E. reflexivity.
  - replace (startsWith ("s" +:+ s) "s") with true; [reflexivity|].
    unfold startsWith. simpl. destruct s; reflexivity.
Qed.

(** C5. Suffix precedence of symbol validation: an inverse request for
    BTCUSDT is answered with an error that mentions linear, a linear
    request for BTCUSD with an error that mentions inverse, and the two
    matching requests with no error; more generally no symbol ending in
    USDT is taken for an inverse-style one: it passes as linear and is
    sent to linear when asked for as inverse. *)
Theorem validateSymbol_suffix_precedence :
  (exists err, ContractRouter.validateSymbol inverse "BTCUSDT" = Some err
               /\ includes err "linear" = true)
  /\ (exists err, ContractRouter.validateSymbol linear "BTCUSD" = Some err
                  /\ includes err "inverse" = true)
  /\ ContractRouter.validateSymbol inverse "BTCUSD" = None
  /\ ContractRouter.validateSymbol linear "BTCUSDT" = None
  /\ (forall base : string,
        ContractRouter.validateSymbol linear (base +:+ "USDT") = None
        /\ exists err,
             ContractRouter.validateSymbol inverse (base +:+ "USDT") = Some err
             /\ includes err "linear" = true).
Proof.
  split; [eexists; split; reflexivity|].
  split; [eexists; split; reflexivity|].
  split; [reflexivity|]. split; [reflexivity|].
  intros base. unfold ContractRouter.validateSymbol.
  rewrite (endsWith_app base "USDT"). split.
  - rewrite andb_false_r. reflexivity.
  - eexists. split; [reflexivity|].
    apply (includes_app_r "Symbol ").
    apply includes_app_r. reflexivity.
Qed.

(** C6. Endpoint routing: placing an order resolves to different paths
    for linear and inverse, each within its own family of paths (the
    g-prefixed ones for linear, the plain ones for inverse, [/spot/] for
    spot, and so for all five order operations); for spot, setLeverage,
    switchPosMode and account resolve to the empty string, which belongs
    to no family. *)
Theorem getEndpoint_routing :
  ContractRouter.getEndpoint linear placeOrder
    <> ContractRouter.getEndpoint inverse placeOrder
  /\ (forall ct op,
        In op [placeOrder; cancelOrder; amendOrder; cancelAll; openOrders] ->
        ContractRouter.path_family (ContractRouter.getEndpoint ct op) = Some ct)
  /\ ContractRouter.getEndpoint spot setLeverage = ""
  /\ ContractRouter.getEndpoint spot switchPosMode = ""
  /\ ContractRouter.getEndpoint spot account = ""
  /\ ContractRouter.path_family "" = None.
Proof.
  split; [discriminate|].
  split; [|repeat split].
  intros ct op Hop. simpl in Hop.
  destruct Hop as [<-|[<-|[<-|[<-|[<-|[]]]]]]; destruct ct; reflexivity.
Qed.

(** Witness of the family clause of C6 at (spot, placeOrder). *)
Lemma getEndpoint_routing_witness :
  ContractRouter.path_family (ContractRouter.getEndpoint spot placeOrder)
    = Some spot.
Proof.
  apply (proj1 (proj2 getEndpoint_routing)). simpl. auto.
Defined.

(** ** Lookups that fail *)

(** C4. Scaling for a symbol or currency that is not in the table fails
    with the "No product info" / "No currency info" error, whatever the
    decimal string; no value is returned, so none scaled by a default
    factor. *)
Theorem scaling_unknown_throws (this : ProductInfoCache.t)
    (name decimal : string) :
  (get this name = None ->
     scalePrice this name decimal = Throw ("No product info for " +:+ name)
     /\ scaleRatio this name decimal = Throw ("No product info for " +:+ name)
     /\ scaleValue this name decimal = Throw ("No product info for " +:+ name))
  /\ (currencyScales this !! name = None ->
        scaleCurrencyAmount this name decimal
          = Throw ("No currency info for " +:+ name)).
Proof.
  unfold get, scalePrice, scaleRatio, scaleValue, scaleCurrencyAmount.
  split; intros ->; repeat split.
Qed.

(** Witness of C4: the fixture's cache, asked for UNKNOWN. *)
Lemma scaling_unknown_throws_witness :
  scalePrice Fixture.mock_cache "UNKNOWN" "1" = Throw "No product info for UNKNOWN"
  /\ scaleCurrencyAmount Fixture.mock_cache "UNKNOWN" "1"
       = Throw "No currency info for UNKNOWN".
Proof.
  split.
  - apply (proj1 (scaling_unknown_throws Fixture.mock_cache "UNKNOWN" "1")).
    vm_compute. reflexivity.
  - apply (proj2 (scaling_unknown_throws Fixture.mock_cache "UNKNOWN" "1")).
    vm_compute. reflexivity.
Defined.

(** C3. For a symbol that is not in the table, [convertResponse] returns
    its argument as it is, at every depth: no field is converted and
    nothing is thrown. *)
Theorem convertResponse_unknown_symbol (this : ProductInfoCache.t)
    (symbol : string) (data : json) :
  get this symbol = None -> convertResponse this symbol data = data.
Proof.
  unfold get. intros Hnone. revert data.
  fix IH 1. intros [| | b | x | s | items | obj]; simpl; try reflexivity.
  - f_equal. induction items as [|item items IHitems]; simpl.
    + reflexivity.
    + f_equal; [apply IH | exact IHitems].
  - rewrite Hnone. reflexivity.
Qed.

(** Witness of C3: [{priceEp: 123}] under a symbol the fixture lacks. *)
Lemma convertResponse_unknown_symbol_witness :
  convertResponse Fixture.mock_cache "XYZUSD"
    (VObject [("priceEp", VNumber (of_Z 123))])
  = VObject [("priceEp", VNumber (of_Z 123))].
Proof.
  apply (convertResponse_unknown_symbol Fixture.mock_cache "XYZUSD").
  vm_compute. reflexivity.
Defined.

(** ** Population of the cache *)

(** A cache that is not loaded after [init] is the cache before [init]:
    there is no state between untouched and loaded. *)
Lemma init_not_loaded_untouched (this : ProductInfoCache.t) (res : Fetched) :
  isLoaded (init this res) = false -> init this res = this.
Proof.
  destruct res as [| |code data]; simpl; try reflexivity.
  destruct (negb (code =? 0)); simpl; [reflexivity | discriminate].
Qed.



(** Powers of ten up to [10^308] are finite Numbers, hence integers. *)
Lemma pow10_positive_integer (k : Z) :
  0 <= k <= 308 -> is_positive_integer (pow10 k) = true.
Proof.
  intros Hk.
  assert (Hall : forallb (fun i => is_positive_integer (pow10 (Z.of_nat i)))
                   (seq 0 309) = true) by (vm_compute; reflexivity).
  rewrite forallb_forall in Hall.
  specialize (Hall (Z.to_nat k)). rewrite Z2Nat.id in Hall by lia.
  apply Hall. apply in_seq. lia.
Qed.

Lemma one_positive_integer : is_positive_integer (of_Z 1) = true.
Proof. vm_compute. reflexivity. Qed.

Lemma pow10_or_1_positive_integer (e : option Z) :
  (forall k, e = Some k -> 0 <= k <= 308) ->
  is_positive_integer (pow10_or_1 e) = true.
Proof.
  intros He. destruct e as [k|]; simpl.
  - destruct (k =? 0); [apply one_positive_integer|].
    apply pow10_positive_integer, He. reflexivity.
  - apply one_positive_integer.
Qed.


Lemma add_currency_good (cs : list RawCurrency) (scales : gmap string number) :
  Forall (fun c => 0 <= rc_valueScale c <= 308) cs ->
  map_Forall good_scale scales ->
  map_Forall good_scale (fold_left add_currency cs scales).
Proof.
  intros Hcs. revert scales.
  induction Hcs as [|c cs Hc _ IH]; simpl; intros scales Hs.
  - exact Hs.
  - apply IH. unfold add_currency. apply map_Forall_insert_2; [|exact Hs].
    apply pow10_positive_integer, Hc.
Qed.

Lemma settle_scale_good (scales : gmap string number) (c : string) :
  map_Forall good_scale scales ->
  is_positive_integer (settle_scale scales c) = true.
Proof.
  intros Hs. unfold settle_scale. destruct (scales !! c) as [x|] eqn:E.
  - exact (Hs c x E).
  - apply pow10_positive_integer. lia.
Qed.

Lemma add_product_good (scales : gmap string number) (ps : list RawProduct)
    (m : gmap string ProductInfo) :
  map_Forall good_scale scales ->
  Forall (fun p => 0 <= rp_priceScale p <= 308 /\ 0 <= rp_ratioScale p <= 308) ps ->
  map_Forall good_info m ->
  map_Forall good_info (fold_left (add_product scales) ps m).
Proof.
  intros Hs Hps. revert m.
  induction Hps as [|p ps [Hp Hr] _ IH]; simpl; intros m Hm.
  - exact Hm.
  - apply IH. unfold add_product.
    destruct (negb _); [exact Hm|].
    destruct (String.eqb (rp_type p) "Perpetual");
      [|destruct (String.eqb (rp_type p) "Spot"); [|exact Hm]];
      (apply map_Forall_insert_2; [|exact Hm]);
      (split; [|split]; simpl;
       [apply pow10_positive_integer, Hp
       |apply pow10_positive_integer, Hr
       |apply settle_scale_good, Hs]).
Qed.

Lemma add_productV2_good (ps : list RawProductV2) (m : gmap string ProductInfo) :
  Forall (fun p =>
            (forall k, rv_priceScale p = Some k -> 0 <= k <= 308)
            /\ (forall k, rv_ratioScale p = Some k -> 0 <= k <= 308)) ps ->
  map_Forall good_info m ->
  map_Forall good_info (fold_left add_productV2 ps m).
Proof.
  intros Hps. revert m.
  induction Hps as [|p ps [Hp Hr] _ IH]; simpl; intros m Hm.
  - exact Hm.
  - apply IH. unfold add_productV2.
    destruct (String.eqb _ _); [|exact Hm].
    apply map_Forall_insert_2; [|exact Hm].
    split; [|split]; simpl.
    + apply pow10_or_1_positive_integer, Hp.
    + apply pow10_or_1_positive_integer, Hr.
    + apply one_positive_integer.
Qed.


(** C9, as amended. After a successful [init] on a payload whose scale
    exponents are integers between 0 and 308, the price, ratio and value
    scale factors of every stored entry are positive integers, at least 1:
    this covers the fallback [10^8] for a settlement currency that is not
    listed and the factor 1 of a linear product without an exponent; the
    stored currency scales are positive integers as well. *)
Theorem scale_factors_positive_integers (url : string) (data : Payload) :
  exponents_within 0 308 data ->
  (forall s info,
     get (init (new url) (Body 0 data)) s = Some info ->
     factors_positive_integers info)
  /\ (forall c x,
        currencyScales (init (new url) (Body 0 data)) !! c = Some x ->
        is_positive_integer x = true).
Proof.
  intros (Hc & Hp & Hv). unfold get. simpl.
  assert (Hs : map_Forall (fun (_ : string) (x : number) =>
                             is_positive_integer x = true)
                 (fold_left add_currency (or_empty (currencies data)) ∅)).
  { apply add_currency_good; [exact Hc | apply map_Forall_empty]. }
  split.
  - intros s info Hget.
    refine (add_productV2_good _ _ Hv _ s info Hget).
    apply add_product_good; [exact Hs | exact Hp | apply map_Forall_empty].
  - intros c x Hget. exact (Hs c x Hget).
Qed.

(** Witness of C9: the fixture's BTCUSD entry. *)
Lemma scale_factors_positive_integers_witness :
  factors_positive_integers
    {| symbol := "BTCUSD"; contractType := inverse;
       priceScale := pow10 4; ratioScale := pow10 8;
       valueScale := pow10 8; contractSize := of_Z 1 |}.
Proof.
  refine (proj1 (scale_factors_positive_integers "https://api.phemex.com"
                   Fixture.mock_data _) "BTCUSD" _ _).
  - unfold exponents_within. simpl.
    split; [|split];
      repeat (first [apply List.Forall_nil | apply List.Forall_cons]);
      try split; try (intros k [= <-]); simpl; lia.
  - vm_compute. reflexivity.
Defined.

(** C9, as stated, fails: a listed perpetual whose price exponent is 309
    is stored with the factor [Math.pow(10, 309)], which is [Infinity]
    and no integer. *)
Lemma scale_factor_infinite_for_exponent_309 :
  exists data s info,
    exponents_nonnegative data
    /\ get (init (new "") (Body 0 data)) s = Some info
    /\ priceScale info = Infinity false
    /\ ~ factors_positive_integers info.
Proof.
  exists {| currencies := None;
            products := Some
              [ {| rp_symbol := "BTCUSD"; rp_type := "Perpetual";
                   rp_status := "Listed"; rp_settleCurrency := "BTC";
                   rp_priceScale := 309; rp_ratioScale := 8;
                   rp_contractSize := None |} ];
            perpProductsV2 := None |}.
  exists "BTCUSD". eexists.
  split; [|split; [vm_compute; reflexivity|split]].
  - unfold exponents_nonnegative. simpl.
    split; [|split];
      repeat (first [apply List.Forall_nil | apply List.Forall_cons]);
      try split; simpl; lia.
  - vm_compute. reflexivity.
  - intros [H _]. vm_compute in H. discriminate.
Qed.

(** ** Response conversion *)

Lemma convertResponse_object (this : ProductInfoCache.t) (symbol : string)
    (info : ProductInfo) (obj : list (string * json)) :
  get this symbol = Some info ->
  convertResponse this symbol (VObject obj)
  = VObject (convert_entries info (convertResponse this symbol) obj obj []).
Proof. unfold get. intros H. simpl. rewrite H. reflexivity. Qed.

(** C2. Under a symbol whose price scale factor is 10000, the response
    [{priceEp: 500005000, price: null}] converts to exactly
    [{price: "50000.5"}], whichever of the two keys is enumerated first:
    the null sibling is dropped and does not overwrite the converted
    value. *)
Theorem convertResponse_drops_null_sibling (this : ProductInfoCache.t)
    (symbol : string) (info : ProductInfo) :
  get this symbol = Some info ->
  priceScale info = of_Z 10000 ->
  convertResponse this symbol
    (VObject [("priceEp", VNumber (of_Z 500005000)); ("price", VNull)])
  = VObject [("price", VString "50000.5")]
  /\ convertResponse this symbol
       (VObject [("price", VNull); ("priceEp", VNumber (of_Z 500005000))])
     = VObject [("price", VString "50000.5")].
Proof.
  intros Hget Hscale.
  rewrite !(convertResponse_object _ _ _ _ Hget).
  cbn [convert_entries]. unfold convert_entry.
  cbn [is_number unscaled]. rewrite Hscale.
  split; vm_compute; reflexivity.
Qed.

(** Witness of C2: BTCUSD in the fixture has price scale [10^4]. *)
Lemma convertResponse_drops_null_sibling_witness :
  convertResponse Fixture.mock_cache "BTCUSD"
    (VObject [("priceEp", VNumber (of_Z 500005000)); ("price", VNull)])
  = VObject [("price", VString "50000.5")].
Proof.
  refine (proj1 (convertResponse_drops_null_sibling Fixture.mock_cache "BTCUSD"
                   _ _ _)).
  - vm_compute. reflexivity.
  - vm_compute. reflexivity.
Defined.

Lemma get_key_put_key (k k' : string) (v : json) (obj : list (string * json)) :
  get_key k (put_key k' v obj)
  = if String.eqb k' k then Some v else get_key k obj.
Proof.
  induction obj as [|[k0 v0] obj IH]; simpl.
  - reflexivity.
  - destruct (String.eqb_spec k0 k') as [->|Hne]; simpl.
    + destruct (String.eqb k' k); reflexivity.
    + rewrite IH. destruct (String.eqb_spec k0 k) as [->|Hne']; [|reflexivity].
      destruct (String.eqb_spec k' k) as [->|_]; [contradiction | reflexivity].
Qed.

(** Reading [k] after [result[k'] = v]. *)
Lemma get_key_set_key (k k' : string) (v : json) (obj : list (string * json)) :
  get_key k (set_key k' v obj) = get_key k obj
  \/ (k' = k /\ get_key k (set_key k' v obj) = Some v).
Proof.
  unfold set_key. destruct (String.eqb k' "__proto__"); [left; reflexivity|].
  rewrite get_key_put_key. destruct (String.eqb k' k) eqn:E.
  - right. apply String.eqb_eq in E. auto.
  - left. reflexivity.
Qed.

Lemma has_key_replace (x k : string) (v v' : json) (l1 l2 : list (string * json)) :
  has_key x (l1 ++ (k, v) :: l2) = has_key x (l1 ++ (k, v') :: l2).
Proof.
  induction l1 as [|[k0 v0] l1 IH]; simpl.
  - reflexivity.
  - rewrite IH. reflexivity.
Qed.

Lemma convert_entries_app (info : ProductInfo) (convert : json -> json)
    (obj l1 l2 result : list (string * json)) :
  convert_entries info convert obj (l1 ++ l2) result
  = convert_entries info convert obj l2
      (convert_entries info convert obj l1 result).
Proof.
  revert result. induction l1 as [|[key value] l1 IH]; simpl; intros result.
  - reflexivity.
  - apply IH.
Qed.

(** The loop looks at [obj] only to ask which keys have a scaled sibling. *)
Lemma convert_entries_same_siblings (info : ProductInfo) (convert : json -> json)
    (obj obj' entries result : list (string * json)) :
  (forall key, has_scaled_sibling key obj = has_scaled_sibling key obj') ->
  convert_entries info convert obj entries result
  = convert_entries info convert obj' entries result.
Proof.
  intros Hsame. revert result.
  induction entries as [|[key value] entries IH]; simpl; intros result.
  - reflexivity.
  - unfold convert_entry. rewrite (Hsame key). apply IH.
Qed.

(** A plain field with a scaled sibling leaves the result as it is. *)
Lemma convert_entry_skips (info : ProductInfo) (convert : json -> json)
    (obj result : list (string * json)) (key : string) (value : json) :
  is_scaled_field key value = false ->
  has_scaled_sibling key obj = true ->
  convert_entry info convert obj result key value = result.
Proof.
  unfold is_scaled_field, convert_entry. intros Hplain ->.
  destruct (is_number value); [|rewrite !andb_false_r; reflexivity].
  rewrite andb_true_r in Hplain.
  apply orb_false_elim in Hplain as [Hplain Hv].
  apply orb_false_elim in Hplain as [Hp Hr].
  rewrite Hp, Hr, Hv. reflexivity.
Qed.

Section DropRule.

Variables (info : ProductInfo) (convert : json -> json).
Variables (obj : list (string * json)) (k : string).
Hypothesis Hsibling : has_scaled_sibling k obj = true.

Lemma convert_entry_at_k (result : list (string * json)) (key : string)
    (value w : json) :
  In (key, value) obj ->
  (forall w', get_key k result = Some w' -> from_scaled_sibling info obj k w') ->
  get_key k (convert_entry info convert obj result key value) = Some w ->
  from_scaled_sibling info obj k w.
Proof.
  intros Hin Hres. unfold convert_entry.
  assert (Hconv : forall suffix scale,
             In (suffix, scale)
               [("Ep", priceScale info); ("Er", ratioScale info);
                ("Ev", valueScale info)] ->
             key = slice_0_m2 key +:+ suffix ->
             is_number value = true ->
             get_key k (set_key (slice_0_m2 key) (unscaled value scale) result)
               = Some w ->
             from_scaled_sibling info obj k w).
  { intros suffix scale Hs Hkey Hnum Hw.
    destruct (get_key_set_key k (slice_0_m2 key) (unscaled value scale) result)
      as [Hsame | [Hk Hnew]].
    - rewrite Hsame in Hw. exact (Hres w Hw).
    - rewrite Hnew in Hw. injection Hw as <-.
      destruct value as [| | | x | | |]; try discriminate.
      exists suffix, scale, x. rewrite <- Hk, <- Hkey. auto. }
  destruct (endsWith key "Ep" && is_number value) eqn:E1.
  { apply andb_prop in E1 as [E1 Hnum].
    apply (Hconv "Ep" (priceScale info)); simpl; auto.
    apply endsWith_slice, E1. }
  destruct (endsWith key "Er" && is_number value) eqn:E2.
  { apply andb_prop in E2 as [E2 Hnum].
    apply (Hconv "Er" (ratioScale info)); simpl; auto.
    apply endsWith_slice, E2. }
  destruct (endsWith key "Ev" && is_number value) eqn:E3.
  { apply andb_prop in E3 as [E3 Hnum].
    apply (Hconv "Ev" (valueScale info)); simpl; auto.
    apply endsWith_slice, E3. }
  destruct (has_scaled_sibling key obj) eqn:E4; [apply Hres|].
  assert (Hne : key <> k) by (intros ->; congruence).
  assert (Hother : forall v, get_key k (set_key key v result) = Some w ->
                             from_scaled_sibling info obj k w).
  { intros v Hw. destruct (get_key_set_key k key v result) as [Hsame | [Hk _]].
    - rewrite Hsame in Hw. exact (Hres w Hw).
    - contradiction. }
  destruct (is_object value); apply Hother.
Qed.

Lemma convert_entries_at_k (entries result : list (string * json)) (w : json) :
  (forall e, In e entries -> In e obj) ->
  (forall w', get_key k result = Some w' -> from_scaled_sibling info obj k w') ->
  get_key k (convert_entries info convert obj entries result) = Some w ->
  from_scaled_sibling info obj k w.
Proof.
  revert result.
  induction entries as [|[key value] entries IH]; simpl; intros result Hsub Hres.
  - apply Hres.
  - apply IH.
    + intros e He. apply Hsub. right. exact He.
    + intros w'. apply convert_entry_at_k; [|exact Hres].
      apply Hsub. left. reflexivity.
Qed.

End DropRule.

(** C10. The drop rule does not look at the value of the plain-named
    field.  For an object in which [k] has a sibling [k+"Ep"], [k+"Er"] or
    [k+"Ev"]: (1) whatever value a plain field [k] carries (a number, a
    string, a nested object), the converted output is the same, so that
    value is discarded; (2) anything the output holds under [k] is the
    conversion of a numeric scaled sibling of [k]; (3) when no scaled
    sibling of [k] is numeric, there is no replacement and [k] is absent
    from the output. *)
Theorem plain_sibling_dropped_whatever_its_value (this : ProductInfoCache.t)
    (symbol : string) (info : ProductInfo) (obj : list (string * json))
    (k : string) :
  get this symbol = Some info ->
  has_scaled_sibling k obj = true ->
  (forall l1 v l2 v',
     obj = l1 ++ (k, v) :: l2 ->
     is_scaled_field k v = false ->
     is_scaled_field k v' = false ->
     convertResponse this symbol (VObject (l1 ++ (k, v') :: l2))
     = convertResponse this symbol (VObject obj))
  /\ (forall w,
        property (convertResponse this symbol (VObject obj)) k = Some w ->
        from_scaled_sibling info obj k w)
  /\ ((forall suffix x,
         In suffix ["Ep"; "Er"; "Ev"] -> ~ In (k +:+ suffix, VNumber x) obj) ->
      property (convertResponse this symbol (VObject obj)) k = None).
Proof.
  intros Hget Hsibling.
  assert (Hfrom : forall w,
             property (convertResponse this symbol (VObject obj)) k = Some w ->
             from_scaled_sibling info obj k w).
  { intros w. rewrite (convertResponse_object _ _ _ _ Hget). simpl.
    apply convert_entries_at_k; [exact Hsibling | auto | discriminate]. }
  split; [|split].
  - intros l1 v l2 v' -> Hv Hv'.
    rewrite !(convertResponse_object _ _ _ _ Hget). f_equal.
    assert (Hsame : forall key,
               has_scaled_sibling key (l1 ++ (k, v') :: l2)
               = has_scaled_sibling key (l1 ++ (k, v) :: l2)).
    { intros key. unfold has_scaled_sibling.
      rewrite !(has_key_replace _ k v' v). reflexivity. }
    rewrite (convert_entries_same_siblings _ _ _ _ _ _ Hsame).
    rewrite !convert_entries_app. cbn [convert_entries].
    rewrite !convert_entry_skips by assumption. reflexivity.
  - exact Hfrom.
  - intros Hnone.
    destruct (property (convertResponse this symbol (VObject obj)) k)
      as [w|] eqn:E; [|reflexivity].
    destruct (Hfrom w eq_refl) as (suffix & scale & x & Hs & Hin & _).
    exfalso. apply (Hnone suffix x); [|exact Hin].
    simpl in Hs. simpl.
    destruct Hs as [[= <- _]|[[= <- _]|[[= <- _]|[]]]]; auto.
Qed.

(** Witness of C10: [{priceEp: "n/a", price: 7}] converts to an object
    without [price]. *)
Lemma plain_sibling_dropped_whatever_its_value_witness :
  property
    (convertResponse Fixture.mock_cache "BTCUSD"
       (VObject [("priceEp", VString "n/a"); ("price", VNumber (of_Z 7))]))
    "price" = None.
Proof.
  refine (proj2 (proj2 (plain_sibling_dropped_whatever_its_value
                          Fixture.mock_cache "BTCUSD" _ _ "price" _ _)) _).
  - vm_compute. reflexivity.
  - vm_compute. reflexivity.
  - intros suffix x Hs. simpl in Hs. simpl.
    destruct Hs as [<-|[<-|[<-|[]]]]; intros [H|[H|[]]]; discriminate H.
Defined.

(** ** Powers with integer exponents *)

Section Powers.

Variable b : Z.
Hypothesis Hb : 1 < b.

Lemma bpow_pos (e : Z) : (0 < powerRZ (IZR b) e)%R.
Proof. apply powerRZ_lt. apply IZR_lt. lia. Qed.

Lemma bpow_add (e1 e2 : Z) :
  powerRZ (IZR b) (e1 + e2) = (powerRZ (IZR b) e1 * powerRZ (IZR b) e2)%R.
Proof. apply powerRZ_add. apply not_0_IZR. lia. Qed.

Lemma bpow_opp (e : Z) :
  (powerRZ (IZR b) (- e) * powerRZ (IZR b) e = 1)%R.
Proof. rewrite <- bpow_add. replace (- e + e) with 0 by lia. reflexivity. Qed.

Lemma bpow_IZR (k : Z) : 0 <= k -> powerRZ (IZR b) k = IZR (b ^ k).
Proof.
  intros Hk. destruct k as [|p|p]; [reflexivity| |lia].
  symmetry. apply Zpower_pos_powerRZ.
Qed.

Lemma bpow_ge_1 (k : Z) : 0 <= k -> (1 <= powerRZ (IZR b) k)%R.
Proof.
  intros Hk. rewrite bpow_IZR by exact Hk. apply IZR_le.
  pose proof (Z.pow_pos_nonneg b k). lia.
Qed.

Lemma bpow_le (e1 e2 : Z) :
  e1 <= e2 -> (powerRZ (IZR b) e1 <= powerRZ (IZR b) e2)%R.
Proof.
  intros H. replace e2 with (e1 + (e2 - e1)) by lia. rewrite bpow_add.
  pose proof (bpow_pos e1).
  pose proof (bpow_ge_1 (e2 - e1) ltac:(lia)). nra.
Qed.

Lemma bpow_lt (e1 e2 : Z) :
  e1 < e2 -> (powerRZ (IZR b) e1 < powerRZ (IZR b) e2)%R.
Proof.
  intros H. replace e2 with (e1 + 1 + (e2 - e1 - 1)) by lia.
  rewrite !bpow_add.
  pose proof (bpow_pos e1).
  pose proof (bpow_ge_1 (e2 - e1 - 1) ltac:(lia)).
  assert (Hb1 : powerRZ (IZR b) 1 = IZR b) by (simpl; lra).
  assert (2 <= IZR b)%R by (apply IZR_le; lia).
  rewrite Hb1.
  set (P := powerRZ (IZR b) e1) in *.
  set (Q := powerRZ (IZR b) (e2 - e1 - 1)) in *.
  assert (2 <= IZR b * Q)%R by nra.
  replace (P * IZR b * Q)%R with (P * (IZR b * Q))%R by ring. nra.
Qed.

Lemma bpow_lt_inv (e1 e2 : Z) :
  (powerRZ (IZR b) e1 < powerRZ (IZR b) e2)%R -> e1 < e2.
Proof.
  intros H. destruct (Z_lt_le_dec e1 e2) as [|Hle]; [assumption|].
  apply bpow_le in Hle. lra.
Qed.

End Powers.

Lemma pow2_pos (e : Z) : (0 < powerRZ 2 e)%R.
Proof. apply (bpow_pos 2). lia. Qed.

Lemma pow10_pos (e : Z) : (0 < powerRZ 10 e)%R.
Proof. apply (bpow_pos 10). lia. Qed.

(** ** Fractions as reals *)

Lemma shl_pos (z e : Z) : 0 < z -> 0 < shl z e.
Proof. intros Hz. unfold shl. pose proof (Z.pow_pos_nonneg 2 (Z.max 0 e)). nia. Qed.

Lemma IZR_shl (z e : Z) :
  IZR (shl z e) = (IZR z * powerRZ 2 (Z.max 0 e))%R.
Proof. unfold shl. rewrite mult_IZR, (bpow_IZR 2) by lia. reflexivity. Qed.

Lemma ratio_pos (p q : Z) : 0 < p -> 0 < q -> (0 < ratio p q)%R.
Proof.
  intros Hp Hq. unfold ratio. apply Rdiv_lt_0_compat; apply IZR_lt; lia.
Qed.

(** [frac_shift] divides the fraction by [2^e]. *)
Lemma ratio_frac_shift (n d e : Z) :
  0 < d ->
  (ratio (shl n (- e)) (shl d e) * powerRZ 2 e = ratio n d)%R.
Proof.
  intros Hd. unfold ratio. rewrite !IZR_shl.
  assert (Hd' : (0 < IZR d)%R) by (apply IZR_lt; lia).
  pose proof (pow2_pos (Z.max 0 e)) as H1.
  pose proof (pow2_pos (Z.max 0 (- e))) as H2.
  assert (Hrel : (powerRZ 2 (Z.max 0 (- e)) * powerRZ 2 e
                  = powerRZ 2 (Z.max 0 e))%R).
  { rewrite <- (bpow_add 2) by lia. f_equal. lia. }
  field_simplify_eq; [|lra]. rewrite <- Hrel. ring.
Qed.

Lemma ratio_scale10 (p q j : Z) :
  0 < q ->
  let '(sp, sq) := scale10 p q j in
  (ratio sp sq = ratio p q * powerRZ 10 j)%R /\ 0 < sq /\ (0 < p -> 0 < sp).
Proof.
  intros Hq. unfold scale10, ratio.
  rewrite !mult_IZR, <- !(bpow_IZR 10) by lia.
  assert (Hq' : (0 < IZR q)%R) by (apply IZR_lt; lia).
  pose proof (pow10_pos (Z.max 0 j)) as H1.
  pose proof (pow10_pos (Z.max 0 (- j))) as H2.
  assert (Hrel : (powerRZ 10 (Z.max 0 (- j)) * powerRZ 10 j
                  = powerRZ 10 (Z.max 0 j))%R).
  { rewrite <- (bpow_add 10) by lia. f_equal. lia. }
  pose proof (Z.pow_pos_nonneg 10 (Z.max 0 j)).
  pose proof (Z.pow_pos_nonneg 10 (Z.max 0 (- j))).
  split; [|split; [nia | intros; nia]].
  field_simplify_eq; [|lra]. rewrite <- Hrel. ring.
Qed.

(** Two fractions with the same real value. *)
Lemma ratio_eq_cross (p q p' q' : Z) :
  0 < q -> 0 < q' -> ratio p q = ratio p' q' -> p * q' = p' * q.
Proof.
  intros Hq Hq' H. unfold ratio in H.
  assert (Hq1 : (0 < IZR q)%R) by (apply IZR_lt; lia).
  assert (Hq2 : (0 < IZR q')%R) by (apply IZR_lt; lia).
  apply eq_IZR. rewrite !mult_IZR.
  apply (Rmult_eq_reg_r (/ IZR q * / IZR q')%R).
  - field_simplify; [|lra|lra].
    unfold Rdiv in *. rewrite H. reflexivity.
  - apply Rmult_integral_contrapositive_currified;
      apply Rinv_neq_0_compat; lra.
Qed.

(** ** The binary exponent of a fraction *)

Lemma ratio_cross (p q p' q' : Z) :
  0 < q -> 0 < q' -> p * q' = p' * q -> ratio p q = ratio p' q'.
Proof.
  intros Hq Hq' H. unfold ratio.
  assert (Hq1 : (0 < IZR q)%R) by (apply IZR_lt; lia).
  assert (Hq2 : (0 < IZR q')%R) by (apply IZR_lt; lia).
  apply (f_equal IZR) in H. rewrite !mult_IZR in H.
  field_simplify_eq; [|lra]. lra.
Qed.

Lemma floor_log2_spec (n d : Z) :
  0 < n -> 0 < d ->
  (powerRZ 2 (floor_log2 n d) <= ratio n d < powerRZ 2 (floor_log2 n d + 1))%R.
Proof.
  intros Hn Hd. unfold floor_log2, frac_shift.
  set (a := Z.log2 n). set (c := Z.log2 d). set (e0 := a - c).
  pose proof (ratio_frac_shift n d e0 Hd) as Hshift.
  pose proof (shl_pos n (- e0) Hn) as Hn'.
  pose proof (shl_pos d e0 Hd) as Hd'.
  set (n' := shl n (- e0)) in *. set (d' := shl d e0) in *.
  assert (Hr : (ratio n d * IZR d = IZR n)%R).
  { unfold ratio. field. apply not_0_IZR. lia. }
  assert (Hr' : (ratio n' d' * IZR d' = IZR n')%R).
  { unfold ratio. field. apply not_0_IZR. lia. }
  assert (Hdpos : (0 < IZR d)%R) by (apply IZR_lt; lia).
  assert (Hdpos' : (0 < IZR d')%R) by (apply IZR_lt; lia).
  destruct (Z.log2_spec n Hn) as [Hn1 Hn2].
  destruct (Z.log2_spec d Hd) as [Hd1 Hd2].
  fold a in Hn1, Hn2. fold c in Hd1, Hd2.
  pose proof (Z.log2_nonneg n) as Ha. pose proof (Z.log2_nonneg d) as Hc.
  fold a in Ha. fold c in Hc.
  apply IZR_le in Hn1, Hd1. apply IZR_lt in Hn2, Hd2.
  rewrite <- (bpow_IZR 2) in Hn1, Hn2, Hd1, Hd2 by lia.
  change (IZR 2) with 2%R in *.
  pose proof (pow2_pos e0) as He0. pose proof (pow2_pos (e0 - 1)) as He1.
  pose proof (pow2_pos c) as Hpc.
  assert (Hup : (powerRZ 2 (Z.succ a) = powerRZ 2 (e0 + 1) * powerRZ 2 c)%R).
  { rewrite <- (bpow_add 2) by lia. f_equal. lia. }
  assert (Hlo : (powerRZ 2 a = powerRZ 2 (e0 - 1) * powerRZ 2 (Z.succ c))%R).
  { rewrite <- (bpow_add 2) by lia. f_equal. lia. }
  pose proof (pow2_pos (e0 + 1)) as He2.
  assert (Hlt : (ratio n d < powerRZ 2 (e0 + 1))%R).
  { apply (Rmult_lt_reg_r (IZR d)); [exact Hdpos|]. rewrite Hr.
    apply (Rlt_le_trans _ _ _ Hn2). rewrite Hup. nra. }
  assert (Hgt : (powerRZ 2 (e0 - 1) < ratio n d)%R).
  { apply (Rmult_lt_reg_r (IZR d)); [exact Hdpos|]. rewrite Hr.
    apply (Rlt_le_trans _ (powerRZ 2 (e0 - 1) * powerRZ 2 (Z.succ c))%R);
      [nra | lra]. }
  destruct (Z.leb_spec d' n') as [Hle | Hgt'].
  - split; [|exact Hlt].
    apply IZR_le in Hle.
    assert (1 <= ratio n' d')%R by nra. nra.
  - replace (e0 - 1 + 1) with e0 by lia. split; [lra|].
    apply IZR_lt in Hgt'.
    assert (ratio n' d' < 1)%R by nra. nra.
Qed.

Lemma floor_log2_unique (n d E : Z) :
  0 < n -> 0 < d ->
  (powerRZ 2 E <= ratio n d < powerRZ 2 (E + 1))%R ->
  floor_log2 n d = E.
Proof.
  intros Hn Hd [H1 H2].
  destruct (floor_log2_spec n d Hn Hd) as [H3 H4].
  assert (floor_log2 n d < E + 1) by (apply (bpow_lt_inv 2); [lia|]; simpl; lra).
  assert (E < floor_log2 n d + 1) by (apply (bpow_lt_inv 2); [lia|]; simpl; lra).
  lia.
Qed.

(** ** Rounding to the nearest integer *)

Lemma div_half_even_spec (n d : Z) :
  0 < d ->
  - d <= 2 * (div_half_even n d * d - n) <= d.
Proof.
  intros Hd. unfold div_half_even.
  pose proof (Z.div_mod n d ltac:(lia)) as Hdm.
  pose proof (Z.mod_pos_bound n d Hd) as Hm.
  destruct (Z.compare_spec (2 * (n mod d)) d); [destruct (Z.even _)| |]; nia.
Qed.

Lemma div_half_even_close (n d : Z) :
  0 < d ->
  (- (1 / 2) <= IZR (div_half_even n d) - ratio n d <= 1 / 2)%R.
Proof.
  intros Hd. destruct (div_half_even_spec n d Hd) as [H1 H2].
  apply IZR_le in H1. apply IZR_le in H2.
  rewrite opp_IZR, mult_IZR, minus_IZR, mult_IZR in H1.
  rewrite mult_IZR, minus_IZR, mult_IZR in H2.
  assert (Hd' : (0 < IZR d)%R) by (apply IZR_lt; lia).
  assert (Hr : (ratio n d * IZR d = IZR n)%R).
  { unfold ratio. field. lra. }
  rewrite <- Hr in H1, H2.
  generalize dependent (IZR (div_half_even n d)).
  generalize dependent (ratio n d). intros r _ m H1 H2.
  split; nra.
Qed.

Lemma div_half_even_ext (n1 d1 n2 d2 : Z) :
  0 < d1 -> 0 < d2 -> n1 * d2 = n2 * d1 ->
  div_half_even n1 d1 = div_half_even n2 d2.
Proof.
  intros H1 H2 Hx. unfold div_half_even.
  assert (Hq : n1 / d1 = n2 / d2).
  { pose proof (Z.div_mod n1 d1 ltac:(lia)).
    pose proof (Z.mod_pos_bound n1 d1 H1).
    apply (Z.div_unique_pos n2 d2 (n1 / d1) (n2 - d2 * (n1 / d1))); [nia | lia]. }
  pose proof (Z.div_mod n1 d1 ltac:(lia)) as E1.
  pose proof (Z.div_mod n2 d2 ltac:(lia)) as E2.
  rewrite <- Hq in *.
  destruct (Z.compare_spec (2 * (n1 mod d1)) d1);
    destruct (Z.compare_spec (2 * (n2 mod d2)) d2);
    try reflexivity; exfalso; nia.
Qed.

(** ** Rounding to the nearest binary64 value *)

(** The result depends on the value of the fraction only. *)
Lemma round_nearest_even_ext (neg : bool) (n1 d1 n2 d2 : Z) :
  0 < n1 -> 0 < d1 -> 0 < n2 -> 0 < d2 -> n1 * d2 = n2 * d1 ->
  round_nearest_even neg n1 d1 = round_nearest_even neg n2 d2.
Proof.
  intros Hn1 Hd1 Hn2 Hd2 Hx. unfold round_nearest_even.
  assert (HE : floor_log2 n1 d1 = floor_log2 n2 d2).
  { apply floor_log2_unique; [assumption..|].
    rewrite (ratio_cross n1 d1 n2 d2) by assumption.
    apply floor_log2_spec; assumption. }
  rewrite HE. unfold frac_shift.
  set (e := Z.max (floor_log2 n2 d2 - 52) (-1074)).
  rewrite (div_half_even_ext (shl n1 (- e)) (shl d1 e) (shl n2 (- e)) (shl d2 e)).
  - reflexivity.
  - apply shl_pos, Hd1.
  - apply shl_pos, Hd2.
  - unfold shl. nia.
Qed.

(** A finite, normal result of rounding lies within half a unit in the
    last place of the fraction: a relative error of at most [2^-53]. *)
Lemma round_nearest_even_close (neg : bool) (p q : Z) (s : bool)
    (m : positive) (e : Z) :
  0 < p -> 0 < q ->
  round_nearest_even neg p q = Finite s m e ->
  -1072 <= e ->
  s = neg
  /\ floor_log2 p q - 52 <= e <= floor_log2 p q - 51
  /\ 2 ^ 52 <= Z.pos m < 2 ^ 53
  /\ (- ratio p q <= (magnitude (Finite s m e) - ratio p q) * IZR (2 ^ 53)
      <= ratio p q)%R.
Proof.
  intros Hp Hq Hrn He. unfold round_nearest_even in Hrn.
  set (E := floor_log2 p q) in *.
  destruct (Z.max_spec (E - 52) (-1074)) as [[Hlt Hmax]|[Hge Hmax]];
    rewrite Hmax in Hrn; unfold frac_shift in Hrn.
  - exfalso.
    destruct (div_half_even _ _ =? 2 ^ 53);
      [|destruct (div_half_even _ _)]; simpl in Hrn;
      try discriminate; injection Hrn as _ _ <-; lia.
  - set (e0 := E - 52) in *.
    pose proof (ratio_frac_shift p q e0 Hq) as Hshift.
    pose proof (shl_pos q e0 Hq) as Hd'.
    pose proof (div_half_even_close (shl p (- e0)) (shl q e0) Hd') as Hclose.
    destruct (floor_log2_spec p q Hp Hq) as [HE1 HE2]. fold E in HE1, HE2.
    pose proof (pow2_pos e0) as Ht.
    assert (HE : (powerRZ 2 E = IZR (2 ^ 52) * powerRZ 2 e0)%R).
    { rewrite <- (bpow_IZR 2), <- (bpow_add 2) by lia. f_equal. lia. }
    assert (HE' : (powerRZ 2 (E + 1) = IZR (2 ^ 53) * powerRZ 2 e0)%R).
    { rewrite <- (bpow_IZR 2), <- (bpow_add 2) by lia. f_equal. lia. }
    assert (Hsucc : (powerRZ 2 (e0 + 1) = 2 * powerRZ 2 e0)%R).
    { rewrite (bpow_add 2) by lia. simpl. ring. }
    rewrite HE in HE1. rewrite HE' in HE2. clear HE HE'.
    set (m0 := div_half_even (shl p (- e0)) (shl q e0)) in *.
    set (rho := ratio (shl p (- e0)) (shl q e0)) in *.
    set (r := ratio p q) in *. set (t := powerRZ 2 e0) in *.
    change (2 ^ 52) with 4503599627370496 in *.
    change (2 ^ 53) with 9007199254740992 in *.
    assert (Hrho : (4503599627370496 <= rho < 9007199254740992)%R).
    { rewrite <- Hshift in HE1, HE2. split; nra. }
    assert (Hm0 : 4503599627370496 <= m0 <= 9007199254740992).
    { split.
      - assert (4503599627370496 - 1 < m0); [|lia].
        apply lt_IZR. rewrite minus_IZR. lra.
      - assert (m0 < 9007199254740992 + 1); [|lia].
        apply lt_IZR. rewrite plus_IZR. lra. }
    destruct (Z.eqb_spec m0 9007199254740992) as [Heq|Hne].
    + cbv beta iota in Hrn. destruct (971 <? e0 + 1); [discriminate|].
      injection Hrn as <- <- <-.
      split; [reflexivity|]. split; [lia|]. split; [lia|].
      unfold magnitude. rewrite Hsucc. fold t.
      rewrite Heq in Hclose.
      rewrite <- Hshift. split; nra.
    + cbv beta iota in Hrn. destruct (971 <? e0); [discriminate|].
      destruct m0 as [|m0'|m0'] eqn:Em0; try lia.
      injection Hrn as <- <- <-.
      split; [reflexivity|]. split; [lia|]. split; [lia|].
      unfold magnitude. fold t.
      rewrite <- Hshift. split; nra.
Qed.

(** Within the exponent range, rounding gives a finite, normal result. *)
Lemma round_nearest_even_finite (neg : bool) (p q : Z) :
  0 < p -> 0 < q ->
  -1020 <= floor_log2 p q <= 1020 ->
  exists m e, round_nearest_even neg p q = Finite neg m e /\ -1072 <= e.
Proof.
  intros Hp Hq HE. unfold round_nearest_even.
  set (E := floor_log2 p q) in *.
  rewrite Z.max_l by lia. set (e0 := E - 52).
  unfold frac_shift.
  pose proof (ratio_frac_shift p q e0 Hq) as Hshift.
  pose proof (shl_pos q e0 Hq) as Hd'.
  pose proof (div_half_even_close (shl p (- e0)) (shl q e0) Hd') as Hclose.
  destruct (floor_log2_spec p q Hp Hq) as [HE1 _]. fold E in HE1.
  pose proof (pow2_pos e0) as Ht.
  assert (HE' : (powerRZ 2 E = IZR (2 ^ 52) * powerRZ 2 e0)%R).
  { rewrite <- (bpow_IZR 2), <- (bpow_add 2) by lia. f_equal. lia. }
  rewrite HE' in HE1. clear HE'.
  set (m0 := div_half_even (shl p (- e0)) (shl q e0)) in *.
  set (rho := ratio (shl p (- e0)) (shl q e0)) in *.
  set (t := powerRZ 2 e0) in *.
  change (2 ^ 52) with 4503599627370496 in *.
  assert (Hrho : (4503599627370496 <= rho)%R).
  { rewrite <- Hshift in HE1. nra. }
  assert (Hm0 : 4503599627370496 <= m0).
  { assert (4503599627370496 - 1 < m0); [|lia].
    apply lt_IZR. rewrite minus_IZR. lra. }
  destruct (Z.eqb_spec m0 (2 ^ 53)) as [Heq|Hne]; cbv beta iota.
  - destruct (Z.ltb_spec 971 (e0 + 1)); [lia|].
    eexists _, _. split; [reflexivity | lia].
  - destruct (Z.ltb_spec 971 e0); [lia|].
    destruct m0 as [|m0'|m0']; try lia.
    eexists _, _. split; [reflexivity | lia].
Qed.

Lemma floor_log2_bounds (p q a c : Z) :
  0 < p -> 0 < q ->
  (powerRZ 2 a <= ratio p q < powerRZ 2 c)%R ->
  a <= floor_log2 p q < c.
Proof.
  intros Hp Hq [H1 H2].
  destruct (floor_log2_spec p q Hp Hq) as [H3 H4].
  assert (a < floor_log2 p q + 1) by (apply (bpow_lt_inv 2); [lia|]; simpl; lra).
  assert (floor_log2 p q < c) by (apply (bpow_lt_inv 2); [lia|]; simpl; lra).
  lia.
Qed.

(** The real value of a finite Number as a fraction. *)
Lemma magnitude_ratio (s : bool) (m : positive) (e : Z) :
  magnitude (Finite s m e) = ratio (shl (Z.pos m) e) (shl 1 (- e)).
Proof.
  pose proof (ratio_frac_shift (Z.pos m) 1 (- e) ltac:(lia)) as H.
  rewrite Z.opp_involutive in H. unfold magnitude.
  pose proof (bpow_opp 2 ltac:(lia) e) as Hinv. simpl in Hinv.
  assert (Hr : ratio (Z.pos m) 1 = IZR (Z.pos m)) by (unfold ratio; field).
  rewrite Hr in H. rewrite <- H. rewrite Rmult_assoc, Hinv. ring.
Qed.

(** *** Exact cases *)

Lemma div_half_even_1 (n : Z) : div_half_even n 1 = n.
Proof.
  unfold div_half_even. rewrite Z.div_1_r, Z.mod_1_r. reflexivity.
Qed.

(** Integers below [2^53] are Numbers. *)
Lemma of_integer_exact (neg : bool) (z : Z) :
  0 < z < 2 ^ 53 ->
  exists m e,
    round_nearest_even neg z 1 = Finite neg m e
    /\ -52 <= e <= 0
    /\ Z.pos m = z * 2 ^ (- e)
    /\ magnitude (Finite neg m e) = IZR z.
Proof.
  intros [Hz1 Hz2].
  assert (HE : floor_log2 z 1 = Z.log2 z).
  { unfold floor_log2, frac_shift, shl. change (Z.log2 1) with 0.
    rewrite Z.sub_0_r.
    pose proof (Z.log2_nonneg z). destruct (Z.log2_spec z Hz1) as [H1 _].
    rewrite (Z.max_l 0 (- Z.log2 z)), (Z.max_r 0 (Z.log2 z)) by lia.
    destruct (Z.leb_spec (1 * 2 ^ Z.log2 z) (z * 2 ^ 0)); [reflexivity|lia]. }
  assert (Hlog : 0 <= Z.log2 z < 53).
  { split; [apply Z.log2_nonneg|]. apply Z.log2_lt_pow2; lia. }
  unfold round_nearest_even. rewrite HE.
  set (E := Z.log2 z) in *. rewrite Z.max_l by lia.
  unfold frac_shift, shl.
  rewrite (Z.max_r 0 (- (E - 52))), (Z.max_l 0 (E - 52)) by lia.
  change (1 * 2 ^ 0) with 1. rewrite div_half_even_1.
  destruct (Z.log2_spec z Hz1) as [H1 H2]. fold E in H1, H2.
  assert (Hm : 2 ^ 52 <= z * 2 ^ (- (E - 52)) < 2 ^ 53).
  { replace (- (E - 52)) with (52 - E) by lia.
    replace (2 ^ 52) with (2 ^ E * 2 ^ (52 - E))
      by (rewrite <- Z.pow_add_r by lia; f_equal; lia).
    replace (2 ^ 53) with (2 ^ Z.succ E * 2 ^ (52 - E))
      by (rewrite <- Z.pow_add_r by lia; f_equal; lia).
    pose proof (Z.pow_pos_nonneg 2 (52 - E)). nia. }
  destruct (Z.eqb_spec (z * 2 ^ (- (E - 52))) (2 ^ 53)) as [Heq|_]; [lia|].
  destruct (Z.ltb_spec 971 (E - 52)); [lia|].
  destruct (z * 2 ^ (- (E - 52))) as [|m|m] eqn:Em; try lia.
  exists m, (E - 52). split; [reflexivity|]. split; [lia|].
  split; [symmetry; exact Em|].
  unfold magnitude. rewrite <- Em, mult_IZR, <- (bpow_IZR 2) by lia.
  rewrite Rmult_assoc. pose proof (bpow_opp 2 ltac:(lia) (E - 52)) as Hinv.
  simpl in Hinv. change (IZR 2) with 2%R. rewrite Hinv. ring.
Qed.

(** Powers of ten up to [10^22] are Numbers. *)
Lemma pow10_exact (k : Z) :
  0 <= k <= 22 ->
  exists m e,
    pow10 k = Finite false m e /\ -1072 <= e
    /\ magnitude (Finite false m e) = IZR (10 ^ k).
Proof.
  intros Hk.
  assert (Hall : forallb (fun i => pow10_exact_at (Z.of_nat i)) (seq 0 23) = true)
    by (vm_compute; reflexivity).
  rewrite forallb_forall in Hall.
  specialize (Hall (Z.to_nat k)). rewrite Z2Nat.id in Hall by lia.
  assert (Hin : In (Z.to_nat k) (seq 0 23)) by (apply in_seq; lia).
  specialize (Hall Hin). unfold pow10_exact_at in Hall.
  destruct (pow10 k) as [| | |[] m e]; try discriminate.
  apply andb_prop in Hall as [H1 H2].
  apply Z.eqb_eq in H1. apply Z.leb_le in H2.
  exists m, e. split; [reflexivity|]. split; [exact H2|].
  rewrite magnitude_ratio. unfold ratio. rewrite H1, mult_IZR.
  field. apply not_0_IZR. pose proof (shl_pos 1 (- e)). lia.
Qed.

(** ** Decimal exponents *)

Lemma log10_aux_spec (fuel : nat) (z : Z) :
  0 < z < 2 ^ Z.of_nat fuel ->
  0 <= log10_aux fuel z
  /\ 10 ^ log10_aux fuel z <= z < 10 ^ (log10_aux fuel z + 1).
Proof.
  revert z. induction fuel as [|fuel IH]; intros z Hz.
  - simpl in Hz. lia.
  - cbn [log10_aux]. destruct (Z.ltb_spec z 10) as [Hlt|Hge].
    + simpl. lia.
    + assert (Hz' : 0 < z / 10 < 2 ^ Z.of_nat fuel).
      { rewrite Nat2Z.inj_succ, Z.pow_succ_r in Hz by lia.
        split; [apply Z.div_str_pos; lia|].
        apply Z.div_lt_upper_bound; lia. }
      destruct (IH _ Hz') as (H0 & H1 & H2).
      set (r := log10_aux fuel (z / 10)) in *.
      replace (1 + r + 1) with (Z.succ (r + 1)) by lia.
      replace (1 + r) with (Z.succ r) by lia.
      rewrite !Z.pow_succ_r by lia.
      pose proof (Z.div_mod z 10 ltac:(lia)).
      pose proof (Z.mod_pos_bound z 10 ltac:(lia)).
      lia.
Qed.

Lemma log10_spec (z : Z) :
  0 < z -> 0 <= log10 z /\ 10 ^ log10 z <= z < 10 ^ (log10 z + 1).
Proof.
  intros Hz. unfold log10. apply log10_aux_spec.
  split; [exact Hz|]. rewrite Nat2Z.inj_succ, Z2Nat.id by apply Z.log2_nonneg.
  apply Z.log2_spec, Hz.
Qed.

Lemma log10_unique (z k : Z) :
  0 <= k -> 10 ^ k <= z < 10 ^ (k + 1) -> log10 z = k.
Proof.
  intros Hk [H1 H2].
  assert (Hz : 0 < z) by (pose proof (Z.pow_pos_nonneg 10 k); lia).
  destruct (log10_spec z Hz) as (H0 & H3 & H4).
  assert (log10 z < k + 1).
  { apply (Z.pow_lt_mono_r_iff 10); lia. }
  assert (k < log10 z + 1).
  { apply (Z.pow_lt_mono_r_iff 10); lia. }
  lia.
Qed.

Lemma floor_ratio (p q : Z) :
  0 < q -> (IZR (p / q) <= ratio p q < IZR (p / q) + 1)%R.
Proof.
  intros Hq.
  pose proof (Z.div_mod p q ltac:(lia)) as Hdm.
  pose proof (Z.mod_pos_bound p q Hq) as [Hm1 Hm2].
  assert (Hq' : (0 < IZR q)%R) by (apply IZR_lt; lia).
  assert (Hr : (ratio p q * IZR q = IZR p)%R) by (unfold ratio; field; lra).
  assert (H1 : (IZR (p / q) * IZR q <= IZR p)%R).
  { rewrite <- mult_IZR. apply IZR_le. lia. }
  assert (H2 : (IZR p < (IZR (p / q) + 1) * IZR q)%R).
  { rewrite <- (plus_IZR _ 1), <- mult_IZR. apply IZR_lt. lia. }
  rewrite <- Hr in H1, H2. split; nra.
Qed.

Lemma decimal_exponent_spec (p q : Z) :
  0 < p -> 0 < q ->
  (powerRZ 10 (decimal_exponent p q - 1) <= ratio p q
   < powerRZ 10 (decimal_exponent p q))%R.
Proof.
  intros Hp Hq. unfold decimal_exponent.
  assert (Hp' : (0 < IZR p)%R) by (apply IZR_lt; lia).
  assert (Hq' : (0 < IZR q)%R) by (apply IZR_lt; lia).
  assert (Hr : (ratio p q * IZR q = IZR p)%R) by (unfold ratio; field; lra).
  destruct (Z.leb_spec q p) as [Hle|Hlt].
  - assert (Hpos : 0 < p / q) by (apply Z.div_str_pos; lia).
    destruct (log10_spec _ Hpos) as (H0 & H1 & H2).
    destruct (floor_ratio p q Hq) as [H3 H4].
    set (L := log10 (p / q)) in *.
    replace (L + 1 - 1) with L by lia.
    rewrite !(bpow_IZR 10) by lia.
    apply IZR_le in H1. assert (H2' : p / q + 1 <= 10 ^ (L + 1)) by lia.
    apply IZR_le in H2'. rewrite plus_IZR in H2'. lra.
  - assert (Hpos : 0 < (q - 1) / p) by (apply Z.div_str_pos; lia).
    destruct (log10_spec _ Hpos) as (H0 & H1 & H2).
    set (L := log10 ((q - 1) / p)) in *.
    pose proof (Z.div_mod (q - 1) p ltac:(lia)) as Hdm.
    pose proof (Z.mod_pos_bound (q - 1) p Hp) as [Hm1 Hm2].
    assert (Ha : 10 ^ L * p < q) by nia.
    assert (Hb : q <= 10 ^ (L + 1) * p) by nia.
    apply IZR_lt in Ha. apply IZR_le in Hb.
    rewrite mult_IZR, <- (bpow_IZR 10) in Ha, Hb by lia.
    change (IZR 10) with 10%R in *.
    pose proof (bpow_opp 10 ltac:(lia) L) as Hi1.
    pose proof (bpow_opp 10 ltac:(lia) (L + 1)) as Hi2.
    simpl IZR in Hi1, Hi2.
    replace (- L - 1) with (- (L + 1)) by lia.
    pose proof (pow10_pos (- L)). pose proof (pow10_pos (- (L + 1))).
    pose proof (pow10_pos L). pose proof (pow10_pos (L + 1)).
    split.
    + apply (Rmult_le_reg_r (powerRZ 10 (L + 1) * IZR q)); [nra|].
      replace (powerRZ 10 (- (L + 1)) * (powerRZ 10 (L + 1) * IZR q))%R
        with ((powerRZ 10 (- (L + 1)) * powerRZ 10 (L + 1)) * IZR q)%R by ring.
      rewrite Hi2.
      replace (ratio p q * (powerRZ 10 (L + 1) * IZR q))%R
        with (powerRZ 10 (L + 1) * (ratio p q * IZR q))%R by ring.
      rewrite Hr. lra.
    + apply (Rmult_lt_reg_r (powerRZ 10 L * IZR q)); [nra|].
      replace (powerRZ 10 (- L) * (powerRZ 10 L * IZR q))%R
        with ((powerRZ 10 (- L) * powerRZ 10 L) * IZR q)%R by ring.
      rewrite Hi1.
      replace (ratio p q * (powerRZ 10 L * IZR q))%R
        with (powerRZ 10 L * (ratio p q * IZR q))%R by ring.
      rewrite Hr. lra.
Qed.

(** ** Decimals of at most fifteen digits are far apart *)

Lemma decimal_eq_integer (a c i j : Z) :
  (IZR a * powerRZ 10 i = IZR c * powerRZ 10 j)%R ->
  i <= j -> a = c * 10 ^ (j - i).
Proof.
  intros H Hij. apply eq_IZR. rewrite mult_IZR, <- (bpow_IZR 10) by lia.
  assert (E : (powerRZ 10 j = powerRZ 10 (j - i) * powerRZ 10 i)%R).
  { rewrite <- (bpow_add 10) by lia. f_equal. lia. }
  rewrite E in H. pose proof (pow10_pos i).
  apply (Rmult_eq_reg_r (powerRZ 10 i)); [|lra]. simpl IZR. lra.
Qed.

(** Two decimals [a * 10^i] and [c * 10^j] with [a, c <= 10^15] that
    are within a relative distance of [2^-53] of their sum are equal. *)
Lemma decimal_separation (a c i j : Z) :
  0 < a <= 10 ^ 15 -> 0 < c <= 10 ^ 15 ->
  (- (IZR a * powerRZ 10 i + IZR c * powerRZ 10 j)
   <= (IZR a * powerRZ 10 i - IZR c * powerRZ 10 j) * IZR (2 ^ 53)
   <= IZR a * powerRZ 10 i + IZR c * powerRZ 10 j)%R ->
  (IZR a * powerRZ 10 i = IZR c * powerRZ 10 j)%R.
Proof.
  intros Ha Hc H.
  change (10 ^ 15) with 1000000000000000 in *.
  change (2 ^ 53) with 9007199254740992 in *.
  assert (Hcore : forall a c i j : Z,
             0 < a <= 1000000000000000 -> 0 < c <= 1000000000000000 ->
             i <= j ->
             (- (IZR a * powerRZ 10 i + IZR c * powerRZ 10 j)
              <= (IZR a * powerRZ 10 i - IZR c * powerRZ 10 j)
                 * 9007199254740992
              <= IZR a * powerRZ 10 i + IZR c * powerRZ 10 j)%R ->
             (IZR a * powerRZ 10 i = IZR c * powerRZ 10 j)%R).
  { clear. intros a c i j Ha Hc Hij H.
    assert (E : (powerRZ 10 j = IZR (10 ^ (j - i)) * powerRZ 10 i)%R).
    { rewrite <- (bpow_IZR 10), <- (bpow_add 10) by lia. f_equal. lia. }
    rewrite E in *. clear E.
    pose proof (pow10_pos i) as Ht. set (t := powerRZ 10 i) in *.
    pose proof (Z.pow_pos_nonneg 10 (j - i) ltac:(lia) ltac:(lia)) as Hpow.
    set (c' := c * 10 ^ (j - i)).
    assert (Hc' : IZR c' = (IZR c * IZR (10 ^ (j - i)))%R)
      by (unfold c'; apply mult_IZR).
    assert (Hc'pos : 0 < c') by (unfold c'; nia).
    replace (IZR c * (IZR (10 ^ (j - i)) * t))%R with (IZR c' * t)%R in *
      by (rewrite Hc'; ring).
    assert (H1 : - (a + c') <= (a - c') * 9007199254740992).
    { apply le_IZR. rewrite opp_IZR, plus_IZR, mult_IZR, minus_IZR.
      destruct H as [H _]. nra. }
    assert (H2 : (a - c') * 9007199254740992 <= a + c').
    { apply le_IZR. rewrite plus_IZR, mult_IZR, minus_IZR.
      destruct H as [_ H]. nra. }
    assert (a = c') by lia. subst a. reflexivity. }
  destruct (Z_le_gt_dec i j) as [Hij|Hij].
  - apply Hcore; assumption.
  - symmetry. apply Hcore; try assumption; [lia|]. lra.
Qed.

Lemma number_eqb_eq (x y : number) : number_eqb x y = true -> x = y.
Proof.
  destruct x as [|a|a|a m e], y as [|c|c|c m' e']; simpl; try discriminate;
    try reflexivity.
  - intros H. apply Bool.eqb_prop in H. congruence.
  - intros H. apply Bool.eqb_prop in H. congruence.
  - intros H. apply andb_prop in H as [H He]. apply andb_prop in H as [Hs Hm].
    apply Bool.eqb_prop in Hs. apply Pos.eqb_eq in Hm. apply Z.eqb_eq in He.
    congruence.
Qed.

Lemma number_eqb_refl (x : number) : number_eqb x x = true.
Proof.
  destruct x as [|a|a|a m e]; simpl; try reflexivity;
    rewrite ?Bool.eqb_reflx, ?Pos.eqb_refl, ?Z.eqb_refl; reflexivity.
Qed.

(** A candidate that rounds to [x] is within [2^-53] of it. *)
Lemma rounds_to_close (x : number) (c j : Z) (s : bool) (m : positive) (e : Z) :
  x = Finite s m e -> -1072 <= e -> 0 < c ->
  rounds_to x c j = true ->
  (- (IZR c * powerRZ 10 j)
   <= (magnitude x - IZR c * powerRZ 10 j) * IZR (2 ^ 53)
   <= IZR c * powerRZ 10 j)%R.
Proof.
  intros -> He Hc Hr. unfold rounds_to in Hr.
  pose proof (ratio_scale10 c 1 j ltac:(lia)) as Hs.
  destruct (scale10 c 1 j) as [sp sq]. destruct Hs as (Hv & Hq & Hp).
  apply number_eqb_eq in Hr.
  destruct (round_nearest_even_close _ _ _ _ _ _ (Hp Hc) Hq Hr He)
    as (_ & _ & _ & Hclose).
  rewrite Hv in Hclose. unfold ratio in Hclose.
  replace (IZR c / IZR 1)%R with (IZR c) in Hclose by field.
  exact Hclose.
Qed.

(** ** The shortest digit string *)

Lemma shortest_unfold (fuel : nat) (x : number) (p q n k : Z) :
  shortest (S fuel) x p q n k
  = let '(sp, sq) := scale10 p q (k - n) in
    let lo := sp / sq in
    let hi := lo + 1 in
    let lo_ok := rounds_to x lo (n - k) in
    let hi_ok := rounds_to x hi (n - k) in
    let lo_closer :=
      match 2 * (sp mod sq) ?= sq with
      | Lt => true
      | Gt => false
      | Eq => Z.even lo
      end in
    if lo_ok && (lo_closer || negb hi_ok) then (lo, k)
    else if hi_ok then (hi, k)
    else shortest fuel x p q n (k + 1).
Proof. reflexivity. Qed.

Lemma pow10_le_15 (k : Z) : 0 <= k <= 15 -> 0 < 10 ^ k <= 10 ^ 15.
Proof.
  intros Hk. split; [apply Z.pow_pos_nonneg; lia|].
  apply Z.pow_le_mono_r; lia.
Qed.

Lemma mod10_of_multiple (c j : Z) : 1 <= j -> (c * 10 ^ j) mod 10 = 0.
Proof.
  intros Hj. replace j with (Z.succ (j - 1)) by lia.
  rewrite Z.pow_succ_r by lia.
  replace (c * (10 * 10 ^ (j - 1))) with (c * 10 ^ (j - 1) * 10) by ring.
  apply Z.mod_mul. lia.
Qed.

Lemma rounds_to_shift (x : number) (c j : Z) :
  0 < c -> rounds_to x (c * 10) (j - 1) = rounds_to x c j.
Proof.
  intros Hc. unfold rounds_to.
  pose proof (ratio_scale10 (c * 10) 1 (j - 1) ltac:(lia)) as H1.
  pose proof (ratio_scale10 c 1 j ltac:(lia)) as H2.
  destruct (scale10 (c * 10) 1 (j - 1)) as [p1 q1].
  destruct (scale10 c 1 j) as [p2 q2].
  destruct H1 as (Hv1 & Hq1 & Hp1). destruct H2 as (Hv2 & Hq2 & Hp2).
  f_equal. apply round_nearest_even_ext; try (auto; lia).
  apply ratio_eq_cross; [assumption..|].
  rewrite Hv1, Hv2. unfold ratio. rewrite mult_IZR.
  replace j with (1 + (j - 1)) at 2 by lia.
  rewrite (bpow_add 10) by lia. simpl. field.
Qed.

Section Shortest.

Variables (x : number) (m : positive) (e : Z) (p q : Z).
Hypothesis Hx : x = Finite false m e.
Hypothesis He : -1072 <= e.
Hypothesis Hp : 0 < p.
Hypothesis Hq : 0 < q.
Hypothesis Hxv : ratio p q = magnitude x.

(** The decimal [T * 10^(nd - k0)], of [k0 <= 15] digits and without a
    trailing zero, rounds to [x]. *)
Variables (T k0 nd : Z).
Hypothesis Hk0 : 1 <= k0 <= 15.
Hypothesis HT : 10 ^ (k0 - 1) <= T < 10 ^ k0.
Hypothesis HT10 : T mod 10 <> 0.
Hypothesis Hround : rounds_to x T (nd - k0) = true.

Local Abbreviation D := (IZR T * powerRZ 10 (nd - k0))%R.
Local Abbreviation XV := (ratio p q).

Lemma target_pos : 0 < T <= 10 ^ 15.
Proof.
  pose proof (Z.pow_pos_nonneg 10 (k0 - 1) ltac:(lia) ltac:(lia)).
  pose proof (pow10_le_15 k0 ltac:(lia)). lia.
Qed.

Lemma target_close :
  (- D <= (XV - D) * IZR (2 ^ 53) <= D)%R.
Proof.
  rewrite Hxv. apply (rounds_to_close x T (nd - k0) false m e); auto.
  apply target_pos.
Qed.

Lemma target_value_pos : (0 < D)%R.
Proof.
  pose proof (pow10_pos (nd - k0)).
  assert (0 < IZR T)%R by (apply IZR_lt, target_pos). nra.
Qed.

(** Any other candidate of at most fifteen digits that rounds to [x] is
    the same decimal. *)
Lemma candidate_is_target (c j : Z) :
  0 < c <= 10 ^ 15 ->
  rounds_to x c j = true ->
  (IZR c * powerRZ 10 j = D)%R.
Proof.
  intros Hc Hr.
  pose proof (rounds_to_close x c j false m e Hx He ltac:(lia) Hr) as H1.
  pose proof target_close as H2. rewrite <- Hxv in H1.
  apply decimal_separation; [exact Hc | apply target_pos |].
  change (2 ^ 53) with 9007199254740992 in *.
  pose proof target_value_pos.
  assert (0 < IZR c * powerRZ 10 j)%R.
  { pose proof (pow10_pos j). assert (0 < IZR c)%R by (apply IZR_lt; lia). nra. }
  split; lra.
Qed.

(** No candidate of fewer than [k0] digits rounds to [x]. *)
Lemma no_shorter_candidate (c k n : Z) :
  1 <= k < k0 -> 0 < c <= 10 ^ k ->
  rounds_to x c (n - k) = false.
Proof.
  intros Hk Hc. destruct (rounds_to x c (n - k)) eqn:Hr; [exfalso|reflexivity].
  assert (Hk15 : 10 ^ k <= 10 ^ (k0 - 1)) by (apply Z.pow_le_mono_r; lia).
  pose proof (pow10_le_15 (k0 - 1) ltac:(lia)) as H15.
  pose proof (candidate_is_target c (n - k) ltac:(lia) Hr) as Heq.
  destruct (Z_le_gt_dec (n - k) (nd - k0)) as [Hij|Hij].
  - apply decimal_eq_integer in Heq; [|exact Hij].
    destruct (Z.eq_dec (nd - k0) (n - k)) as [E|E].
    + rewrite E, Z.sub_diag, Z.mul_1_r in Heq.
      assert (HTk : T = 1 * 10 ^ k) by lia.
      apply HT10. rewrite HTk. apply mod10_of_multiple. lia.
    + pose proof (mod10_of_multiple T (nd - k0 - (n - k)) ltac:(lia)) as Hm.
      assert (10 ^ 1 <= 10 ^ (nd - k0 - (n - k)))
        by (apply Z.pow_le_mono_r; lia).
      change (10 ^ 1) with 10 in *. nia.
  - symmetry in Heq. apply decimal_eq_integer in Heq; [|lia].
    apply HT10. rewrite Heq. apply mod10_of_multiple. lia.
Qed.

(** The decimal exponent of [x] is that of the target, except when the
    target is a power of ten that [x] lies just below. *)
Lemma exponent_cases :
  decimal_exponent p q = nd
  \/ (decimal_exponent p q = nd - 1 /\ T = 1 /\ k0 = 1).
Proof.
  destruct (decimal_exponent_spec p q Hp Hq) as [Hn1 Hn2].
  set (n := decimal_exponent p q) in *.
  pose proof target_close as Hclose.
  pose proof target_value_pos as HD.
  change (2 ^ 53) with 9007199254740992 in *.
  assert (HDlo : (powerRZ 10 (nd - 1) <= D)%R).
  { assert (E : (powerRZ 10 (nd - 1)
                   = IZR (10 ^ (k0 - 1)) * powerRZ 10 (nd - k0))%R).
    { rewrite <- (bpow_IZR 10), <- (bpow_add 10) by lia. f_equal. lia. }
    rewrite E. pose proof (pow10_pos (nd - k0)).
    assert (IZR (10 ^ (k0 - 1)) <= IZR T)%R by (apply IZR_le; lia).
    apply Rmult_le_compat_r; [apply Rlt_le; assumption | assumption]. }
  assert (HDhi : (D < powerRZ 10 nd)%R).
  { assert (E : (powerRZ 10 nd = IZR (10 ^ k0) * powerRZ 10 (nd - k0))%R).
    { rewrite <- (bpow_IZR 10), <- (bpow_add 10) by lia. f_equal. lia. }
    rewrite E. pose proof (pow10_pos (nd - k0)).
    assert (IZR T < IZR (10 ^ k0))%R by (apply IZR_lt; lia).
    apply Rmult_lt_compat_r; assumption. }
  assert (Hsep : forall g, (Rmin XV D <= powerRZ 10 g <= Rmax XV D)%R ->
                           (1 * powerRZ 10 g = D)%R).
  { intros g [Hg1 Hg2].
    pose proof (pow10_pos g).
    apply (decimal_separation 1 T g (nd - k0));
      [change (10 ^ 15) with 1000000000000000; lia | apply target_pos |].
    change (2 ^ 53) with 9007199254740992.
    unfold Rmin, Rmax in *.
    destruct (Rle_dec XV D); split; lra. }
  destruct (Z.lt_trichotomy n nd) as [Hlt|[Heq|Hgt]].
  - right.
    assert (Hle : (powerRZ 10 n <= powerRZ 10 (nd - 1))%R)
      by (apply (bpow_le 10); lia).
    assert (Hg : (1 * powerRZ 10 n = D)%R).
    { apply Hsep. unfold Rmin, Rmax. destruct (Rle_dec XV D); split; lra. }
    destruct (Z_le_gt_dec n (nd - k0)) as [Hij|Hij].
    + apply decimal_eq_integer in Hg; [|exact Hij].
      pose proof (Z.pow_pos_nonneg 10 (nd - k0 - n) ltac:(lia) ltac:(lia)).
      assert (HT1 : T = 1) by nia.
      assert (Hk1 : k0 = 1).
      { destruct (Z.eq_dec k0 1); [assumption|].
        assert (10 ^ 1 <= 10 ^ (k0 - 1)) by (apply Z.pow_le_mono_r; lia).
        change (10 ^ 1) with 10 in *. lia. }
      rewrite HT1, Hk1, Z.mul_1_l in Hg.
      destruct (Z.eq_dec (nd - 1 - n) 0) as [E0|E0]; [lia|].
      assert (10 ^ 1 <= 10 ^ (nd - 1 - n)) by (apply Z.pow_le_mono_r; lia).
      change (10 ^ 1) with 10 in *. lia.
    + exfalso. symmetry in Hg. apply decimal_eq_integer in Hg; [|lia].
      apply HT10. rewrite Hg. apply mod10_of_multiple. lia.
  - left. exact Heq.
  - exfalso.
    assert (Hle : (powerRZ 10 nd <= powerRZ 10 (n - 1))%R)
      by (apply (bpow_le 10); lia).
    assert (Hg : (1 * powerRZ 10 nd = D)%R).
    { apply Hsep. unfold Rmin, Rmax. destruct (Rle_dec XV D); split; lra. }
    lra.
Qed.


Lemma candidates_range (k : Z) :
  1 <= k <= 15 ->
  let n := decimal_exponent p q in
  let lo := fst (scale10 p q (k - n)) / snd (scale10 p q (k - n)) in
  10 ^ (k - 1) <= lo < 10 ^ k
  /\ (IZR lo <= XV * powerRZ 10 (k - n) < IZR lo + 1)%R.
Proof.
  intros Hk n lo. subst lo.
  pose proof (ratio_scale10 p q (k - n) Hq) as Hs.
  destruct (scale10 p q (k - n)) as [sp sq]. cbn [fst snd].
  destruct Hs as (Hv & Hsq & _).
  destruct (floor_ratio sp sq Hsq) as [Hf1 Hf2]. rewrite Hv in Hf1, Hf2.
  destruct (decimal_exponent_spec p q Hp Hq) as [Hn1 Hn2]. fold n in Hn1, Hn2.
  pose proof (pow10_pos (k - n)) as HP.
  assert (E1 : (powerRZ 10 (n - 1) * powerRZ 10 (k - n)
                = IZR (10 ^ (k - 1)))%R).
  { rewrite <- (bpow_IZR 10), <- (bpow_add 10) by lia. f_equal. lia. }
  assert (E2 : (powerRZ 10 n * powerRZ 10 (k - n) = IZR (10 ^ k))%R).
  { rewrite <- (bpow_IZR 10), <- (bpow_add 10) by lia. f_equal. lia. }
  assert (Hy1 : (IZR (10 ^ (k - 1)) <= XV * powerRZ 10 (k - n))%R).
  { rewrite <- E1. apply Rmult_le_compat_r; lra. }
  assert (Hy2 : (XV * powerRZ 10 (k - n) < IZR (10 ^ k))%R).
  { rewrite <- E2. apply Rmult_lt_compat_r; lra. }
  split; [|split; assumption].
  split.
  - assert (10 ^ (k - 1) < sp / sq + 1); [|lia].
    apply lt_IZR. rewrite plus_IZR. lra.
  - apply lt_IZR. lra.
Qed.

(** At [k0] digits the search stops with the target. *)
Lemma shortest_at_k0 (fuel : nat) :
  shortest (S fuel) x p q (decimal_exponent p q) k0
  = if decimal_exponent p q =? nd then (T, k0) else (10, k0).
Proof.
  rewrite shortest_unfold.
  destruct (candidates_range k0 Hk0) as [Hlo Hy].
  destruct (scale10 p q (k0 - decimal_exponent p q)) as [sp sq].
  cbn [fst snd] in Hlo, Hy. cbv zeta.
  set (n := decimal_exponent p q) in *. set (lo := sp / sq) in *.
  pose proof target_close as Hclose. pose proof target_pos as HTpos.
  pose proof target_value_pos as HD.
  pose proof (pow10_le_15 (k0 - 1) ltac:(lia)) as H15.
  pose proof (pow10_le_15 k0 ltac:(lia)) as H15'.
  change (2 ^ 53) with 9007199254740992 in *.
  change (10 ^ 15) with 1000000000000000 in *.
  pose proof (pow10_pos (k0 - n)) as HP.
  assert (Hne : forall c, 0 < c <= 1000000000000000 -> c <> T ->
                          rounds_to x c (nd - k0) = false).
  { intros c Hc Hcne. destruct (rounds_to x c (nd - k0)) eqn:Hr; [|reflexivity].
    exfalso. apply Hcne. apply eq_IZR.
    pose proof (candidate_is_target c (nd - k0) Hc Hr) as Heq.
    pose proof (pow10_pos (nd - k0)).
    apply (Rmult_eq_reg_r (powerRZ 10 (nd - k0))); lra. }
  destruct exponent_cases as [Hn | (Hn & HT1 & Hk1)]; fold n in Hn.
  - rewrite Hn, Z.eqb_refl. rewrite Hn in *.
    assert (HDP : (D * powerRZ 10 (k0 - nd) = IZR T)%R).
    { rewrite Rmult_assoc, <- (bpow_add 10) by lia.
      replace (nd - k0 + (k0 - nd)) with 0 by lia. simpl. ring. }
    assert (HTr : (IZR T < 1000000000000000)%R) by (apply IZR_lt; lia).
    assert (HT0 : (0 < IZR T)%R) by (apply IZR_lt; lia).
    set (y := (XV * powerRZ 10 (k0 - nd))%R) in *.
    assert (Hy' : (- IZR T <= (y - IZR T) * 9007199254740992 <= IZR T)%R).
    { rewrite <- HDP. unfold y.
      replace ((XV * powerRZ 10 (k0 - nd) - D * powerRZ 10 (k0 - nd))
               * 9007199254740992)%R
        with (((XV - D) * 9007199254740992) * powerRZ 10 (k0 - nd))%R by ring.
      split.
      - replace (- (D * powerRZ 10 (k0 - nd)))%R
          with ((- D) * powerRZ 10 (k0 - nd))%R by ring.
        apply Rmult_le_compat_r; lra.
      - apply Rmult_le_compat_r; lra. }
    assert (Hcases : lo = T \/ lo = T - 1).
    { assert (lo < T + 1) by (apply lt_IZR; rewrite plus_IZR; lra).
      assert (T - 2 < lo) by (apply lt_IZR; rewrite minus_IZR; lra).
      lia. }
    destruct Hcases as [-> | Hlo'].
    + rewrite Hround. rewrite (Hne (T + 1)) by lia.
      rewrite orb_true_r. reflexivity.
    + rewrite Hlo'. rewrite (Hne (T - 1)) by lia.
      replace (T - 1 + 1) with T by lia. rewrite Hround. reflexivity.
  - assert (Hnd : (n =? nd) = false) by (apply Z.eqb_neq; lia).
    rewrite Hnd.
    assert (Ej : nd - k0 = n) by lia.
    assert (HDn : (D = powerRZ 10 n)%R) by (rewrite HT1, Ej; ring).
    assert (E : (powerRZ 10 n * powerRZ 10 (k0 - n) = 10)%R).
    { rewrite <- (bpow_add 10) by lia. replace (n + (k0 - n)) with 1 by lia.
      simpl. ring. }
    assert (Hlo' : 1 <= lo < 10).
    { rewrite Hk1 in Hlo. exact Hlo. }
    rewrite HDn in Hclose.
    set (y := (XV * powerRZ 10 (k0 - n))%R) in *.
    pose proof (pow10_pos n) as Hpn.
    assert (Hy9 : (9 < y)%R).
    { assert (Hxv' : (powerRZ 10 n * (1 - / 9007199254740992) <= XV)%R) by lra.
      apply (Rlt_le_trans _ (powerRZ 10 n * (1 - / 9007199254740992)
                             * powerRZ 10 (k0 - n))%R).
      - replace (powerRZ 10 n * (1 - / 9007199254740992)
                 * powerRZ 10 (k0 - n))%R
          with ((powerRZ 10 n * powerRZ 10 (k0 - n))
                * (1 - / 9007199254740992))%R by ring.
        rewrite E. lra.
      - apply Rmult_le_compat_r; lra. }
    assert (Hlo9 : lo = 9).
    { assert (8 < lo) by (apply lt_IZR; lra). lia. }
    rewrite Hlo9. replace (n - k0) with (n - 1) by lia.
    assert (H10 : rounds_to x (9 + 1) (n - 1) = true).
    { change (9 + 1) with (1 * 10). rewrite rounds_to_shift by lia.
      pose proof Hround as Hr. rewrite HT1, Ej in Hr. exact Hr. }
    assert (H9 : rounds_to x 9 (n - 1) = false).
    { destruct (rounds_to x 9 (n - 1)) eqn:Hr; [|reflexivity].
      exfalso.
      pose proof (candidate_is_target 9 (n - 1) ltac:(lia) Hr) as Heq.
      rewrite HDn in Heq.
      replace n with (1 + (n - 1)) in Heq at 2 by lia.
      rewrite (bpow_add 10) in Heq by lia. simpl in Heq.
      pose proof (pow10_pos (n - 1)). lra. }
    rewrite H9, H10. reflexivity.
Qed.

(** The search from one digit on reaches [k0]. *)
Lemma shortest_finds (fuel : nat) (k : Z) :
  1 <= k <= k0 -> k0 - k <= Z.of_nat fuel ->
  shortest (S fuel) x p q (decimal_exponent p q) k
  = if decimal_exponent p q =? nd then (T, k0) else (10, k0).
Proof.
  revert k. induction fuel as [|fuel IH]; intros k Hk Hfuel.
  - replace k with k0 by lia. apply shortest_at_k0.
  - destruct (Z.eq_dec k k0) as [->|Hne]; [apply shortest_at_k0|].
    rewrite shortest_unfold.
    destruct (candidates_range k ltac:(lia)) as [Hlo _].
    destruct (scale10 p q (k - decimal_exponent p q)) as [sp sq].
    cbn [fst snd] in Hlo. cbv zeta.
    rewrite !no_shorter_candidate by lia.
    cbn [andb]. apply IH; lia.
Qed.

Lemma toString_pos_target :
  toString_pos x p q = layout (fixed_digits (Z.to_nat k0) T) k0 nd.
Proof.
  unfold toString_pos.
  rewrite (shortest_finds 15 1) by (simpl; lia).
  destruct exponent_cases as [Hn | (Hn & HT1 & Hk1)].
  - rewrite Hn, Z.eqb_refl.
    destruct (Z.eqb_spec T (10 ^ k0)) as [E|_]; [lia | reflexivity].
  - assert (Hnd : (decimal_exponent p q =? nd) = false) by (apply Z.eqb_neq; lia).
    rewrite Hnd, Hn, Hk1, HT1. change (10 =? 10 ^ 1) with true. cbv iota.
    replace (nd - 1 + 1) with nd by lia. reflexivity.
Qed.

End Shortest.

(** ** Digit strings *)

Ltac pow_side :=
  first [ lia
        | apply Z.pow_pos_nonneg; lia
        | apply Z.pow_nonzero; lia
        | apply Z.mod_pos_bound; apply Z.pow_pos_nonneg; lia ].

Lemma string_app_cons (c : ascii) (a b : string) :
  String c a +:+ b = String c (a +:+ b).
Proof. reflexivity. Qed.

Lemma string_app_nil_l (b : string) : "" +:+ b = b.
Proof. reflexivity. Qed.

Lemma string_app_assoc (a b c : string) : (a +:+ b) +:+ c = a +:+ (b +:+ c).
Proof.
  induction a as [|ch a IH]; [reflexivity|].
  rewrite !string_app_cons, IH. reflexivity.
Qed.

Lemma string_app_nil_r (a : string) : a +:+ "" = a.
Proof.
  induction a as [|ch a IH]; [reflexivity|].
  rewrite string_app_cons, IH. reflexivity.
Qed.

Lemma substring_0_all (a : string) : String.substring 0 (String.length a) a = a.
Proof.
  induction a as [|c a IH]; [reflexivity|].
  cbn [String.length String.substring]. rewrite IH. reflexivity.
Qed.

Lemma substring_app_l (a b : string) :
  String.substring 0 (String.length a) (a +:+ b) = a.
Proof.
  induction a as [|c a IH].
  - rewrite string_app_nil_l. destruct b; reflexivity.
  - rewrite string_app_cons. cbn [String.length String.substring].
    rewrite IH. reflexivity.
Qed.

Lemma substring_app_r (a b : string) :
  String.substring (String.length a) (String.length b) (a +:+ b) = b.
Proof.
  induction a as [|c a IH].
  - apply substring_0_all.
  - rewrite string_app_cons. cbn [String.length String.substring]. exact IH.
Qed.

Lemma substring_prefix (a b : string) (n : nat) :
  String.length a = n -> String.substring 0 n (a +:+ b) = a.
Proof. intros <-. apply substring_app_l. Qed.

Lemma substring_suffix (a b : string) (n m : nat) :
  String.length a = n -> String.length b = m ->
  String.substring n m (a +:+ b) = b.
Proof. intros <- <-. apply substring_app_r. Qed.

Lemma fixed_digits_length (k : nat) (z : Z) : String.length (fixed_digits k z) = k.
Proof. induction k as [|k IH]; simpl; [reflexivity | rewrite IH; reflexivity]. Qed.

Lemma zeros_length (k : nat) : String.length (zeros k) = k.
Proof. induction k as [|k IH]; simpl; [reflexivity | rewrite IH; reflexivity]. Qed.

Lemma fixed_digits_succ (k : nat) (z : Z) :
  fixed_digits (S k) z
  = String (digit_char ((z / 10 ^ Z.of_nat k) mod 10)) (fixed_digits k z).
Proof. reflexivity. Qed.

Lemma fixed_digits_split (a b : nat) (z : Z) :
  fixed_digits (a + b) z
  = fixed_digits a (z / 10 ^ Z.of_nat b) +:+ fixed_digits b z.
Proof.
  induction a as [|a IH].
  - reflexivity.
  - change (S a + b)%nat with (S (a + b)). rewrite !fixed_digits_succ, IH.
    rewrite string_app_cons.
    assert (E : z / 10 ^ Z.of_nat b / 10 ^ Z.of_nat a
                = z / 10 ^ Z.of_nat (a + b)).
    { rewrite Z.div_div by pow_side.
      rewrite <- Z.pow_add_r by lia. f_equal. f_equal. lia. }
    rewrite E. reflexivity.
Qed.

Lemma fixed_digits_zero (k : nat) : fixed_digits k 0 = zeros k.
Proof.
  induction k as [|k IH]; [reflexivity|].
  rewrite fixed_digits_succ, IH. rewrite Z.div_0_l by pow_side.
  reflexivity.
Qed.

Lemma digit_of_mod (z : Z) (k : nat) :
  ((z mod 10 ^ Z.of_nat (S k)) / 10 ^ Z.of_nat k) mod 10
  = (z / 10 ^ Z.of_nat k) mod 10.
Proof.
  assert (HB : 0 < 10 ^ Z.of_nat k) by pow_side.
  rewrite Nat2Z.inj_succ, Z.pow_succ_r by lia.
  rewrite (Z.mul_comm 10), Z.rem_mul_r by lia.
  rewrite (Z.mul_comm (10 ^ Z.of_nat k)), Z.div_add by lia.
  rewrite Z.div_small by pow_side.
  rewrite Z.add_0_l. apply Z.mod_mod. lia.
Qed.

Lemma fixed_digits_mod (k : nat) (z : Z) :
  fixed_digits k (z mod 10 ^ Z.of_nat k) = fixed_digits k z.
Proof.
  revert z. induction k as [|k IH]; intros z; [reflexivity|].
  rewrite !fixed_digits_succ, digit_of_mod. f_equal.
  rewrite <- (IH (z mod 10 ^ Z.of_nat (S k))), <- (IH z). f_equal.
  rewrite Nat2Z.inj_succ, Z.pow_succ_r by lia.
  rewrite (Z.mul_comm 10), Z.rem_mul_r by pow_side.
  rewrite Z.mul_comm, Z.mod_add by pow_side.
  apply Z.mod_mod. pow_side.
Qed.

(** Digits of a multiple of a power of ten. *)
Lemma fixed_digits_shift (a b : nat) (z : Z) :
  fixed_digits (a + b) (z * 10 ^ Z.of_nat b) = fixed_digits a z +:+ zeros b.
Proof.
  rewrite fixed_digits_split.
  rewrite Z.div_mul by pow_side. f_equal.
  rewrite <- fixed_digits_mod, Z.mod_mul by pow_side.
  apply fixed_digits_zero.
Qed.

Lemma strip_zeros_zero (k : nat) : strip_zeros k 0 = "".
Proof. induction k as [|k IH]; [reflexivity|]. simpl. exact IH. Qed.

Lemma strip_zeros_shift (t j : nat) (r : Z) :
  r mod 10 <> 0 ->
  strip_zeros (t + S j) (r * 10 ^ Z.of_nat t) = fixed_digits (S j) r.
Proof.
  intros Hr. induction t as [|t IH].
  - rewrite Z.mul_1_r. cbn [Nat.add strip_zeros].
    destruct (Z.eqb_spec (r mod 10) 0); [contradiction | reflexivity].
  - change (S t + S j)%nat with (S (t + S j)). cbn [strip_zeros].
    rewrite Nat2Z.inj_succ, Z.pow_succ_r by lia.
    replace (r * (10 * 10 ^ Z.of_nat t)) with (r * 10 ^ Z.of_nat t * 10) by ring.
    rewrite Z.mod_mul, Z.div_mul by lia. exact IH.
Qed.

Lemma Z_digits_eq (z : Z) (k : nat) :
  10 ^ (Z.of_nat k) <= z < 10 ^ (Z.of_nat k + 1) ->
  Z_digits z = fixed_digits (S k) z.
Proof.
  intros H. unfold Z_digits. rewrite (log10_unique z (Z.of_nat k)) by lia.
  f_equal. lia.
Qed.

Lemma Z_digits_zero : Z_digits 0 = "0".
Proof. reflexivity. Qed.

(** ** The layout of [toString] against the canonical numeral *)

Lemma pow10_nat_pos (k : nat) : 0 < 10 ^ Z.of_nat k.
Proof. apply Z.pow_pos_nonneg; lia. Qed.

Lemma pow10_nat_add (a b : nat) :
  10 ^ Z.of_nat (a + b) = 10 ^ Z.of_nat a * 10 ^ Z.of_nat b.
Proof. rewrite Nat2Z.inj_add, Z.pow_add_r by lia. reflexivity. Qed.

Lemma mod10_of_mod_pow (z : Z) (b : nat) :
  (z mod 10 ^ Z.of_nat (S b)) mod 10 = z mod 10.
Proof.
  rewrite Nat2Z.inj_succ, Z.pow_succ_r by lia.
  rewrite Z.rem_mul_r by (try apply pow10_nat_pos; lia).
  rewrite (Z.mul_comm 10), Z.mod_add by lia.
  apply Z.mod_mod. lia.
Qed.

Section Layout.

(** [M = T * 10^t] has [k] significant digits, the last one non-zero;
    the numeral has [F] fractional digits. *)
Variables (T : Z) (k t F : nat).
Hypothesis Hk : (1 <= k)%nat.
Hypothesis HT : 10 ^ (Z.of_nat k - 1) <= T < 10 ^ Z.of_nat k.
Hypothesis HT10 : T mod 10 <> 0.

Local Abbreviation M := (T * 10 ^ Z.of_nat t).
Local Abbreviation nd := (Z.of_nat k + Z.of_nat t - Z.of_nat F).

Lemma layout_integer :
  (F <= t)%nat -> nd <= 21 ->
  layout (fixed_digits k T) (Z.of_nat k) nd
  = Z_digits (M / 10 ^ Z.of_nat F)
      +:+ match strip_zeros F (M mod 10 ^ Z.of_nat F) with
          | EmptyString => ""
          | fr => "." +:+ fr
          end.
Proof.
  intros HFt Hnd. unfold layout.
  destruct (Z.leb_spec (Z.of_nat k) nd) as [_|]; [|lia].
  destruct (Z.leb_spec nd 21) as [_|]; [|lia]. cbn [andb].
  assert (EM : M = T * 10 ^ Z.of_nat (t - F) * 10 ^ Z.of_nat F).
  { rewrite <- Z.mul_assoc, <- pow10_nat_add. do 2 f_equal. lia. }
  rewrite EM, Z.div_mul, Z.mod_mul by (apply Z.pow_nonzero; lia).
  rewrite strip_zeros_zero, string_app_nil_r.
  pose proof (pow10_nat_pos (t - F)) as Hpos.
  rewrite (Z_digits_eq _ (k - 1 + (t - F))).
  - replace (S (k - 1 + (t - F))) with (k + (t - F))%nat by lia.
    rewrite fixed_digits_shift. do 2 f_equal. lia.
  - rewrite pow10_nat_add.
    replace (Z.of_nat (k - 1 + (t - F)) + 1)
      with (Z.of_nat k + Z.of_nat (t - F)) by lia.
    rewrite Z.pow_add_r by lia.
    replace (Z.of_nat (k - 1)) with (Z.of_nat k - 1) by lia.
    nia.
Qed.

Lemma strip_fraction (b : nat) :
  (F = t + S b)%nat ->
  strip_zeros F (M mod 10 ^ Z.of_nat F) = fixed_digits (S b) T.
Proof.
  intros ->.
  rewrite pow10_nat_add, (Z.mul_comm (10 ^ Z.of_nat t)).
  rewrite Z.mul_mod_distr_r by (apply Z.pow_nonzero; lia).
  rewrite strip_zeros_shift by (rewrite mod10_of_mod_pow; exact HT10).
  apply fixed_digits_mod.
Qed.

Lemma layout_fraction :
  (t < F)%nat -> 0 < nd <= 21 ->
  layout (fixed_digits k T) (Z.of_nat k) nd
  = Z_digits (M / 10 ^ Z.of_nat F)
      +:+ match strip_zeros F (M mod 10 ^ Z.of_nat F) with
          | EmptyString => ""
          | fr => "." +:+ fr
          end.
Proof.
  intros HtF Hnd. unfold layout.
  destruct (Z.leb_spec (Z.of_nat k) nd) as [|_]; [lia|]. cbn [andb].
  destruct (Z.ltb_spec 0 nd) as [_|]; [|lia].
  destruct (Z.leb_spec nd 21) as [_|]; [|lia]. cbn [andb].
  set (b := (F - t - 1)%nat). set (a := Z.to_nat nd).
  assert (Ek : k = (a + S b)%nat) by lia.
  rewrite (strip_fraction b) by lia. rewrite fixed_digits_succ.
  rewrite <- fixed_digits_succ.
  assert (EI : M / 10 ^ Z.of_nat F = T / 10 ^ Z.of_nat (S b)).
  { replace F with (S b + t)%nat by lia. rewrite pow10_nat_add.
    apply Z.div_mul_cancel_r; apply Z.pow_nonzero; lia. }
  rewrite EI.
  assert (HI : 10 ^ Z.of_nat (a - 1) <= T / 10 ^ Z.of_nat (S b)
               < 10 ^ (Z.of_nat (a - 1) + 1)).
  { pose proof (pow10_nat_pos (S b)) as Hb.
    replace (Z.of_nat (a - 1) + 1) with (Z.of_nat a) by lia.
    split.
    - apply Z.div_le_lower_bound; [lia|].
      rewrite Z.mul_comm, <- pow10_nat_add.
      replace (Z.of_nat (a - 1 + S b)) with (Z.of_nat k - 1) by lia. lia.
    - apply Z.div_lt_upper_bound; [lia|].
      rewrite Z.mul_comm, <- pow10_nat_add.
      replace (a + S b)%nat with k by lia. lia. }
  rewrite (Z_digits_eq _ (a - 1) HI).
  replace (S (a - 1)) with a by lia.
  assert (Eds : fixed_digits k T
                = fixed_digits a (T / 10 ^ Z.of_nat (S b))
                    +:+ fixed_digits (S b) T).
  { rewrite Ek at 1. apply fixed_digits_split. }
  rewrite Eds.
  replace (Z.to_nat (Z.of_nat k - nd)) with (S b) by lia.
  fold a.
  rewrite (substring_prefix _ _ a), (substring_suffix _ _ a (S b))
    by apply fixed_digits_length.
  reflexivity.
Qed.

Lemma layout_small :
  -6 < nd <= 0 ->
  layout (fixed_digits k T) (Z.of_nat k) nd
  = Z_digits (M / 10 ^ Z.of_nat F)
      +:+ match strip_zeros F (M mod 10 ^ Z.of_nat F) with
          | EmptyString => ""
          | fr => "." +:+ fr
          end.
Proof.
  intros Hnd. unfold layout.
  destruct (Z.leb_spec (Z.of_nat k) nd) as [|_]; [lia|]. cbn [andb].
  destruct (Z.ltb_spec 0 nd) as [|_]; [lia|]. cbn [andb].
  destruct (Z.ltb_spec (-6) nd) as [_|]; [|lia].
  destruct (Z.leb_spec nd 0) as [_|]; [|lia]. cbn [andb].
  set (z := Z.to_nat (- nd)).
  assert (EF : F = (t + S (z + k - 1))%nat) by lia.
  rewrite (strip_fraction (z + k - 1)) by lia.
  assert (EI : M / 10 ^ Z.of_nat F = 0).
  { apply Z.div_small. split.
    - pose proof (pow10_nat_pos t). pose proof (pow10_nat_pos (k - 1)).
      replace (Z.of_nat k - 1) with (Z.of_nat (k - 1)) in HT by lia. nia.
    - replace F with (k + z + t)%nat at 1 by lia.
      rewrite pow10_nat_add. pose proof (pow10_nat_pos t).
      rewrite pow10_nat_add. pose proof (pow10_nat_pos z).
      pose proof (pow10_nat_pos k).
      apply Z.lt_le_trans with (10 ^ Z.of_nat k * 10 ^ Z.of_nat t);
        [apply Z.mul_lt_mono_pos_r; lia|].
      apply Z.mul_le_mono_nonneg_r; [lia | nia]. }
  rewrite EI, Z_digits_zero.
  replace (S (z + k - 1)) with (z + k)%nat by lia.
  rewrite fixed_digits_split.
  rewrite Z.div_small
    by (split; [pose proof (pow10_nat_pos (k - 1));
                replace (Z.of_nat k - 1) with (Z.of_nat (k - 1)) in HT by lia;
                lia | lia]).
  rewrite fixed_digits_zero.
  assert (Hne : exists c s, zeros z +:+ fixed_digits k T = String c s).
  { destruct z; [|eexists _, _; reflexivity].
    destruct k as [|k']; [lia|]. eexists _, _. reflexivity. }
  destruct Hne as (c & s & ->). reflexivity.
Qed.

Lemma layout_canonical :
  -6 < nd <= 21 ->
  layout (fixed_digits k T) (Z.of_nat k) nd
  = Z_digits (M / 10 ^ Z.of_nat F)
      +:+ match strip_zeros F (M mod 10 ^ Z.of_nat F) with
          | EmptyString => ""
          | fr => "." +:+ fr
          end.
Proof.
  intros Hnd.
  destruct (le_lt_dec F t) as [HFt | HtF]; [apply layout_integer; lia|].
  destruct (Z_lt_le_dec 0 nd); [apply layout_fraction | apply layout_small]; lia.
Qed.

End Layout.

(** ** Parsing a decimal numeral *)

Lemma digit_char_is_digit (d : Z) :
  0 <= d < 10 ->
  is_digit (digit_char d) = true /\ digit_value (digit_char d) = d.
Proof.
  intros Hd.
  assert (H : d = 0 \/ d = 1 \/ d = 2 \/ d = 3 \/ d = 4 \/ d = 5 \/ d = 6
              \/ d = 7 \/ d = 8 \/ d = 9) by lia.
  repeat (destruct H as [-> | H]; [split; reflexivity|]).
  subst d. split; reflexivity.
Qed.

(** What a string that starts with a digit looks like to [parseFloat]. *)
Lemma leading_digit (c : ascii) (s : string) :
  is_digit c = true ->
  trim_start (String c s) = String c s
  /\ read_sign (String c s) = (false, String c s)
  /\ String.prefix "Infinity" (String c s) = false.
Proof.
  destruct c as [[] [] [] [] [] [] [] []]; try discriminate;
    intros _; repeat split.
Qed.

Lemma read_digits_fixed (k : nat) (z acc len : Z) (rest : string) :
  no_leading_digit rest ->
  read_digits (fixed_digits k z +:+ rest) acc len
  = (acc * 10 ^ Z.of_nat k + z mod 10 ^ Z.of_nat k, len + Z.of_nat k, rest).
Proof.
  intros Hrest. revert acc len.
  induction k as [|k IH]; intros acc len.
  - rewrite string_app_nil_l, Z.mod_1_r. change (10 ^ Z.of_nat 0) with 1.
    rewrite Z.mul_1_r, !Z.add_0_r.
    destruct rest as [|c rest]; [reflexivity|].
    simpl in Hrest. cbn [read_digits]. rewrite Hrest. reflexivity.
  - rewrite fixed_digits_succ, string_app_cons. cbn [read_digits].
    destruct (digit_char_is_digit ((z / 10 ^ Z.of_nat k) mod 10)) as [Hd Hv];
      [apply Z.mod_pos_bound; lia|].
    rewrite Hd, Hv, IH.
    assert (E : (10 * acc + (z / 10 ^ Z.of_nat k) mod 10) * 10 ^ Z.of_nat k
                + z mod 10 ^ Z.of_nat k
                = acc * 10 ^ Z.of_nat (S k) + z mod 10 ^ Z.of_nat (S k)).
    { rewrite (Nat2Z.inj_succ k), Z.pow_succ_r by lia.
      rewrite (Z.mul_comm 10 (10 ^ Z.of_nat k)).
      rewrite (Z.rem_mul_r z (10 ^ Z.of_nat k) 10)
        by (try apply Z.pow_nonzero; lia).
      ring. }
    rewrite E. replace (len + 1 + Z.of_nat k) with (len + Z.of_nat (S k)) by lia.
    reflexivity.
Qed.

Lemma Z_digits_fixed (z : Z) :
  0 <= z ->
  exists k, Z_digits z = fixed_digits (S k) z /\ z < 10 ^ Z.of_nat (S k).
Proof.
  intros Hz. destruct (Z.eq_dec z 0) as [->|Hne].
  - exists 0%nat. split; [reflexivity | reflexivity].
  - destruct (log10_spec z ltac:(lia)) as (H0 & H1 & H2).
    exists (Z.to_nat (log10 z)). rewrite Nat2Z.inj_succ, Z2Nat.id by lia.
    split; [|lia]. apply Z_digits_eq. rewrite Z2Nat.id by lia. lia.
Qed.

Lemma parseFloat_decimal_string (neg : bool) (M : Z) (F : nat) :
  0 <= M ->
  parseFloat (decimal_string neg M F)
  = if M =? 0 then Zero neg else round_nearest_even neg M (10 ^ Z.of_nat F).
Proof.
  intros HM. unfold decimal_string.
  pose proof (pow10_nat_pos F) as HF.
  assert (HI : 0 <= M / 10 ^ Z.of_nat F) by (apply Z.div_pos; lia).
  destruct (Z_digits_fixed _ HI) as (k & -> & Hk).
  set (I := M / 10 ^ Z.of_nat F) in *.
  set (tail := match F with
               | O => ""
               | S _ => "." +:+ fixed_digits F (M mod 10 ^ Z.of_nat F)
               end).
  assert (Htail : no_leading_digit tail) by (unfold tail; destruct F; reflexivity).
  assert (Hread : read_digits (fixed_digits (S k) I +:+ tail) 0 0
                  = (I, Z.of_nat (S k), tail)).
  { rewrite read_digits_fixed by exact Htail.
    rewrite Z.mod_small by lia. reflexivity. }
  assert (Hsigned : read_sign (trim_start
                      (sign_string neg +:+ fixed_digits (S k) I +:+ tail))
                    = (neg, fixed_digits (S k) I +:+ tail)
                    /\ String.prefix "Infinity" (fixed_digits (S k) I +:+ tail)
                       = false).
  { rewrite fixed_digits_succ, string_app_cons.
    destruct (digit_char_is_digit ((I / 10 ^ Z.of_nat k) mod 10)) as [Hd _];
      [apply Z.mod_pos_bound; lia|].
    destruct (leading_digit _ (fixed_digits k I +:+ tail) Hd) as (H1 & H2 & H3).
    split; [|exact H3].
    destruct neg.
    - reflexivity.
    - change (sign_string false +:+ ?s) with s. rewrite H1. exact H2. }
  destruct Hsigned as [Hsign Hinf].
  unfold parseFloat. rewrite Hsign, Hinf, Hread.
  assert (Hfrac : match tail with
                  | String "." r => read_digits r I 0
                  | _ => (I, 0, tail)
                  end = (M, Z.of_nat F, "")).
  { unfold tail. destruct F as [|f].
    - unfold I. change (10 ^ Z.of_nat 0) with 1. rewrite Z.div_1_r. reflexivity.
    - change ("." +:+ ?s) with (String "." s). cbv iota beta.
      rewrite <- (string_app_nil_r (fixed_digits (S f) _)).
      rewrite read_digits_fixed by exact Logic.I.
      rewrite Z.mod_mod by lia.
      replace (I * 10 ^ Z.of_nat (S f) + M mod 10 ^ Z.of_nat (S f)) with M.
      + reflexivity.
      + unfold I. pose proof (Z.div_mod M (10 ^ Z.of_nat (S f)) ltac:(lia)).
        lia. }
  rewrite Hfrac.
  replace (Z.of_nat (S k) =? 0) with false by (symmetry; apply Z.eqb_neq; lia).
  cbn [andb].
  destruct (M =? 0); [reflexivity|].
  unfold read_exponent, scale10.
  rewrite Z.max_l, Z.max_r by lia.
  replace (- (0 - Z.of_nat F)) with (Z.of_nat F) by lia.
  rewrite Z.mul_1_r, Z.mul_1_l. reflexivity.
Qed.

(** ** Arithmetic on finite Numbers *)

(** The sign plays no part in the rounding. *)
Lemma round_nearest_even_sign (s s' : bool) (p q : Z) (m : positive) (e : Z) :
  round_nearest_even s p q = Finite s m e ->
  round_nearest_even s' p q = Finite s' m e.
Proof.
  unfold round_nearest_even.
  destruct (frac_shift p q _) as [n' d'].
  destruct (if div_half_even n' d' =? 2 ^ 53 then _ else _) as [m0 e0].
  destruct (971 <? e0); [discriminate|].
  destruct m0; try discriminate. intros [= <- <-]. reflexivity.
Qed.

Lemma mul_finite (s1 s2 : bool) (m1 m2 : positive) (e1 e2 : Z) :
  exists p q,
    0 < p /\ 0 < q
    /\ mul (Finite s1 m1 e1) (Finite s2 m2 e2)
       = round_nearest_even (xorb s1 s2) p q
    /\ ratio p q
       = (magnitude (Finite s1 m1 e1) * magnitude (Finite s2 m2 e2))%R.
Proof.
  exists (shl (Z.pos m1 * Z.pos m2) (e1 + e2)), (shl 1 (- (e1 + e2))).
  split; [apply shl_pos; lia|]. split; [apply shl_pos; lia|].
  split; [reflexivity|].
  change (Z.pos m1 * Z.pos m2) with (Z.pos (m1 * m2)).
  rewrite <- (magnitude_ratio false). unfold magnitude.
  rewrite (bpow_add 2) by lia. simpl IZR.
  change (Z.pos (m1 * m2)) with (Z.pos m1 * Z.pos m2). rewrite mult_IZR. ring.
Qed.

Lemma div_finite (s1 s2 : bool) (m1 m2 : positive) (e1 e2 : Z) :
  exists p q,
    0 < p /\ 0 < q
    /\ div (Finite s1 m1 e1) (Finite s2 m2 e2)
       = round_nearest_even (xorb s1 s2) p q
    /\ (ratio p q * magnitude (Finite s2 m2 e2)
        = magnitude (Finite s1 m1 e1))%R.
Proof.
  exists (shl (Z.pos m1) (e1 - e2)), (shl (Z.pos m2) (e2 - e1)).
  split; [apply shl_pos; lia|]. split; [apply shl_pos; lia|].
  split; [reflexivity|].
  pose proof (ratio_frac_shift (Z.pos m1) (Z.pos m2) (e2 - e1) ltac:(lia)) as H.
  replace (- (e2 - e1)) with (e1 - e2) in H by lia.
  unfold magnitude.
  assert (E : (powerRZ 2 e2 = powerRZ 2 (e2 - e1) * powerRZ 2 e1)%R).
  { rewrite <- (bpow_add 2) by lia. f_equal. lia. }
  rewrite E.
  replace (ratio (shl (Z.pos m1) (e1 - e2)) (shl (Z.pos m2) (e2 - e1))
           * (IZR (Z.pos m2) * (powerRZ 2 (e2 - e1) * powerRZ 2 e1)))%R
    with ((ratio (shl (Z.pos m1) (e1 - e2)) (shl (Z.pos m2) (e2 - e1))
           * powerRZ 2 (e2 - e1)) * IZR (Z.pos m2) * powerRZ 2 e1)%R by ring.
  rewrite H. unfold ratio. field. apply not_0_IZR. lia.
Qed.

(** [Math.round] of a Number within a half of the integer [N]. *)
Lemma round_near_integer (neg : bool) (m : positive) (e N : Z) :
  e < 0 -> 0 < N ->
  (- (1 / 2) < magnitude (Finite neg m e) - IZR N < 1 / 2)%R ->
  round (Finite neg m e) = of_Z (if neg then - N else N).
Proof.
  intros He HN Hclose. unfold round.
  destruct (Z.leb_spec 0 e) as [|_]; [lia|].
  set (a := - e). assert (Ha : 0 < a) by lia.
  pose proof (Z.pow_pos_nonneg 2 a ltac:(lia) ltac:(lia)) as Hpa.
  assert (Hz : - 2 ^ a < 2 * (Z.pos m - N * 2 ^ a) < 2 ^ a).
  { unfold magnitude in Hclose.
    pose proof (bpow_opp 2 ltac:(lia) a) as Hinv. simpl IZR in Hinv.
    replace (- a) with e in Hinv by lia.
    pose proof (pow2_pos e) as Hte. pose proof (pow2_pos a) as Hta.
    assert (Hpow : powerRZ 2 a = IZR (2 ^ a)) by (apply (bpow_IZR 2); lia).
    set (te := powerRZ 2 e) in *. set (ta := powerRZ 2 a) in *.
    assert (Hm : (IZR (Z.pos m) = IZR (Z.pos m) * te * ta)%R).
    { rewrite Rmult_assoc, Hinv. ring. }
    split; apply lt_IZR;
      rewrite ?opp_IZR, mult_IZR, minus_IZR, mult_IZR, <- Hpow; simpl IZR;
      rewrite Hm; nra. }
  replace (1 - e) with (Z.succ a) by lia. rewrite Z.pow_succ_r by lia.
  fold a.
  assert (Hr : (2 * (if neg then Z.neg m else Z.pos m) + 2 ^ a) / (2 * 2 ^ a)
               = if neg then - N else N).
  { destruct neg.
    - symmetry.
      apply (Z.div_unique_pos _ _ _ (2 * Z.neg m + 2 ^ a + N * (2 * 2 ^ a))); lia.
    - symmetry.
      apply (Z.div_unique_pos _ _ _ (2 * Z.pos m + 2 ^ a - N * (2 * 2 ^ a))); lia. }
  rewrite Hr.
  destruct (Z.eqb_spec (if neg then - N else N) 0) as [E|_]; [|reflexivity].
  destruct neg; lia.
Qed.

(** Every positive integer is a number without trailing zero times a
    power of ten. *)
Lemma strip_factor (M : Z) :
  0 < M ->
  exists T (t : nat), M = T * 10 ^ Z.of_nat t /\ T mod 10 <> 0 /\ 0 < T.
Proof.
  intros HM. revert HM. pattern M.
  apply (well_founded_induction (Z.lt_wf 0)). clear M.
  intros M IH HM.
  destruct (Z.eq_dec (M mod 10) 0) as [E|E].
  - pose proof (Z.div_mod M 10 ltac:(lia)) as Hdm.
    destruct (IH (M / 10)) as (T & t & HT & HT10 & HTpos); [lia | lia |].
    exists T, (S t). split; [|split; assumption].
    rewrite Nat2Z.inj_succ, Z.pow_succ_r by lia. lia.
  - exists M, 0%nat. split; [|split; assumption].
    change (10 ^ Z.of_nat 0) with 1. lia.
Qed.

(** ** Scaling a decimal numeral and unscaling it again *)

Lemma of_Z_signed (neg : bool) (N : Z) :
  0 < N -> of_Z (if neg then - N else N) = round_nearest_even neg N 1.
Proof. intros HN. destruct N as [|pN|pN]; try lia. destruct neg; reflexivity. Qed.

Section RoundTrip.

(** The numeral has mantissa [M] and [F] fractional digits; the scale
    factor is [10^K]. *)
Variables (neg : bool) (M : Z) (F : nat) (K : Z).
Hypothesis HFK : Z.of_nat F <= K.
Hypothesis HM : 0 < M.
Hypothesis HN : M * 10 ^ (K - Z.of_nat F) < 10 ^ 15.
Hypothesis Hsmall : 10 ^ Z.of_nat F <= M * 10 ^ 6.

Local Abbreviation N := (M * 10 ^ (K - Z.of_nat F)).
Local Abbreviation r := (ratio M (10 ^ Z.of_nat F)).

Lemma mantissa_bound : M < 10 ^ 15.
Proof.
  pose proof (Z.pow_pos_nonneg 10 (K - Z.of_nat F) ltac:(lia) ltac:(lia)).
  nia.
Qed.

Lemma scaled_pos : 0 < N.
Proof.
  pose proof (Z.pow_pos_nonneg 10 (K - Z.of_nat F) ltac:(lia) ltac:(lia)).
  nia.
Qed.

Lemma scale_exponent_bound : 0 <= K <= 20.
Proof.
  split; [lia|].
  assert (H : 10 ^ K < 10 ^ 21).
  { replace K with (Z.of_nat F + (K - Z.of_nat F)) by lia.
    rewrite Z.pow_add_r by lia.
    pose proof (Z.pow_pos_nonneg 10 (K - Z.of_nat F) ltac:(lia) ltac:(lia)).
    change (10 ^ 21) with (10 ^ 15 * 10 ^ 6). nia. }
  apply Z.pow_lt_mono_r_iff in H; lia.
Qed.

Lemma value_times_denominator : (r * IZR (10 ^ Z.of_nat F) = IZR M)%R.
Proof.
  unfold ratio. field. apply not_0_IZR. pose proof (pow10_nat_pos F). lia.
Qed.

Lemma value_times_scale : (r * IZR (10 ^ K) = IZR N)%R.
Proof.
  rewrite mult_IZR, <- value_times_denominator, Rmult_assoc, <- mult_IZR.
  rewrite <- Z.pow_add_r by lia. do 3 f_equal. lia.
Qed.

Lemma value_bounds : (/ 1000000 <= r < 1000000000000000)%R.
Proof.
  pose proof value_times_denominator as Hr.
  pose proof (pow10_nat_pos F) as HF.
  assert (HF1 : (1 <= IZR (10 ^ Z.of_nat F))%R) by (apply IZR_le; lia).
  pose proof mantissa_bound as HMb. change (10 ^ 15) with 1000000000000000 in HMb.
  assert (HM1 : (IZR M < 1000000000000000)%R) by (apply IZR_lt; lia).
  assert (HM0 : (0 < IZR M)%R) by (apply IZR_lt; lia).
  assert (Hs : (IZR (10 ^ Z.of_nat F) <= IZR M * 1000000)%R).
  { change 1000000%R with (IZR (10 ^ 6)). rewrite <- mult_IZR. apply IZR_le. lia. }
  set (dF := IZR (10 ^ Z.of_nat F)) in *.
  assert (Hr0 : (0 < r)%R).
  { apply ratio_pos; lia. }
  split.
  - apply (Rmult_le_reg_r (1000000 * dF)); [nra|].
    replace (/ 1000000 * (1000000 * dF))%R with dF by field.
    replace (r * (1000000 * dF))%R with ((r * dF) * 1000000)%R by ring.
    rewrite Hr. exact Hs.
  - apply (Rle_lt_trans _ (IZR M)); [|exact HM1]. rewrite <- Hr. nra.
Qed.

(** The parsed numeral: a finite Number within [2^-53] of its value. *)
Lemma parsed_number :
  exists m e,
    round_nearest_even neg M (10 ^ Z.of_nat F) = Finite neg m e
    /\ -1072 <= e
    /\ (- r <= (magnitude (Finite neg m e) - r) * IZR (2 ^ 53) <= r)%R.
Proof.
  pose proof (pow10_nat_pos F) as HF.
  destruct value_bounds as [Hlo Hhi].
  assert (HE : -20 <= floor_log2 M (10 ^ Z.of_nat F) < 50).
  { apply floor_log2_bounds; [lia | lia |].
    cbv [powerRZ Pos.to_nat Pos.iter_op Nat.add pow]. lra. }
  destruct (round_nearest_even_finite neg M (10 ^ Z.of_nat F) HM HF)
    as (m & e & Hrn & He); [lia|].
  exists m, e. split; [exact Hrn|]. split; [exact He|].
  destruct (round_nearest_even_close _ _ _ _ _ _ HM HF Hrn He) as (_ & _ & _ & H).
  exact H.
Qed.

(** [Math.round(parseFloat(d) * 10^K)] is the scaled integer. *)
Lemma scaled_number (m : positive) (e : Z) :
  round_nearest_even neg M (10 ^ Z.of_nat F) = Finite neg m e ->
  -1072 <= e ->
  round (mul (Finite neg m e) (pow10 K)) = of_Z (if neg then - N else N).
Proof.
  intros Hrn He.
  pose proof (pow10_nat_pos F) as HF.
  destruct (round_nearest_even_close _ _ _ _ _ _ HM HF Hrn He)
    as (_ & _ & _ & Hclose).
  destruct (pow10_exact K) as (mK & eK & -> & HeK & HmagK);
    [pose proof scale_exponent_bound; lia|].
  destruct (mul_finite neg false m mK e eK) as (p & q & Hp & Hq & -> & Hy).
  rewrite xorb_false_r. rewrite HmagK in Hy.
  pose proof value_times_scale as HrK.
  pose proof scaled_pos as HNpos. pose proof HN as HNb.
  change (10 ^ 15) with 1000000000000000 in HNb.
  assert (HN0 : (1 <= IZR N)%R) by (apply IZR_le; lia).
  assert (HN1 : (IZR N < 1000000000000000)%R) by (apply IZR_lt; lia).
  assert (HK : (0 < IZR (10 ^ K))%R).
  { apply IZR_lt. apply Z.pow_pos_nonneg; lia. }
  change (2 ^ 53) with 9007199254740992 in *.
  set (x1 := magnitude (Finite neg m e)) in *.
  set (y := ratio p q) in *. set (n := IZR N) in *.
  assert (Hyn : (- n <= (y - n) * 9007199254740992 <= n)%R).
  { rewrite Hy, <- HrK.
    replace ((x1 * IZR (10 ^ K) - r * IZR (10 ^ K)) * 9007199254740992)%R
      with (((x1 - r) * 9007199254740992) * IZR (10 ^ K))%R by ring.
    replace (- (r * IZR (10 ^ K)))%R with ((- r) * IZR (10 ^ K))%R by ring.
    split; apply Rmult_le_compat_r; lra. }
  assert (HE : -1 <= floor_log2 p q < 51).
  { apply floor_log2_bounds; [assumption..|]. fold y.
    cbv [powerRZ Pos.to_nat Pos.iter_op Nat.add pow]. lra. }
  destruct (round_nearest_even_finite neg p q Hp Hq) as (m2 & e2 & Hrn2 & He2);
    [lia|].
  rewrite Hrn2.
  destruct (round_nearest_even_close _ _ _ _ _ _ Hp Hq Hrn2 He2)
    as (_ & He2' & _ & Hclose2).
  fold y in Hclose2. change (2 ^ 53) with 9007199254740992 in Hclose2.
  apply round_near_integer; [lia | exact HNpos |].
  fold n. set (x2 := magnitude (Finite neg m2 e2)) in *. split; lra.
Qed.

(** [N / 10^K] is the parsed numeral again. *)
Lemma unscaled_number :
  div (of_Z (if neg then - N else N)) (pow10 K)
  = round_nearest_even neg M (10 ^ Z.of_nat F).
Proof.
  pose proof scaled_pos as HNpos. pose proof HN as HNb.
  pose proof (pow10_nat_pos F) as HF.
  rewrite of_Z_signed by exact HNpos.
  destruct (of_integer_exact neg N) as (mN & eN & -> & _ & _ & HmagN).
  { change (2 ^ 53) with 9007199254740992.
    change (10 ^ 15) with 1000000000000000 in HNb. lia. }
  destruct (pow10_exact K) as (mK & eK & -> & HeK & HmagK);
    [pose proof scale_exponent_bound; lia|].
  destruct (div_finite neg false mN mK eN eK) as (p & q & Hp & Hq & -> & Hy).
  rewrite xorb_false_r. rewrite HmagK, HmagN in Hy.
  apply round_nearest_even_ext; try assumption.
  apply ratio_eq_cross; [assumption..|].
  pose proof value_times_scale as HrK.
  assert (HK : (0 < IZR (10 ^ K))%R).
  { apply IZR_lt. apply Z.pow_pos_nonneg; lia. }
  apply (Rmult_eq_reg_r (IZR (10 ^ K))); [|lra].
  rewrite Hy, HrK. reflexivity.
Qed.

(** The parsed numeral prints as the canonical numeral. *)
Lemma printed_number (m : positive) (e : Z) :
  round_nearest_even neg M (10 ^ Z.of_nat F) = Finite neg m e ->
  -1072 <= e ->
  toString (Finite neg m e) = canonical_string neg M F.
Proof.
  intros Hrn He.
  pose proof (pow10_nat_pos F) as HF.
  destruct (strip_factor M HM) as (T & t & HMT & HT10 & HTpos).
  destruct (log10_spec T HTpos) as (HL0 & HL1 & HL2).
  set (k := S (Z.to_nat (log10 T))).
  assert (Hk : Z.of_nat k = log10 T + 1) by lia.
  assert (HT : 10 ^ (Z.of_nat k - 1) <= T < 10 ^ Z.of_nat k).
  { rewrite Hk. replace (log10 T + 1 - 1) with (log10 T) by lia. lia. }
  set (nd := Z.of_nat k + Z.of_nat t - Z.of_nat F).
  pose proof (pow10_nat_pos t) as Ht.
  pose proof mantissa_bound as HMb.
  assert (HMlo : 10 ^ (Z.of_nat k - 1 + Z.of_nat t) <= M).
  { rewrite Z.pow_add_r by lia. rewrite HMT. nia. }
  assert (HMhi : M < 10 ^ (Z.of_nat k + Z.of_nat t)).
  { rewrite Z.pow_add_r by lia. rewrite HMT. nia. }
  assert (Hk15 : Z.of_nat k + Z.of_nat t <= 15).
  { assert (H : 10 ^ (Z.of_nat k - 1 + Z.of_nat t) < 10 ^ 15) by lia.
    apply Z.pow_lt_mono_r_iff in H; lia. }
  assert (Hnd : -6 < nd <= 21).
  { split; [|unfold nd; lia].
    assert (H : 10 ^ Z.of_nat F < 10 ^ (Z.of_nat k + Z.of_nat t + 6)).
    { rewrite (Z.pow_add_r _ _ 6) by lia. lia. }
    apply Z.pow_lt_mono_r_iff in H; unfold nd; lia. }
  unfold toString, canonical_string. f_equal.
  rewrite (toString_pos_target (Finite false m e) m e _ _ eq_refl He
             (shl_pos (Z.pos m) e (Pos2Z.is_pos m))
             (shl_pos 1 (- e) Z.lt_0_1)
             (eq_sym (magnitude_ratio false m e))
             T (Z.of_nat k) nd).
  - rewrite Nat2Z.id. rewrite HMT.
    apply (layout_canonical T k t F); [lia | exact HT | exact HT10 | exact Hnd].
  - lia.
  - exact HT.
  - exact HT10.
  - unfold rounds_to.
    pose proof (ratio_scale10 T 1 (nd - Z.of_nat k) ltac:(lia)) as Hs.
    destruct (scale10 T 1 (nd - Z.of_nat k)) as [sp sq].
    destruct Hs as (Hv & Hsq & Hsp).
    rewrite (round_nearest_even_ext false sp sq M (10 ^ Z.of_nat F));
      try (auto; lia).
    + rewrite (round_nearest_even_sign neg false _ _ _ _ Hrn).
      apply number_eqb_refl.
    + apply ratio_eq_cross; [assumption..|].
      rewrite Hv. unfold ratio.
      assert (HF' : (0 < IZR (10 ^ Z.of_nat F))%R) by (apply IZR_lt; lia).
      apply (Rmult_eq_reg_r (IZR (10 ^ Z.of_nat F))); [|lra].
      replace (IZR M / IZR (10 ^ Z.of_nat F) * IZR (10 ^ Z.of_nat F))%R
        with (IZR M) by (field; lra).
      rewrite HMT, mult_IZR, <- !(bpow_IZR 10) by lia.
      replace (IZR T / IZR 1 * powerRZ (IZR 10) (nd - Z.of_nat k)
               * powerRZ (IZR 10) (Z.of_nat F))%R
        with (IZR T * (powerRZ (IZR 10) (nd - Z.of_nat k)
                       * powerRZ (IZR 10) (Z.of_nat F)))%R by (field; lra).
      rewrite <- (bpow_add 10) by lia. do 2 f_equal. unfold nd. lia.
Qed.

End RoundTrip.

Lemma pow10_finite (K : Z) :
  0 <= K <= 308 -> exists m e, pow10 K = Finite false m e.
Proof.
  intros HK. pose proof (pow10_positive_integer K HK) as H.
  unfold is_positive_integer in H.
  destruct (pow10 K) as [| [] | [] | [] m e];
    cbn [isInteger ge_one] in H; rewrite ?andb_false_r in H;
    try discriminate.
  exists m, e. reflexivity.
Qed.

(** C1, as amended.  Let the price scale factor of the symbol be [10^K]
    and [d] a decimal numeral with at most [K] fractional digits (here:
    mantissa [M], [F] fractional digits, sign [neg]) whose scaled value
    [d * 10^K] is an integer below [10^15] in magnitude, and which is
    zero or at least [10^-6] in magnitude.  Then [scalePrice] returns
    that integer, and [unscalePrice] of it returns [d] in canonical form,
    without trailing zeros. *)
Theorem scale_unscale_price_roundtrip (this : ProductInfoCache.t)
    (symbol : string) (info : ProductInfo) (K : Z)
    (neg : bool) (M : Z) (F : nat) :
  get this symbol = Some info ->
  priceScale info = pow10 K ->
  Z.of_nat F <= K <= 308 ->
  0 <= M ->
  (M = 0 -> neg = false) ->
  (M <> 0 -> 10 ^ Z.of_nat F <= M * 10 ^ 6) ->
  M * 10 ^ (K - Z.of_nat F) < 10 ^ 15 ->
  scalePrice this symbol (decimal_string neg M F)
  = Return (of_Z (if neg then - (M * 10 ^ (K - Z.of_nat F))
                  else M * 10 ^ (K - Z.of_nat F)))
  /\ unscalePrice this symbol
       (of_Z (if neg then - (M * 10 ^ (K - Z.of_nat F))
              else M * 10 ^ (K - Z.of_nat F)))
     = Return (canonical_string neg M F).
Proof.
  intros Hget Hscale HK HM0 Hzero Hsmall HN.
  unfold get in Hget. unfold scalePrice, unscalePrice.
  rewrite Hget, Hscale, parseFloat_decimal_string by exact HM0.
  destruct (Z.eqb_spec M 0) as [HMz | HMnz].
  - rewrite (Hzero HMz), HMz. cbn [Z.mul Z.opp of_Z].
    destruct (pow10_finite K ltac:(lia)) as (mK & eK & ->).
    split; [reflexivity|]. cbn [div xorb toString]. f_equal.
    unfold canonical_string.
    rewrite Z.div_0_l, Z.mod_0_l by (apply Z.pow_nonzero; lia).
    rewrite strip_zeros_zero. reflexivity.
  - assert (HM : 0 < M) by lia.
    destruct (parsed_number neg M F K ltac:(lia) HM HN (Hsmall HMnz))
      as (m & e & Hrn & He & _).
    rewrite (unscaled_number neg M F K ltac:(lia) HM HN (Hsmall HMnz)).
    rewrite Hrn.
    rewrite (scaled_number neg M F K ltac:(lia) HM HN (Hsmall HMnz) m e Hrn He).
    rewrite (printed_number neg M F K ltac:(lia) HM HN (Hsmall HMnz) m e Hrn He).
    split; reflexivity.
Qed.

(** ** The round trip, end to end *)

(** C1, as stated, fails in two ways.  "0.00000001" is within the eight
    decimals of sBTCUSDT's price scale [10^8]; it scales to 1, and 1
    unscales to "1e-8", the exponent form [toString] uses below [1e-6].
    And "90000000.00000002", of sixteen significant digits, scales to
    9000000000000001, while 9000000000000002 unscales to
    "90000000.00000001": sixteen digits are more than a Number holds. *)
Lemma unscale_scale_small_price :
  get Fixture.mock_cache "sBTCUSDT"
    = Some {| symbol := "sBTCUSDT"; contractType := spot;
              priceScale := pow10 8; ratioScale := pow10 8;
              valueScale := pow10 8; contractSize := of_Z 1 |}
  /\ scalePrice Fixture.mock_cache "sBTCUSDT" "0.00000001" = Return (of_Z 1)
  /\ unscalePrice Fixture.mock_cache "sBTCUSDT" (of_Z 1) = Return "1e-8"
  /\ "1e-8" <> "0.00000001"
  /\ scalePrice Fixture.mock_cache "sBTCUSDT" "90000000.00000002"
     = Return (of_Z 9000000000000001)
  /\ unscalePrice Fixture.mock_cache "sBTCUSDT" (of_Z 9000000000000002)
     = Return "90000000.00000001".
Proof.
  split; [vm_compute; reflexivity|].
  split; [vm_compute; reflexivity|].
  split; [vm_compute; reflexivity|].
  split; [discriminate|].
  split; vm_compute; reflexivity.
Qed.

(** The instance named in the claim, for any symbol with price scale
    factor 10000. *)
Lemma scale_unscale_price_instance (this : ProductInfoCache.t)
    (symbol : string) (info : ProductInfo) :
  get this symbol = Some info ->
  priceScale info = of_Z 10000 ->
  scalePrice this symbol "50000.5" = Return (of_Z 500005000)
  /\ unscalePrice this symbol (of_Z 500005000) = Return "50000.5".
Proof.
  unfold get, scalePrice, unscalePrice. intros -> ->.
  split; vm_compute; reflexivity.
Qed.

(** Witness of C1: BTCUSD in the fixture, [K = 4], and "50000.5", that
    is mantissa 500005 with one fractional digit. *)
Lemma scale_unscale_price_roundtrip_witness :
  scalePrice Fixture.mock_cache "BTCUSD" "50000.5" = Return (of_Z 500005000)
  /\ unscalePrice Fixture.mock_cache "BTCUSD" (of_Z 500005000)
     = Return "50000.5".
Proof.
  refine (scale_unscale_price_roundtrip Fixture.mock_cache "BTCUSD"
            {| symbol := "BTCUSD"; contractType := inverse;
               priceScale := pow10 4; ratioScale := pow10 8;
               valueScale := pow10 8; contractSize := of_Z 1 |}
            4 false 500005 1 _ _ _ _ _ _ _).
  - vm_compute. reflexivity.
  - reflexivity.
  - simpl. lia.
  - lia.
  - intros H. discriminate H.
  - intros _. simpl. lia.
  - simpl. lia.
Defined.

Import Shape.

(** ** Scaled values have no fractional part *)

Lemma floor_log2_integer (n : Z) : 0 < n -> floor_log2 n 1 = Z.log2 n.
Proof.
  intros Hn. unfold floor_log2, frac_shift, shl.
  change (Z.log2 1) with 0. rewrite Z.sub_0_r.
  pose proof (Z.log2_nonneg n) as Hl.
  rewrite (Z.max_r 0 (Z.log2 n)) by lia.
  rewrite (Z.max_l 0 (- Z.log2 n)) by lia.
  change (2 ^ 0) with 1. rewrite Z.mul_1_r, Z.mul_1_l.
  destruct (Z.log2_spec n Hn) as [H1 _].
  destruct (Z.leb_spec (2 ^ Z.log2 n) n); [reflexivity | lia].
Qed.

(** The Number nearest to a positive integer is an integer or infinite. *)
Lemma round_nearest_even_integer (neg : bool) (n : Z) :
  0 < n -> no_fraction (round_nearest_even neg n 1) = true.
Proof.
  intros Hn. unfold round_nearest_even.
  rewrite (floor_log2_integer n Hn).
  pose proof (Z.log2_nonneg n) as Hl.
  destruct (Z.log2_spec n Hn) as [H1 H2].
  set (L := Z.log2 n) in *.
  rewrite Z.max_l by lia.
  destruct (Z.ltb_spec (L - 52) 0) as [Hneg | Hpos].
  - unfold frac_shift, shl.
    rewrite (Z.max_r 0 (- (L - 52))) by lia.
    rewrite (Z.max_l 0 (L - 52)) by lia.
    change (1 * 2 ^ 0) with 1. rewrite div_half_even_1.
    assert (Hpow : 2 ^ (L + 1) * 2 ^ (- (L - 52)) = 2 ^ 53).
    { rewrite <- Z.pow_add_r by lia. f_equal. lia. }
    assert (Hp : 0 < 2 ^ (- (L - 52))) by (apply Z.pow_pos_nonneg; lia).
    assert (Hlt : n * 2 ^ (- (L - 52)) < 2 ^ 53) by nia.
    destruct (Z.eqb_spec (n * 2 ^ (- (L - 52))) (2 ^ 53)) as [E | _]; [lia|].
    destruct (Z.ltb_spec 971 (L - 52)) as [|_]; [lia|].
    destruct (n * 2 ^ (- (L - 52))) as [|m|m] eqn:Em; try reflexivity.
    cbn [no_fraction isInteger].
    rewrite <- Em, Z.mod_mul by lia. rewrite Z.eqb_refl. apply orb_true_r.
  - destruct (frac_shift n 1 (L - 52)) as [n' d'].
    set (m := div_half_even n' d').
    assert (Hres : forall m' e', 0 <= e' ->
              no_fraction (if 971 <? e' then Infinity neg
                           else match m' with
                                | Z.pos p => Finite neg p e'
                                | _ => Zero neg
                                end) = true).
    { intros m' e' He'. destruct (971 <? e'); [reflexivity|].
      destruct m'; try reflexivity. cbn [no_fraction isInteger].
      destruct (Z.leb_spec 0 e'); [reflexivity | lia]. }
    destruct (m =? 2 ^ 53); apply Hres; lia.
Qed.

Lemma of_Z_no_fraction (z : Z) : no_fraction (of_Z z) = true.
Proof.
  destruct z as [|p|p]; [reflexivity | |];
    apply round_nearest_even_integer; lia.
Qed.

(** [Math.round] never returns a Number with a fractional part. *)
Lemma round_no_fraction (x : number) : no_fraction (round x) = true.
Proof.
  destruct x as [| s | s | s m e]; try reflexivity.
  cbn [round]. destruct (Z.leb_spec 0 e) as [He | He].
  - cbn [no_fraction isInteger]. destruct (Z.leb_spec 0 e); [reflexivity | lia].
  - destruct (_ =? 0); [reflexivity | apply of_Z_no_fraction].
Qed.

(** X1. The four scaling methods return a Number without a fractional part,
    whatever the decimal string and the scale factor: an integer, or
    [NaN] or an infinity when the input or the factor is not finite. *)
Theorem scaled_value_has_no_fraction (this : ProductInfoCache.t)
    (name decimal : string) (y : number) :
  scalePrice this name decimal = Return y
  \/ scaleRatio this name decimal = Return y
  \/ scaleValue this name decimal = Return y
  \/ scaleCurrencyAmount this name decimal = Return y ->
  no_fraction y = true.
Proof.
  unfold scalePrice, scaleRatio, scaleValue, scaleCurrencyAmount.
  intros [H | [H | [H | H]]];
    [destruct (cache this !! name) | destruct (cache this !! name)
     | destruct (cache this !! name) | destruct (currencyScales this !! name)];
    try discriminate; injection H as <-; apply round_no_fraction.
Qed.

Lemma scaled_value_has_no_fraction_witness :
  no_fraction (of_Z 721) = true.
Proof.
  apply (scaled_value_has_no_fraction Fixture.mock_cache "BTCUSD" "0.07205").
  left. vm_compute. reflexivity.
Defined.

(** ** Exact scaling of decimal numerals *)

(** [Math.round(parseFloat(d) * 10^K)] for a decimal numeral [d] with
    mantissa [M] and [F <= K] fractional digits, when the scaled integer
    is below [10^15] and [d] is zero or at least [10^-6]: the scaled
    integer, exactly. *)
Lemma scaled_decimal_exact (K : Z) (neg : bool) (M : Z) (F : nat) :
  Z.of_nat F <= K <= 308 ->
  0 <= M ->
  (M = 0 -> neg = false) ->
  (M <> 0 -> 10 ^ Z.of_nat F <= M * 10 ^ 6) ->
  M * 10 ^ (K - Z.of_nat F) < 10 ^ 15 ->
  round (mul (parseFloat (decimal_string neg M F)) (pow10 K))
  = of_Z (if neg then - (M * 10 ^ (K - Z.of_nat F))
          else M * 10 ^ (K - Z.of_nat F)).
Proof.
  intros HK HM0 Hzero Hsmall HN.
  rewrite parseFloat_decimal_string by exact HM0.
  destruct (Z.eqb_spec M 0) as [HMz | HMnz].
  - rewrite (Hzero HMz), HMz. cbn [Z.mul Z.opp of_Z].
    destruct (pow10_finite K ltac:(lia)) as (mK & eK & ->). reflexivity.
  - assert (HM : 0 < M) by lia.
    destruct (parsed_number neg M F K ltac:(lia) HM HN (Hsmall HMnz))
      as (m & e & Hrn & He & _).
    rewrite Hrn.
    exact (scaled_number neg M F K ltac:(lia) HM HN (Hsmall HMnz) m e Hrn He).
Qed.

(** [(N / 10^K).toString()] for the scaled integer [N] of such a
    numeral: the numeral in canonical form. *)
Lemma unscaled_decimal_canonical (K : Z) (neg : bool) (M : Z) (F : nat) :
  Z.of_nat F <= K <= 308 ->
  0 <= M ->
  (M = 0 -> neg = false) ->
  (M <> 0 -> 10 ^ Z.of_nat F <= M * 10 ^ 6) ->
  M * 10 ^ (K - Z.of_nat F) < 10 ^ 15 ->
  toString (div (of_Z (if neg then - (M * 10 ^ (K - Z.of_nat F))
                       else M * 10 ^ (K - Z.of_nat F))) (pow10 K))
  = canonical_string neg M F.
Proof.
  intros HK HM0 Hzero Hsmall HN.
  destruct (Z.eq_dec M 0) as [HMz | HMnz].
  - rewrite (Hzero HMz), HMz. cbn [Z.mul Z.opp of_Z].
    destruct (pow10_finite K ltac:(lia)) as (mK & eK & ->).
    cbn [div xorb toString]. unfold canonical_string.
    rewrite Z.div_0_l, Z.mod_0_l by (apply Z.pow_nonzero; lia).
    rewrite strip_zeros_zero. reflexivity.
  - assert (HM : 0 < M) by lia.
    destruct (parsed_number neg M F K ltac:(lia) HM HN (Hsmall HMnz))
      as (m & e & Hrn & He & _).
    rewrite (unscaled_number neg M F K ltac:(lia) HM HN (Hsmall HMnz)).
    rewrite Hrn.
    exact (printed_number neg M F K ltac:(lia) HM HN (Hsmall HMnz) m e Hrn He).
Qed.

(** X2. Round trip of currency amounts.  Let the scale of the currency be
    [10^K] and [d] a decimal numeral with at most [K] fractional digits
    whose scaled value is an integer below [10^15] and which is zero or
    at least [10^-6].  Then [scaleCurrencyAmount] returns that integer,
    and [unscaleCurrencyAmount] of it returns [d] without trailing
    zeros. *)
Theorem currency_amount_roundtrip (this : ProductInfoCache.t)
    (currency : string) (K : Z) (neg : bool) (M : Z) (F : nat) :
  currencyScales this !! currency = Some (pow10 K) ->
  Z.of_nat F <= K <= 308 ->
  0 <= M ->
  (M = 0 -> neg = false) ->
  (M <> 0 -> 10 ^ Z.of_nat F <= M * 10 ^ 6) ->
  M * 10 ^ (K - Z.of_nat F) < 10 ^ 15 ->
  scaleCurrencyAmount this currency (decimal_string neg M F)
  = Return (of_Z (if neg then - (M * 10 ^ (K - Z.of_nat F))
                  else M * 10 ^ (K - Z.of_nat F)))
  /\ unscaleCurrencyAmount this currency
       (of_Z (if neg then - (M * 10 ^ (K - Z.of_nat F))
              else M * 10 ^ (K - Z.of_nat F)))
     = Return (canonical_string neg M F).
Proof.
  intros Hget HK HM0 Hzero Hsmall HN.
  unfold scaleCurrencyAmount, unscaleCurrencyAmount. rewrite Hget.
  rewrite scaled_decimal_exact, unscaled_decimal_canonical by assumption.
  split; reflexivity.
Qed.

(** The fixture's BTC, scale [10^8]: "1.50" scales to 150000000, which
    unscales to "1.5". *)
Lemma currency_amount_roundtrip_witness :
  scaleCurrencyAmount Fixture.mock_cache "BTC" "1.50" = Return (of_Z 150000000)
  /\ unscaleCurrencyAmount Fixture.mock_cache "BTC" (of_Z 150000000)
     = Return "1.5".
Proof.
  refine (currency_amount_roundtrip Fixture.mock_cache "BTC" 8 false 150 2
            _ _ _ _ _ _).
  - vm_compute. reflexivity.
  - simpl. lia.
  - lia.
  - intros [=].
  - intros _. simpl. lia.
  - simpl. lia.
Defined.

(** X3. Ratios and values scale exactly: for a symbol whose ratio (value)
    scale is [10^K] and a decimal numeral as above, [scaleRatio]
    ([scaleValue]) returns the scaled integer. *)
Theorem ratio_and_value_scale_exactly (this : ProductInfoCache.t)
    (symbol : string) (info : ProductInfo) (K : Z)
    (neg : bool) (M : Z) (F : nat) :
  get this symbol = Some info ->
  Z.of_nat F <= K <= 308 ->
  0 <= M ->
  (M = 0 -> neg = false) ->
  (M <> 0 -> 10 ^ Z.of_nat F <= M * 10 ^ 6) ->
  M * 10 ^ (K - Z.of_nat F) < 10 ^ 15 ->
  (ratioScale info = pow10 K ->
   scaleRatio this symbol (decimal_string neg M F)
   = Return (of_Z (if neg then - (M * 10 ^ (K - Z.of_nat F))
                   else M * 10 ^ (K - Z.of_nat F))))
  /\ (valueScale info = pow10 K ->
      scaleValue this symbol (decimal_string neg M F)
      = Return (of_Z (if neg then - (M * 10 ^ (K - Z.of_nat F))
                      else M * 10 ^ (K - Z.of_nat F)))).
Proof.
  intros Hget HK HM0 Hzero Hsmall HN. unfold get in Hget.
  unfold scaleRatio, scaleValue. rewrite Hget.
  split; intros ->; rewrite scaled_decimal_exact by assumption; reflexivity.
Qed.

(** The fixture's spot symbol, value scale [10^8]: a quantity of
    "0.015" scales to 1500000. *)
Lemma ratio_and_value_scale_exactly_witness :
  scaleValue Fixture.mock_cache "sBTCUSDT" "0.015" = Return (of_Z 1500000).
Proof.
  refine (proj2 (ratio_and_value_scale_exactly Fixture.mock_cache "sBTCUSDT"
                   _ 8 false 15 3 _ _ _ _ _ _) _).
  - vm_compute. reflexivity.
  - simpl. lia.
  - lia.
  - intros [=].
  - intros _. simpl. lia.
  - simpl. lia.
  - vm_compute. reflexivity.
Defined.
Import Provenance.

(** ** What a successful [init] stores *)

Lemma fold_left_map_Forall {A V : Type} (P : string -> V -> Prop)
    (f : gmap string V -> A -> gmap string V) (l : list A)
    (m : gmap string V) :
  (forall m' a, In a l -> map_Forall P m' -> map_Forall P (f m' a)) ->
  map_Forall P m -> map_Forall P (fold_left f l m).
Proof.
  revert m. induction l as [|a l IH]; simpl; intros m Hstep Hm.
  - exact Hm.
  - apply IH.
    + intros m' a' Ha'. apply Hstep. right. exact Ha'.
    + apply Hstep; [left; reflexivity | exact Hm].
Qed.

(** X4. Every entry of the cache after a successful [init] is stored under
    its own symbol and was built from a listed record of the payload
    with that symbol; its contract type is the one of the record's
    kind.  Records that are not listed leave no entry. *)
Theorem init_stores_only_listed_records (url : string) (data : Payload)
    (s : string) (info : ProductInfo) :
  get (init (new url) (Body 0 data)) s = Some info ->
  from_listed_record data s info.
Proof.
  unfold get. simpl. revert s info.
  change (map_Forall (from_listed_record data)
            (fold_left add_productV2 (or_empty (perpProductsV2 data))
               (fold_left
                  (add_product
                     (fold_left add_currency (or_empty (currencies data)) ∅))
                  (or_empty (products data)) ∅))).
  apply fold_left_map_Forall.
  - intros m p Hp Hm. unfold add_productV2.
    destruct (String.eqb_spec (rv_status p) "Listed") as [Hl|]; [|exact Hm].
    apply map_Forall_insert_2; [|exact Hm].
    split; [reflexivity|]. left. split; [reflexivity|].
    exists p. auto.
  - apply fold_left_map_Forall; [|apply map_Forall_empty].
    intros m p Hp Hm. unfold add_product.
    destruct (String.eqb_spec (rp_status p) "Listed") as [Hl|]; [|exact Hm].
    cbn [negb].
    destruct (String.eqb_spec (rp_type p) "Perpetual") as [Ht|_].
    + apply map_Forall_insert_2; [|exact Hm].
      split; [reflexivity|]. right. exists p. auto 10.
    + destruct (String.eqb_spec (rp_type p) "Spot") as [Ht|_]; [|exact Hm].
      apply map_Forall_insert_2; [|exact Hm].
      split; [reflexivity|]. right. exists p. auto 10.
Qed.

(** The fixture: BTCUSD is an inverse entry. *)
Lemma init_stores_only_listed_records_witness :
  exists info, from_listed_record Fixture.mock_data "BTCUSD" info
               /\ contractType info = inverse.
Proof.
  eexists. split.
  - apply (init_stores_only_listed_records "https://api.phemex.com").
    vm_compute. reflexivity.
  - reflexivity.
Defined.












(** ** More on response conversion *)

Lemma no_scaled_number_put_key (k : string) (v : json)
    (obj : list (string * json)) :
  is_scaled_field k v = false -> no_scaled_number v = true ->
  no_scaled_number (VObject obj) = true ->
  no_scaled_number (VObject (put_key k v obj)) = true.
Proof.
  intros Hk Hv. cbn [no_scaled_number].
  induction obj as [|[k' v'] obj IH]; cbn [put_key forallb fst snd].
  - intros _. rewrite Hk, Hv. reflexivity.
  - intros H. apply andb_prop in H as [H1 H2].
    destruct (String.eqb k' k); cbn [forallb fst snd].
    + rewrite Hk, Hv, H2. reflexivity.
    + rewrite H1. exact (IH H2).
Qed.

Lemma no_scaled_number_set_key (k : string) (v : json)
    (obj : list (string * json)) :
  is_scaled_field k v = false -> no_scaled_number v = true ->
  no_scaled_number (VObject obj) = true ->
  no_scaled_number (VObject (set_key k v obj)) = true.
Proof.
  intros Hk Hv Hobj. unfold set_key.
  destruct (String.eqb k "__proto__");
    [exact Hobj | apply no_scaled_number_put_key; assumption].
Qed.

Lemma is_scaled_field_string (k s : string) :
  is_scaled_field k (VString s) = false.
Proof. unfold is_scaled_field. apply andb_false_r. Qed.

Lemma convert_entry_no_scaled_number (info : ProductInfo)
    (convert : json -> json) (obj result : list (string * json))
    (key : string) (value : json) :
  (is_object value = true ->
   is_number (convert value) = false
   /\ no_scaled_number (convert value) = true) ->
  no_scaled_number (VObject result) = true ->
  no_scaled_number (VObject (convert_entry info convert obj result key value))
  = true.
Proof.
  intros Hconv Hres. unfold convert_entry.
  assert (Hs : forall scale,
             is_number value = true ->
             no_scaled_number
               (VObject (set_key (slice_0_m2 key) (unscaled value scale) result))
             = true).
  { intros scale Hnum. destruct value; try discriminate. cbn [unscaled].
    apply no_scaled_number_set_key;
      [apply is_scaled_field_string | reflexivity | exact Hres]. }
  destruct (endsWith key "Ep" && is_number value) eqn:E1.
  { apply Hs. apply andb_prop in E1 as [_ H]. exact H. }
  destruct (endsWith key "Er" && is_number value) eqn:E2.
  { apply Hs. apply andb_prop in E2 as [_ H]. exact H. }
  destruct (endsWith key "Ev" && is_number value) eqn:E3.
  { apply Hs. apply andb_prop in E3 as [_ H]. exact H. }
  destruct (has_scaled_sibling key obj); [exact Hres|].
  assert (Hplain : is_scaled_field key value = false).
  { unfold is_scaled_field. destruct (is_number value).
    - rewrite andb_true_r in *. rewrite E1, E2, E3. reflexivity.
    - apply andb_false_r. }
  destruct (is_object value) eqn:Hobj.
  - destruct (Hconv eq_refl) as [Hn Hc].
    apply no_scaled_number_set_key; [|exact Hc | exact Hres].
    unfold is_scaled_field. rewrite Hn. apply andb_false_r.
  - apply no_scaled_number_set_key; [exact Hplain | | exact Hres].
    destruct value; try reflexivity; discriminate.
Qed.

Lemma convert_entries_no_scaled_number (info : ProductInfo)
    (convert : json -> json) (obj entries result : list (string * json)) :
  (forall key value, In (key, value) entries ->
     is_object value = true ->
     is_number (convert value) = false
     /\ no_scaled_number (convert value) = true) ->
  no_scaled_number (VObject result) = true ->
  no_scaled_number (VObject (convert_entries info convert obj entries result))
  = true.
Proof.
  revert result.
  induction entries as [|[key value] entries IH]; cbn [convert_entries];
    intros result Hconv Hres.
  - exact Hres.
  - apply IH.
    + intros k v Hin. apply (Hconv k v). right. exact Hin.
    + apply convert_entry_no_scaled_number; [|exact Hres].
      apply (Hconv key value). left. reflexivity.
Qed.

Lemma convertResponse_no_scaled_number (this : ProductInfoCache.t)
    (symbol : string) (info : ProductInfo) :
  cache this !! symbol = Some info ->
  forall data, no_scaled_number (convertResponse this symbol data) = true.
Proof.
  intros Hget.
  fix IH 1. intros [| | b | x | s | items | obj]; try reflexivity.
  - cbn [convertResponse no_scaled_number].
    induction items as [|item items IHitems]; cbn [map forallb].
    + reflexivity.
    + rewrite IH. exact IHitems.
  - cbn [convertResponse]. rewrite Hget.
    apply convert_entries_no_scaled_number; [|reflexivity].
    assert (Hall : Forall (fun kv => no_scaled_number
                                       (convertResponse this symbol (snd kv))
                                     = true) obj).
    { induction obj as [|[k v] obj IHobj]; constructor;
        [apply IH | exact IHobj]. }
    rewrite List.Forall_forall in Hall.
    intros key value Hin Hobj. split; [|exact (Hall (key, value) Hin)].
    destruct value; try discriminate Hobj; cbn [convertResponse];
      [reflexivity | rewrite Hget; reflexivity].
Qed.

(** X8. For a symbol of the cache, the converted response holds no number
    under a key ending in Ep, Er or Ev, at any depth: every scaled
    number has been replaced by a decimal string under the base name. *)
Theorem convertResponse_leaves_no_scaled_number (this : ProductInfoCache.t)
    (symbol : string) (info : ProductInfo) (data : json) :
  get this symbol = Some info ->
  no_scaled_number (convertResponse this symbol data) = true.
Proof.
  unfold get. intros Hget.
  exact (convertResponse_no_scaled_number this symbol info Hget data).
Qed.

(** An order of the fixture's BTCUSD with a nested fill. *)
Lemma convertResponse_leaves_no_scaled_number_witness :
  no_scaled_number
    (convertResponse Fixture.mock_cache "BTCUSD"
       (VObject [("priceEp", VNumber (of_Z 500005000));
                 ("fills", VArray [VObject [("execPriceEp", VNumber (of_Z 1))]])]))
  = true.
Proof.
  apply (convertResponse_leaves_no_scaled_number Fixture.mock_cache "BTCUSD"
           {| symbol := "BTCUSD"; contractType := inverse;
              priceScale := pow10 4; ratioScale := pow10 8;
              valueScale := pow10 8; contractSize := of_Z 1 |}).
  vm_compute. reflexivity.
Defined.

Lemma has_key_In (k : string) (v : json) (obj : list (string * json)) :
  In (k, v) obj -> has_key k obj = true.
Proof.
  induction obj as [|[k' v'] obj IH]; cbn [In has_key]; intros H.
  - destruct H.
  - destruct H as [H | H].
    + injection H as -> _. rewrite String.eqb_refl. reflexivity.
    + rewrite (IH H). destruct (String.eqb k' k); reflexivity.
Qed.

Lemma has_scaled_sibling_In (k suffix : string) (v : json)
    (obj : list (string * json)) :
  In suffix ["Ep"; "Er"; "Ev"] -> In (k +:+ suffix, v) obj ->
  has_scaled_sibling k obj = true.
Proof.
  intros Hs Hin. apply has_key_In in Hin. unfold has_scaled_sibling.
  simpl in Hs. destruct Hs as [<- | [<- | [<- | []]]]; rewrite Hin;
    rewrite ?orb_true_r; reflexivity.
Qed.

Lemma get_key_set_key_eq (k : string) (v : json) (obj : list (string * json)) :
  k <> "__proto__" -> get_key k (set_key k v obj) = Some v.
Proof.
  intros Hk. unfold set_key.
  destruct (String.eqb_spec k "__proto__"); [contradiction|].
  rewrite get_key_put_key, String.eqb_refl. reflexivity.
Qed.

Lemma get_key_set_key_ne (k k' : string) (v : json)
    (obj : list (string * json)) :
  k' <> k -> get_key k (set_key k' v obj) = get_key k obj.
Proof.
  intros Hne. destruct (get_key_set_key k k' v obj) as [H | [H _]];
    [exact H | contradiction].
Qed.

(** An entry that is neither [k] nor a scaled sibling of [k] does not
    touch what the result holds under [k]. *)
Lemma convert_entry_other (info : ProductInfo) (convert : json -> json)
    (obj result : list (string * json)) (k key : string) (value : json) :
  key <> k ->
  (forall suffix, In suffix ["Ep"; "Er"; "Ev"] -> key <> k +:+ suffix) ->
  get_key k (convert_entry info convert obj result key value)
  = get_key k result.
Proof.
  intros Hne Hsuf. unfold convert_entry.
  assert (Hs : forall c1 c2 v,
             In (String c1 (String c2 "")) ["Ep"; "Er"; "Ev"] ->
             endsWith key (String c1 (String c2 "")) = true ->
             get_key k (set_key (slice_0_m2 key) v result) = get_key k result).
  { intros c1 c2 v Hin Hend. apply get_key_set_key_ne. intros Hk.
    apply (Hsuf _ Hin). rewrite <- Hk. apply endsWith_slice, Hend. }
  destruct (endsWith key "Ep" && is_number value) eqn:E1.
  { apply andb_prop in E1 as [E1 _]. apply (Hs "E" "p")%char; simpl; auto. }
  destruct (endsWith key "Er" && is_number value) eqn:E2.
  { apply andb_prop in E2 as [E2 _]. apply (Hs "E" "r")%char; simpl; auto. }
  destruct (endsWith key "Ev" && is_number value) eqn:E3.
  { apply andb_prop in E3 as [E3 _]. apply (Hs "E" "v")%char; simpl; auto. }
  destruct (has_scaled_sibling key obj); [reflexivity|].
  destruct (is_object value); apply get_key_set_key_ne, Hne.
Qed.

Lemma convert_entries_other (info : ProductInfo) (convert : json -> json)
    (obj entries result : list (string * json)) (k : string) :
  Forall (fun kv => fst kv <> k
                    /\ forall suffix, In suffix ["Ep"; "Er"; "Ev"] ->
                                      fst kv <> k +:+ suffix) entries ->
  get_key k (convert_entries info convert obj entries result)
  = get_key k result.
Proof.
  intros Hall. revert result.
  induction Hall as [|[key value] entries [H1 H2] _ IH]; cbn [convert_entries];
    intros result.
  - reflexivity.
  - rewrite IH. apply convert_entry_other; assumption.
Qed.

(** X9. A field that is not a scaled number and has no scaled sibling goes
    through under its own name: a primitive value as it is, an object or
    array converted in turn.  The keys of an object are distinct; the
    name [__proto__] is left aside, which assignment does not create. *)
Theorem convertResponse_keeps_plain_field (this : ProductInfoCache.t)
    (symbol : string) (info : ProductInfo) (obj : list (string * json))
    (k : string) (v : json) :
  get this symbol = Some info ->
  List.NoDup (map fst obj) ->
  In (k, v) obj ->
  is_scaled_field k v = false ->
  has_scaled_sibling k obj = false ->
  k <> "__proto__" ->
  property (convertResponse this symbol (VObject obj)) k
  = Some (if is_object v then convertResponse this symbol v else v).
Proof.
  intros Hget Hnodup Hin Hplain Hsib Hproto.
  rewrite (convertResponse_object _ _ _ _ Hget). cbn [property].
  assert (Hothers : Forall (fun kv => (kv = (k, v) \/ fst kv <> k)
                      /\ forall suffix, In suffix ["Ep"; "Er"; "Ev"] ->
                                        fst kv <> k +:+ suffix) obj).
  { apply List.Forall_forall. intros [k' v'] Hin'. cbn [fst]. split.
    - destruct (String.eq_dec k' k) as [-> | Hne]; [left | right; exact Hne].
      f_equal. clear - Hnodup Hin Hin'.
      induction obj as [|[k0 v0] obj IH]; [destruct Hin|].
      cbn [map fst] in Hnodup.
      apply List.NoDup_cons_iff in Hnodup as [Hnotin Hnodup].
      assert (Hfst : forall w, In (k, w) obj -> In k (map fst obj)).
      { intros w Hw. apply (in_map fst) in Hw. exact Hw. }
      destruct Hin as [Hin | Hin], Hin' as [Hin' | Hin'].
      + congruence.
      + exfalso. apply Hnotin. injection Hin as -> _. apply (Hfst _ Hin').
      + exfalso. apply Hnotin. injection Hin' as -> _. apply (Hfst _ Hin).
      + apply IH; assumption.
    - intros suffix Hs ->.
      rewrite (has_scaled_sibling_In k suffix v' obj Hs Hin') in Hsib.
      discriminate. }
  clear Hnodup.
  assert (Hgen : forall entries result,
             Forall (fun kv => (kv = (k, v) \/ fst kv <> k)
                      /\ forall suffix, In suffix ["Ep"; "Er"; "Ev"] ->
                                        fst kv <> k +:+ suffix) entries ->
             In (k, v) entries
             \/ get_key k result
                = Some (if is_object v then convertResponse this symbol v else v) ->
             get_key k (convert_entries info (convertResponse this symbol)
                          obj entries result)
             = Some (if is_object v then convertResponse this symbol v else v)).
  { intros entries. induction entries as [|[key value] entries IH];
      cbn [convert_entries]; intros result Hall Hres.
    - destruct Hres as [[] | Hres]. exact Hres.
    - apply Forall_cons in Hall as [[Hhead Hsuf] Hall]. cbn [fst] in *.
      apply IH; [exact Hall|].
      destruct Hhead as [[= -> ->] | Hne].
      + right. unfold convert_entry.
        unfold is_scaled_field in Hplain. rewrite Hsib.
        assert (E : forall suf, endsWith k suf && is_number v
                                = (endsWith k suf && is_number v)) by reflexivity.
        destruct (is_number v).
        * rewrite andb_true_r in Hplain.
          apply orb_false_elim in Hplain as [Hplain E3].
          apply orb_false_elim in Hplain as [E1 E2].
          rewrite E1, E2, E3. cbn [andb].
          destruct (is_object v); apply get_key_set_key_eq, Hproto.
        * rewrite !andb_false_r.
          destruct (is_object v); apply get_key_set_key_eq, Hproto.
      + destruct Hres as [[[= Hk _] | Hin'] | Hres].
        * contradiction.
        * left. exact Hin'.
        * right. rewrite convert_entry_other; assumption. }
  apply Hgen; [exact Hothers | left; exact Hin].
Qed.

(** The fixture's BTCUSD: [side] goes through beside a converted price. *)
Lemma convertResponse_keeps_plain_field_witness :
  property
    (convertResponse Fixture.mock_cache "BTCUSD"
       (VObject [("priceEp", VNumber (of_Z 500005000));
                 ("side", VString "Buy")]))
    "side" = Some (VString "Buy").
Proof.
  refine (convertResponse_keeps_plain_field Fixture.mock_cache "BTCUSD" _
            [("priceEp", VNumber (of_Z 500005000)); ("side", VString "Buy")]
            "side" (VString "Buy") _ _ _ _ _ _).
  - vm_compute. reflexivity.
  - simpl. repeat (apply List.NoDup_cons; [simpl; intros H|]);
      [destruct H as [H | []]; discriminate H | destruct H | apply List.NoDup_nil].
  - simpl. auto.
  - reflexivity.
  - reflexivity.
  - discriminate.
Defined.

Lemma slice_0_m2_app (k : string) (c1 c2 : ascii) :
  slice_0_m2 (k +:+ String c1 (String c2 "")) = k.
Proof.
  unfold slice_0_m2. apply substring_prefix.
  rewrite string_length_app. simpl. lia.
Qed.

(** What the result holds under a name is never taken away again. *)
Lemma convert_entry_keeps_key (info : ProductInfo) (convert : json -> json)
    (obj result : list (string * json)) (k key : string) (value : json) :
  get_key k result <> None ->
  get_key k (convert_entry info convert obj result key value) <> None.
Proof.
  intros Hres. unfold convert_entry.
  assert (Hset : forall k' v, get_key k (set_key k' v result) <> None).
  { intros k' v. destruct (get_key_set_key k k' v result) as [-> | [_ ->]];
      [exact Hres | discriminate]. }
  repeat match goal with
         | |- context [if ?b then _ else _] => destruct b
         end; auto.
Qed.

Lemma convert_entries_keeps_key (info : ProductInfo) (convert : json -> json)
    (obj entries result : list (string * json)) (k : string) :
  get_key k result <> None ->
  get_key k (convert_entries info convert obj entries result) <> None.
Proof.
  revert result.
  induction entries as [|[key value] entries IH]; cbn [convert_entries];
    intros result Hres.
  - exact Hres.
  - apply IH, convert_entry_keeps_key, Hres.
Qed.

(** X10. A scaled number is converted with the factor of its suffix and put
    under the base name: if [k+suffix] holds the number [x] and is the
    only numeric scaled sibling of [k], the output holds
    [(x / scale).toString()] under [k], where [scale] is the price scale
    for Ep, the ratio scale for Er and the value scale for Ev; a plain
    field [k] of the input does not show.  The name [__proto__] is left
    aside, which assignment does not create. *)
Theorem convertResponse_converts_scaled_field (this : ProductInfoCache.t)
    (symbol : string) (info : ProductInfo) (obj : list (string * json))
    (k suffix : string) (scale x : number) :
  get this symbol = Some info ->
  In (suffix, scale)
    [("Ep", priceScale info); ("Er", ratioScale info); ("Ev", valueScale info)] ->
  In (k +:+ suffix, VNumber x) obj ->
  (forall suffix' x',
     In suffix' ["Ep"; "Er"; "Ev"] -> In (k +:+ suffix', VNumber x') obj ->
     suffix' = suffix /\ x' = x) ->
  k <> "__proto__" ->
  property (convertResponse this symbol (VObject obj)) k
  = Some (VString (toString (div x scale))).
Proof.
  intros Hget Hscale Hin Honly Hproto.
  assert (Hsuffix : In suffix ["Ep"; "Er"; "Ev"]).
  { simpl in Hscale. simpl.
    destruct Hscale as [[= <- _] | [[= <- _] | [[= <- _] | []]]]; auto. }
  pose proof (has_scaled_sibling_In k suffix _ obj Hsuffix Hin) as Hsib.
  rewrite (convertResponse_object _ _ _ _ Hget). cbn [property].
  destruct (get_key k (convert_entries info (convertResponse this symbol)
                         obj obj [])) as [w|] eqn:Hw.
  - destruct (convert_entries_at_k info (convertResponse this symbol) obj k
                Hsib obj [] w) as (suffix' & scale' & x' & Hs' & Hin' & ->);
      [auto | discriminate | exact Hw |].
    assert (Hsuffix' : In suffix' ["Ep"; "Er"; "Ev"]).
    { simpl in Hs'. simpl.
      destruct Hs' as [[= <- _] | [[= <- _] | [[= <- _] | []]]]; auto. }
    destruct (Honly suffix' x' Hsuffix' Hin') as [-> ->].
    repeat f_equal. simpl in Hscale, Hs'.
    destruct Hscale as [[= <- <-] | [[= <- <-] | [[= <- <-] | []]]];
      destruct Hs' as [[= <-] | [[= <-] | [[= <-] | []]]]; reflexivity.
  - exfalso. revert Hw.
    destruct (in_split _ _ Hin) as (l1 & l2 & Hobj).
    rewrite Hobj at 2. rewrite convert_entries_app. cbn [convert_entries].
    apply convert_entries_keeps_key.
    set (result := convert_entries info (convertResponse this symbol) obj l1 []).
    assert (Hany : forall c1 c2 v,
               get_key k (set_key (slice_0_m2 (k +:+ String c1 (String c2 "")))
                            v result) <> None).
    { intros c1 c2 v. rewrite slice_0_m2_app.
      rewrite get_key_set_key_eq by exact Hproto. discriminate. }
    unfold convert_entry. cbn [is_number]. rewrite !andb_true_r.
    simpl in Hsuffix.
    destruct Hsuffix as [<- | [<- | [<- | []]]]; rewrite endsWith_app.
    + apply Hany.
    + destruct (endsWith (k +:+ "Er") "Ep"); apply Hany.
    + destruct (endsWith (k +:+ "Ev") "Ep"); [apply Hany|].
      destruct (endsWith (k +:+ "Ev") "Er"); apply Hany.
Qed.

(** The fixture's BTCUSD, ratio scale [10^8]. *)
Lemma convertResponse_converts_scaled_field_witness :
  property
    (convertResponse Fixture.mock_cache "BTCUSD"
       (VObject [("leverageEr", VNumber (of_Z 2000000000));
                 ("side", VString "Buy")]))
    "leverage" = Some (VString "20").
Proof.
  etransitivity.
  - apply (convertResponse_converts_scaled_field Fixture.mock_cache "BTCUSD"
             {| symbol := "BTCUSD"; contractType := inverse;
                priceScale := pow10 4; ratioScale := pow10 8;
                valueScale := pow10 8; contractSize := of_Z 1 |}
             [("leverageEr", VNumber (of_Z 2000000000)); ("side", VString "Buy")]
             "leverage" "Er" (pow10 8) (of_Z 2000000000)).
    + vm_compute. reflexivity.
    + simpl. auto.
    + simpl. auto.
    + intros suffix' x' Hs Hin. cbn [In] in Hs, Hin.
      assert (Hkey : "leverage" +:+ suffix' = "leverageEr"
                     /\ x' = of_Z 2000000000).
      { destruct Hin as [H | [H | []]].
        - split; [exact (f_equal fst (eq_sym H))|].
          exact (f_equal (fun kv => match snd kv with
                                    | VNumber y => y
                                    | _ => x'
                                    end) (eq_sym H)).
        - apply (f_equal fst) in H. cbn [fst] in H.
          destruct Hs as [<- | [<- | [<- | []]]]; discriminate H. }
      destruct Hkey as [Hkey ->].
      destruct Hs as [<- | [<- | [<- | []]]]; try discriminate Hkey.
      split; reflexivity.
    + discriminate.
  - vm_compute. reflexivity.
Defined.
Import JSGlobal CliParser ParamHelpers PhemexClient Arguments.

(** ** Numerals read by [Number] *)

Lemma is_digit_cases (c : ascii) :
  is_digit c = true ->
  In c ["0"; "1"; "2"; "3"; "4"; "5"; "6"; "7"; "8"; "9"]%char.
Proof.
  destruct c as [[] [] [] [] [] [] [] []]; try discriminate;
    intros _; simpl; auto 12.
Qed.

Lemma strip_one_numeral (c : ascii) (r : string) :
  is_digit c = true \/ c = "-"%char ->
  strip_one white_space (String c r) = None
  /\ strip_one (map string_rev white_space) (String c r) = None.
Proof.
  intros [H | ->]; [apply is_digit_cases in H; simpl in H|split; reflexivity].
  repeat (destruct H as [<- | H]; [split; reflexivity|]). destruct H.
Qed.

Lemma strip_all_numeral (fuel : nat) (c : ascii) (r : string) :
  is_digit c = true \/ c = "-"%char ->
  strip_all fuel white_space (String c r) = String c r
  /\ strip_all fuel (map string_rev white_space) (String c r) = String c r.
Proof.
  intros H. destruct (strip_one_numeral c r H) as [H1 H2].
  destruct fuel; cbn [strip_all]; [split; reflexivity|].
  rewrite H1, H2. split; reflexivity.
Qed.

Lemma string_rev_app (a b : string) :
  string_rev (a +:+ b) = string_rev b +:+ string_rev a.
Proof.
  induction a as [|c a IH].
  - rewrite string_app_nil_l. cbn [string_rev]. rewrite string_app_nil_r.
    reflexivity.
  - rewrite string_app_cons. cbn [string_rev].
    rewrite IH, string_app_assoc. reflexivity.
Qed.

Lemma string_rev_involutive (s : string) : string_rev (string_rev s) = s.
Proof.
  induction s as [|c s IH]; [reflexivity|].
  cbn [string_rev]. rewrite string_rev_app, IH. reflexivity.
Qed.

Lemma all_digits_last (ds : string) :
  all_digits ds = true -> ds <> "" ->
  exists r c, ds = r +:+ String c "" /\ is_digit c = true.
Proof.
  induction ds as [|c ds IH]; [intros _ H; contradiction|].
  cbn [all_digits]. intros H _. apply andb_prop in H as [Hc Hds].
  destruct ds as [|c' ds'].
  - exists "", c. split; [reflexivity | exact Hc].
  - destruct (IH Hds ltac:(discriminate)) as (r & c0 & -> & Hc0).
    exists (String c r), c0. split; [reflexivity | exact Hc0].
Qed.

(** The shape of a string that matches [/^-?\d+$/]. *)
Lemma integer_literal_shape (v : string) :
  is_integer_literal v = true ->
  exists neg ds, v = sign_string neg +:+ ds /\ ds <> ""
                 /\ all_digits ds = true.
Proof.
  unfold is_integer_literal. intros H.
  assert (Hgen : forall ds, negb (String.eqb ds "") && all_digits ds = true ->
                            ds <> "" /\ all_digits ds = true).
  { intros ds Hds. apply andb_prop in Hds as [H1 H2]. split; [|exact H2].
    intros ->. discriminate H1. }
  destruct v as [|c r].
  - exists false, "". destruct (Hgen _ H) as [H1 _]. contradiction.
  - destruct (Ascii.eqb_spec c "-") as [-> | Hc].
    + exists true, r. destruct (Hgen _ H) as [H1 H2]. auto.
    + exists false, (String c r).
      assert (H' : negb (String.eqb (String c r) "")
                   && all_digits (String c r) = true).
      { revert H. destruct c as [[] [] [] [] [] [] [] []];
          try (exfalso; apply Hc; reflexivity); auto. }
      destruct (Hgen _ H') as [H1 H2]. auto.
Qed.

Lemma trim_integer_literal (v : string) :
  is_integer_literal v = true -> trim v = v.
Proof.
  intros H. destruct (integer_literal_shape v H) as (neg & ds & -> & Hne & Hds).
  destruct (all_digits_last ds Hds Hne) as (r & c & -> & Hc).
  assert (Hfirst : exists c0 r0,
             sign_string neg +:+ r +:+ String c "" = String c0 r0
             /\ (is_digit c0 = true \/ c0 = "-"%char)).
  { destruct neg.
    - exists "-"%char, (r +:+ String c ""). auto.
    - rewrite string_app_nil_l. destruct r as [|c1 r1].
      + exists c, "". auto.
      + exists c1, (r1 +:+ String c "").
        cbn [all_digits] in Hds. rewrite string_app_cons in Hds.
        cbn [all_digits] in Hds. apply andb_prop in Hds as [Hc1 _]. auto. }
  destruct Hfirst as (c0 & r0 & Hv & Hc0).
  set (v := sign_string neg +:+ r +:+ String c "") in *.
  assert (H1 : forall fuel, strip_all fuel white_space v = v).
  { intros fuel. rewrite Hv. apply (strip_all_numeral fuel c0 r0 Hc0). }
  assert (H2 : string_rev v = String c (string_rev (sign_string neg +:+ r))).
  { unfold v. rewrite <- (string_app_assoc (sign_string neg) r).
    rewrite string_rev_app. reflexivity. }
  unfold trim. cbv zeta. rewrite !H1, H2.
  rewrite (proj2 (strip_all_numeral _ c _ (or_introl Hc))).
  rewrite <- H2. apply string_rev_involutive.
Qed.

Lemma read_digits_all (ds : string) (acc len : Z) :
  all_digits ds = true -> 0 <= acc ->
  exists n, 0 <= n
            /\ read_digits ds acc len
               = (n, len + Z.of_nat (String.length ds), "").
Proof.
  revert acc len. induction ds as [|c ds IH]; intros acc len Hds Hacc.
  - exists acc. split; [exact Hacc|]. cbn [read_digits String.length].
    rewrite Z.add_0_r. reflexivity.
  - cbn [all_digits] in Hds. apply andb_prop in Hds as [Hc Hds].
    cbn [read_digits]. rewrite Hc.
    assert (Hv : 0 <= digit_value c).
    { apply is_digit_cases in Hc. simpl in Hc.
      repeat (destruct Hc as [<- | Hc]; [vm_compute; discriminate|]).
      destruct Hc. }
    assert (Hacc' : 0 <= 10 * acc + digit_value c) by lia.
    destruct (IH (10 * acc + digit_value c) (len + 1) Hds Hacc')
      as (n & Hn & ->).
    exists n. split; [exact Hn|]. cbn [String.length].
    rewrite Nat2Z.inj_succ.
    replace (len + 1 + Z.of_nat (String.length ds))
      with (len + Z.succ (Z.of_nat (String.length ds))) by lia.
    reflexivity.
Qed.

Lemma is_integer_literal_signed (neg : bool) (ds : string) :
  all_digits ds = true -> ds <> "" ->
  is_integer_literal (sign_string neg +:+ ds) = true.
Proof.
  intros Hds Hne. unfold is_integer_literal.
  assert (Hok : negb (String.eqb ds "") && all_digits ds = true).
  { rewrite Hds, andb_true_r. destruct (String.eqb_spec ds ""); [contradiction|].
    reflexivity. }
  destruct neg; [exact Hok|]. rewrite string_app_nil_l.
  destruct ds as [|c ds']; [contradiction|].
  cbn [all_digits] in Hds. apply andb_prop in Hds as [Hc _].
  apply is_digit_cases in Hc. simpl in Hc.
  repeat (destruct Hc as [<- | Hc]; [exact Hok|]). destruct Hc.
Qed.

(** [Number(v)] for a signed string of digits: the Number nearest to
    the integer it denotes. *)
Lemma StringToNumber_signed_digits (neg : bool) (ds : string) (n : Z) :
  all_digits ds = true -> ds <> "" ->
  read_digits ds 0 0 = (n, Z.of_nat (String.length ds), "") ->
  StringToNumber (sign_string neg +:+ ds)
  = if n =? 0 then Zero neg else round_nearest_even neg n 1.
Proof.
  intros Hds Hne Hread. unfold StringToNumber.
  rewrite (trim_integer_literal _ (is_integer_literal_signed neg ds Hds Hne)).
  destruct ds as [|c ds']; [contradiction|].
  pose proof Hds as Hc. cbn [all_digits] in Hc.
  apply andb_prop in Hc as [Hc Hds'].
  assert (Hnonempty : String.eqb (sign_string neg +:+ String c ds') "" = false)
    by (destruct neg; reflexivity).
  rewrite Hnonempty.
  assert (Hnd : non_decimal_literal (sign_string neg +:+ String c ds') = None).
  { destruct neg; [reflexivity|]. rewrite string_app_nil_l.
    unfold non_decimal_literal.
    destruct (Ascii.eqb_spec c "0") as [-> | Hc0].
    - destruct ds' as [|c' ds'']; [reflexivity|].
      cbn [all_digits] in Hds'. apply andb_prop in Hds' as [Hc' _].
      apply is_digit_cases in Hc'. simpl in Hc'.
      repeat (destruct Hc' as [<- | Hc']; [reflexivity|]). destruct Hc'.
    - apply is_digit_cases in Hc. simpl in Hc.
      repeat (destruct Hc as [<- | Hc];
              [first [reflexivity | exfalso; apply Hc0; reflexivity]|]).
      destruct Hc. }
  rewrite Hnd. unfold decimal_literal.
  assert (Hsign : read_sign (sign_string neg +:+ String c ds')
                  = (neg, String c ds')).
  { destruct neg; [reflexivity|]. rewrite string_app_nil_l.
    apply (leading_digit c ds' Hc). }
  rewrite Hsign.
  assert (Hinf : String.eqb (String c ds') "Infinity" = false).
  { apply is_digit_cases in Hc. simpl in Hc.
    repeat (destruct Hc as [<- | Hc]; [reflexivity|]). destruct Hc. }
  rewrite Hinf, Hread. cbn [exponent_part].
  destruct (Z.eqb_spec (Z.of_nat (String.length (String c ds'))) 0) as [E|_];
    [cbn [String.length] in E; lia|].
  cbn [andb]. destruct (n =? 0); [reflexivity|].
  unfold scale10. rewrite Z.sub_0_l. cbn [Z.opp Z.max Z.pow].
  change (Z.max 0 0) with 0. change (10 ^ 0) with 1.
  rewrite Z.mul_1_r. reflexivity.
Qed.

(** [Number(v)] for a string that matches [/^-?\d+$/] is a zero or
    the rounding of a positive integer. *)
Lemma StringToNumber_integer_literal (v : string) :
  is_integer_literal v = true ->
  exists neg n,
    0 <= n
    /\ StringToNumber v
       = if n =? 0 then Zero neg else round_nearest_even neg n 1.
Proof.
  intros H.
  destruct (integer_literal_shape v H) as (neg & ds & -> & Hne & Hds).
  destruct (read_digits_all ds 0 0 Hds ltac:(lia)) as (n & Hn & Hread).
  rewrite Z.add_0_l in Hread.
  exists neg, n. split; [exact Hn|].
  apply StringToNumber_signed_digits; assumption.
Qed.

Lemma round_nearest_even_isNaN (neg : bool) (p q : Z) :
  isNaN (round_nearest_even neg p q) = false.
Proof.
  unfold round_nearest_even.
  destruct (frac_shift p q _) as [n' d'].
  destruct (div_half_even n' d' =? 2 ^ 53);
    (destruct (971 <? _); [reflexivity|]);
    match goal with |- context [match ?m with _ => _ end] => destruct m end;
    reflexivity.
Qed.

(** ** Coercion of argument values *)

Lemma all_digits_no_point (ds : string) :
  all_digits ds = true -> includes ds "." = false.
Proof.
  induction ds as [|c ds IH]; [reflexivity|].
  cbn [all_digits]. intros H. apply andb_prop in H as [Hc Hds].
  cbn [includes]. rewrite (IH Hds).
  apply is_digit_cases in Hc. simpl in Hc.
  repeat (destruct Hc as [<- | Hc]; [reflexivity|]). destruct Hc.
Qed.

(** X11. A value that contains a decimal point is never coerced: it stays
    the string it was, digit for digit. *)
Theorem coerce_keeps_decimal_strings (value : string) :
  includes value "." = true -> coerce value = VString value.
Proof.
  intros Hpoint. unfold coerce.
  destruct (String.eqb_spec value "true") as [-> | _]; [discriminate|].
  destruct (String.eqb_spec value "false") as [-> | _]; [discriminate|].
  destruct (is_integer_literal value) eqn:E; [|reflexivity].
  destruct (integer_literal_shape value E) as (neg & ds & -> & _ & Hds).
  apply all_digits_no_point in Hds.
  destruct neg.
  - change (sign_string true +:+ ds) with (String "-" ds) in Hpoint.
    cbn [includes] in Hpoint. rewrite Hds in Hpoint.
    destruct ds; discriminate.
  - rewrite string_app_nil_l in Hpoint. congruence.
Qed.

Lemma coerce_keeps_decimal_strings_witness :
  coerce "95000.50" = VString "95000.50".
Proof. apply coerce_keeps_decimal_strings. reflexivity. Defined.

(** ** Flag mode of [parseCliArgs] *)

Lemma Forall_put_key (P : string * json -> Prop) (k : string) (v : json)
    (obj : list (string * json)) :
  P (k, v) -> Forall P obj -> Forall P (put_key k v obj).
Proof.
  intros Hk Hobj. induction Hobj as [|[k' v'] obj Hhead Hrest IH]; cbn [put_key].
  - repeat constructor. exact Hk.
  - destruct (String.eqb k' k); constructor; assumption.
Qed.

Lemma Forall_set_key (P : string * json -> Prop) (k : string) (v : json)
    (obj : list (string * json)) :
  P (k, v) -> Forall P obj -> Forall P (set_key k v obj).
Proof.
  intros Hk Hobj. unfold set_key.
  destruct (String.eqb k "__proto__");
    [exact Hobj | apply Forall_put_key; assumption].
Qed.

Lemma coerce_flag_value (value : string) :
  startsWith value "--" = false -> flag_value (coerce value) = true.
Proof.
  intros Hdash. unfold coerce.
  destruct (String.eqb value "true"); [reflexivity|].
  destruct (String.eqb value "false"); [reflexivity|].
  destruct (is_integer_literal value) eqn:E.
  - destruct (StringToNumber_integer_literal value E)
      as (neg & n & _ & ->).
    cbn [flag_value]. destruct (n =? 0); [reflexivity|].
    rewrite round_nearest_even_isNaN. reflexivity.
  - cbn [flag_value]. rewrite Hdash. reflexivity.
Qed.

Lemma parse_flags_values (n : nat) (args : list string)
    (result : list (string * json)) :
  (length args <= n)%nat ->
  Forall (fun kv => flag_value (snd kv) = true) result ->
  Forall (fun kv => flag_value (snd kv) = true) (parse_flags args result).
Proof.
  revert args result. induction n as [|n IH]; intros args result Hlen Hres.
  - destruct args; [exact Hres | simpl in Hlen; lia].
  - destruct args as [|arg rest]; [exact Hres|].
    cbn [parse_flags]. simpl in Hlen.
    destruct (negb (startsWith arg "--")); [apply IH; [lia | exact Hres]|].
    destruct rest as [|nextArg rest'].
    + apply Forall_set_key; [reflexivity | exact Hres].
    + simpl in Hlen. destruct (startsWith nextArg "--") eqn:Hnext.
      * apply IH; [simpl; lia|].
        apply Forall_set_key; [reflexivity | exact Hres].
      * apply IH; [lia|].
        apply Forall_set_key; [|exact Hres].
        apply coerce_flag_value, Hnext.
Qed.

(** X12. In flag mode every parameter is a boolean, a number other than
    [NaN], or a string that does not begin with two dashes: no object,
    array or null, and no way to pass a string value that starts with
    two dashes. *)
Theorem flag_mode_values
    (JSON_parse : string -> completion (list (string * json)))
    (args : list string) :
  (forall arg, args = [arg] -> startsWith arg "{" = false) ->
  exists params,
    parseCliArgs JSON_parse args = Return params
    /\ Forall (fun kv => flag_value (snd kv) = true) params.
Proof.
  intros Hflag. unfold parseCliArgs.
  assert (Hgen : Forall (fun kv => flag_value (snd kv) = true)
                   (parse_flags args [])).
  { apply (parse_flags_values (length args)); [lia | constructor]. }
  destruct args as [|arg [|arg' rest]].
  - exists []. split; [reflexivity | constructor].
  - rewrite (Hflag arg eq_refl). eexists. split; [reflexivity | exact Hgen].
  - eexists. split; [reflexivity | exact Hgen].
Qed.

Lemma flag_mode_values_witness :
  exists params,
    parseCliArgs (fun _ => Throw "SyntaxError")
      ["--symbol"; "BTCUSD"; "--price"; "--1"] = Return params
    /\ Forall (fun kv => flag_value (snd kv) = true) params.
Proof.
  apply flag_mode_values. intros arg [=].
Defined.

Lemma startsWith_dashes (k : string) : startsWith ("--" +:+ k) "--" = true.
Proof. unfold startsWith. destruct k; reflexivity. Qed.

Lemma parse_flag_pairs (pairs : list (string * string))
    (result : list (string * json)) :
  Forall (fun kv => startsWith (snd kv) "--" = false) pairs ->
  parse_flags (flag_pairs pairs) result = coerced_pairs pairs result.
Proof.
  intros Hall. revert result.
  induction Hall as [|[k v] pairs Hv _ IH]; intros result.
  - reflexivity.
  - cbn [flag_pairs parse_flags coerced_pairs]. cbn [snd] in Hv.
    rewrite startsWith_dashes, Hv. cbn [negb]. apply IH.
Qed.

Lemma coerced_pairs_other (pairs : list (string * string))
    (result : list (string * json)) (k : string) :
  Forall (fun kv => fst kv <> k) pairs ->
  get_key k (coerced_pairs pairs result) = get_key k result.
Proof.
  intros Hall. revert result.
  induction Hall as [|[k' v'] pairs Hk _ IH]; intros result.
  - reflexivity.
  - cbn [coerced_pairs]. rewrite IH. apply get_key_set_key_ne. exact Hk.
Qed.

(** X13. Arguments of the form [--k1 v1 ... --kn vn], none of the values
    starting with two dashes, parse to an object in which each flag
    holds the coerced value that follows its last occurrence. *)
Theorem parseCliArgs_flag_lookup
    (JSON_parse : string -> completion (list (string * json)))
    (before after : list (string * string)) (k v : string) :
  Forall (fun kv => startsWith (snd kv) "--" = false)
    (before ++ (k, v) :: after) ->
  Forall (fun kv => fst kv <> k) after ->
  k <> "__proto__" ->
  exists params,
    parseCliArgs JSON_parse (flag_pairs (before ++ (k, v) :: after))
    = Return params
    /\ get_key k params = Some (coerce v).
Proof.
  intros Hvalues Hafter Hproto.
  exists (coerced_pairs (before ++ (k, v) :: after) []). split.
  - rewrite <- (parse_flag_pairs _ [] Hvalues). unfold parseCliArgs.
    destruct before as [|[k0 v0] before]; cbn [app flag_pairs];
      (destruct (flag_pairs _); reflexivity).
  - clear Hvalues. generalize (@nil (string * json)) as result.
    induction before as [|[k0 v0] before IH]; intros result; cbn [app coerced_pairs].
    + rewrite coerced_pairs_other by exact Hafter.
      apply get_key_set_key_eq, Hproto.
    + apply IH.
Qed.

(** [--limit 10 --symbol BTCUSDT --limit 50]: the later limit wins. *)
Lemma parseCliArgs_flag_lookup_witness :
  exists params,
    parseCliArgs (fun _ => Throw "SyntaxError")
      ["--limit"; "10"; "--symbol"; "BTCUSDT"; "--limit"; "50"] = Return params
    /\ get_key "limit" params = Some (coerce "50").
Proof.
  refine (parseCliArgs_flag_lookup _
            [("limit", "10"); ("symbol", "BTCUSDT")] [] "limit" "50" _ _ _).
  - repeat constructor.
  - constructor.
  - discriminate.
Defined.

(** ** Reading parameters back *)

Lemma all_digits_fixed (k : nat) (z : Z) :
  all_digits (fixed_digits k z) = true.
Proof.
  induction k as [|k IH]; [reflexivity|].
  rewrite fixed_digits_succ. cbn [all_digits]. rewrite IH, andb_true_r.
  apply digit_char_is_digit. apply Z.mod_pos_bound. lia.
Qed.

(** [Number(v)] for the canonical numeral of an integer. *)
Lemma StringToNumber_integer (neg : bool) (M : Z) :
  0 <= M ->
  is_integer_literal (decimal_string neg M 0) = true
  /\ StringToNumber (decimal_string neg M 0)
     = if M =? 0 then Zero neg else round_nearest_even neg M 1.
Proof.
  intros HM. unfold decimal_string.
  change (10 ^ Z.of_nat 0) with 1. rewrite Z.div_1_r, string_app_nil_r.
  destruct (Z_digits_fixed M HM) as (k & Hk & Hlt).
  assert (Hds : all_digits (Z_digits M) = true)
    by (rewrite Hk; apply all_digits_fixed).
  assert (Hne : Z_digits M <> "")
    by (rewrite Hk, fixed_digits_succ; discriminate).
  split; [apply is_integer_literal_signed; assumption|].
  apply StringToNumber_signed_digits; [assumption..|].
  rewrite Hk, fixed_digits_length.
  rewrite <- (string_app_nil_r (fixed_digits (S k) M)).
  rewrite read_digits_fixed by exact Logic.I.
  rewrite Z.mod_small by lia. reflexivity.
Qed.

(** An integer below [10^15] in magnitude prints as its numeral. *)
Lemma toString_integer (neg : bool) (M : Z) :
  0 <= M < 10 ^ 15 -> (M = 0 -> neg = false) ->
  toString (if M =? 0 then Zero neg else round_nearest_even neg M 1)
  = decimal_string neg M 0.
Proof.
  intros [HM0 HM15] Hzero.
  destruct (Z.eqb_spec M 0) as [-> | Hne].
  - rewrite (Hzero eq_refl). reflexivity.
  - assert (HM : 0 < M) by lia.
    assert (HN : M * 10 ^ (0 - Z.of_nat 0) < 10 ^ 15).
    { change (10 ^ (0 - Z.of_nat 0)) with 1. lia. }
    assert (Hsmall : 10 ^ Z.of_nat 0 <= M * 10 ^ 6).
    { change (10 ^ Z.of_nat 0) with 1. lia. }
    destruct (parsed_number neg M 0 0 ltac:(simpl; lia) HM HN Hsmall)
      as (m & e & Hrn & He & _).
    change (10 ^ Z.of_nat 0) with 1 in Hrn. rewrite Hrn.
    change 1 with (10 ^ Z.of_nat 0) in Hrn.
    rewrite (printed_number neg M 0 0 ltac:(simpl; lia) HM HN Hsmall m e Hrn He).
    reflexivity.
Qed.

(** X14. A string parameter given in flag mode is read back by
    [requireString] and [optString] as it was typed, provided it is
    not empty and does not start with two dashes, and it is either left
    alone by [coerce] or the canonical numeral of an integer below
    [10^15] in magnitude: such a numeral is turned into a number by the
    parser and back into the same digits by the helpers. *)
Theorem flag_string_reads_back
    (JSON_parse : string -> completion (list (string * json)))
    (k v : string) :
  k <> "__proto__" ->
  startsWith v "--" = false ->
  v <> "" ->
  (coerce v = VString v
   \/ exists neg M, v = decimal_string neg M 0
                    /\ 0 <= M < 10 ^ 15 /\ (M = 0 -> neg = false)) ->
  exists params,
    parseCliArgs JSON_parse ["--" +:+ k; v] = Return params
    /\ ParamHelpers.requireString params k = Return v
    /\ ParamHelpers.optString params k = Some v.
Proof.
  intros Hproto Hdash Hne Hv.
  exists [(k, coerce v)].
  assert (Hparse : parseCliArgs JSON_parse ["--" +:+ k; v]
                   = Return [(k, coerce v)]).
  { unfold parseCliArgs. cbn [parse_flags].
    rewrite startsWith_dashes, Hdash. cbn [negb parse_flags].
    unfold slice_2. replace (drop 2 ("--" +:+ k)) with k by reflexivity.
    unfold set_key. destruct (String.eqb_spec k "__proto__"); [contradiction|].
    reflexivity. }
  split; [exact Hparse|].
  unfold ParamHelpers.requireString, ParamHelpers.optString, read. cbn [get_key].
  rewrite String.eqb_refl.
  destruct Hv as [-> | (neg & M & -> & HM & Hzero)].
  - destruct (String.eqb_spec v ""); [contradiction|]. split; reflexivity.
  - destruct (StringToNumber_integer neg M ltac:(lia)) as [Hlit Hnum].
    assert (Hco : coerce (decimal_string neg M 0)
                  = VNumber (StringToNumber (decimal_string neg M 0))).
    { unfold coerce. rewrite Hlit.
      destruct (integer_literal_shape _ Hlit) as (n' & ds & Hs & Hds0 & Hds).
      assert (Hnt : forall w, In w ["true"; "false"] ->
                              String.eqb (decimal_string neg M 0) w = false).
      { intros w Hw. destruct (String.eqb_spec (decimal_string neg M 0) w)
          as [E|]; [|reflexivity].
        exfalso. rewrite E in Hlit. simpl in Hw.
        destruct Hw as [<- | [<- | []]]; discriminate Hlit. }
      rewrite !Hnt by (simpl; auto). reflexivity. }
    rewrite Hco, Hnum, toString_integer by assumption.
    split; reflexivity.
Qed.

(** [--price 100000] is read back as "100000". *)
Lemma flag_string_reads_back_witness :
  exists params,
    parseCliArgs (fun _ => Throw "SyntaxError") ["--price"; "100000"]
    = Return params
    /\ ParamHelpers.requireString params "price" = Return "100000"
    /\ ParamHelpers.optString params "price" = Some "100000".
Proof.
  refine (flag_string_reads_back _ "price" "100000" _ _ _ _).
  - discriminate.
  - reflexivity.
  - discriminate.
  - right. exists false, 100000. split; [reflexivity|].
    split; [simpl; lia | intros [=]].
Defined.

(** ** More on symbol validation *)

Lemma endsWith_USD_not_USDT (s : string) :
  endsWith s "USD" = true -> endsWith s "USDT" = false.
Proof.
  induction s as [|c s IH]; [discriminate|].
  cbn [endsWith].
  destruct (String.eqb_spec (String c s) "USD") as [E | _].
  - intros _. injection E as -> ->. reflexivity.
  - intros H. rewrite (IH H).
    destruct (String.eqb_spec (String c s) "USDT") as [E | _]; [|reflexivity].
    injection E as _ ->. discriminate H.
Qed.

(** X15. Validation by suffix, for every symbol: a linear request is refused
    exactly for the symbols that end in USD, an inverse request exactly
    for those that end in USDT; no symbol ends in both, so every symbol
    is accepted for at least one of the two contract types. *)
Theorem validateSymbol_by_suffix (symbol : string) :
  (ContractRouter.validateSymbol linear symbol = None
   <-> endsWith symbol "USD" = false)
  /\ (ContractRouter.validateSymbol inverse symbol = None
      <-> endsWith symbol "USDT" = false)
  /\ (ContractRouter.validateSymbol linear symbol = None
      \/ ContractRouter.validateSymbol inverse symbol = None).
Proof.
  unfold ContractRouter.validateSymbol.
  destruct (endsWith symbol "USD") eqn:E1.
  - rewrite (endsWith_USD_not_USDT symbol E1). cbn [negb andb].
    repeat split; try discriminate; auto.
  - cbn [andb]. destruct (endsWith symbol "USDT");
      repeat split; try discriminate; auto.
Qed.

(** X16. For spot, the verdict on a symbol is the same before and after
    [resolveSymbol] has put the prefix in front of it. *)
Theorem validateSymbol_spot_after_resolve (symbol : string) :
  ContractRouter.validateSymbol spot
    (ContractRouter.resolveSymbol spot symbol) = None
  <-> ContractRouter.validateSymbol spot symbol = None.
Proof.
  unfold ContractRouter.resolveSymbol.
  destruct (startsWith symbol "s") eqn:E; cbn [negb]; [reflexivity|].
  unfold ContractRouter.validateSymbol. rewrite E.
  replace (startsWith ("s" +:+ symbol) "s") with true
    by (unfold startsWith; destruct symbol; reflexivity).
  change (slice_1 ("s" +:+ symbol)) with symbol.
  destruct (endsWith symbol "USD" && negb (endsWith symbol "USDT"));
    split; intros H; try discriminate H; reflexivity.
Qed.

(** ** Numbers and strings handed out by the parameter helpers *)

Lemma get_key_In (k : string) (v : json) (obj : list (string * json)) :
  get_key k obj = Some v -> In (k, v) obj.
Proof.
  induction obj as [|[k' v'] obj IH]; cbn [get_key]; [discriminate|].
  destruct (String.eqb_spec k' k) as [-> | _].
  - intros [= ->]. left. reflexivity.
  - intros H. right. exact (IH H).
Qed.

(** X17. A number read from arguments given in flag mode is never [NaN]:
    neither [optNumber] nor [requireNumber] hands one out. *)
Theorem flag_number_is_not_NaN
    (JSON_parse : string -> completion (list (string * json)))
    (args : list string) (params : list (string * json)) (key : string)
    (defaultVal : option number) (x : number) :
  (forall arg, args = [arg] -> startsWith arg "{" = false) ->
  parseCliArgs JSON_parse args = Return params ->
  (defaultVal = None \/ exists d, defaultVal = Some d /\ isNaN d = false) ->
  ParamHelpers.optNumber params key defaultVal = Return (Some x)
  \/ ParamHelpers.requireNumber params key = Return x ->
  isNaN x = false.
Proof.
  intros Hflag Hparse Hdefault Hread.
  assert (Hvalues : Forall (fun kv => flag_value (snd kv) = true) params).
  { assert (Hgen : Forall (fun kv => flag_value (snd kv) = true)
                     (parse_flags args [])).
    { apply (parse_flags_values (length args)); [lia | constructor]. }
    revert Hparse. unfold parseCliArgs.
    destruct args as [|arg [|arg' rest]].
    - intros [= <-]. constructor.
    - rewrite (Hflag arg eq_refl). intros [= <-]. exact Hgen.
    - intros [= <-]. exact Hgen. }
  assert (Hopt : forall d, (d = None \/ exists y, d = Some y /\ isNaN y = false) ->
                           ParamHelpers.optNumber params key d = Return (Some x) ->
                           isNaN x = false).
  { intros d Hd. unfold ParamHelpers.optNumber, read.
    destruct (get_key key params) as [v|] eqn:Hv.
    - apply get_key_In in Hv.
      rewrite List.Forall_forall in Hvalues. specialize (Hvalues _ Hv).
      cbn [snd] in Hvalues.
      destruct v as [| | b | y | s | items | obj]; try discriminate.
      + intros [= ->]. cbn [flag_value] in Hvalues.
        destruct (isNaN x); [discriminate | reflexivity].
      + destruct (isNaN (StringToNumber s)) eqn:E; cbn [negb]; [discriminate|].
        intros [= <-]. exact E.
    - destruct (existsb (String.eqb key) Object_prototype); [discriminate|].
      intros [= ->]. destruct Hd as [[=] | (y & [= ->] & Hy)]. exact Hy. }
  destruct Hread as [H | H].
  - exact (Hopt defaultVal Hdefault H).
  - unfold ParamHelpers.requireNumber in H.
    destruct (ParamHelpers.optNumber params key None) as [[y|]|] eqn:E;
      try discriminate.
    injection H as ->. apply (Hopt None); [left; reflexivity | exact E].
Qed.

(** [--leverage 10] *)
Lemma flag_number_is_not_NaN_witness : isNaN (of_Z 10) = false.
Proof.
  apply (flag_number_is_not_NaN (fun _ => Throw "SyntaxError")
           ["--leverage"; "10"] [("leverage", VNumber (of_Z 10))] "leverage"
           None (of_Z 10)).
  - intros arg [=].
  - vm_compute. reflexivity.
  - left. reflexivity.
  - right. vm_compute. reflexivity.
Defined.

(** X18. An empty or blank string is the number 0 for [optNumber] and
    [requireNumber]: it is not taken for a missing parameter, the
    default is not used, and nothing is thrown. *)
Theorem blank_string_is_zero (params : list (string * json))
    (key value : string) (defaultVal : option number) :
  get_key key params = Some (VString value) ->
  trim value = "" ->
  ParamHelpers.optNumber params key defaultVal = Return (Some (Zero false))
  /\ ParamHelpers.requireNumber params key = Return (Zero false).
Proof.
  intros Hget Hblank.
  assert (H : forall d, ParamHelpers.optNumber params key d
                        = Return (Some (Zero false))).
  { intros d. unfold ParamHelpers.optNumber, read. rewrite Hget.
    unfold StringToNumber. rewrite Hblank. reflexivity. }
  split; [apply H|]. unfold ParamHelpers.requireNumber. rewrite H. reflexivity.
Qed.

Lemma blank_string_is_zero_witness :
  ParamHelpers.optNumber [("limit", VString "  ")] "limit" (Some (of_Z 100))
  = Return (Some (Zero false)).
Proof.
  apply (blank_string_is_zero [("limit", VString "  ")] "limit" "  ").
  - reflexivity.
  - vm_compute. reflexivity.
Defined.

Lemma string_app_empty (a b : string) : a +:+ b = "" -> a = "" /\ b = "".
Proof.
  destruct a; [rewrite string_app_nil_l; intros ->; auto|].
  rewrite string_app_cons. discriminate.
Qed.

Lemma shortest_digits (fuel : nat) (x : number) (p q n k : Z) :
  k <= snd (shortest fuel x p q n k).
Proof.
  revert k. induction fuel as [|fuel IH]; intros k.
  - cbn [shortest]. destruct (scale10 p q (k - n)) as [sp sq].
    cbn [snd]. lia.
  - rewrite shortest_unfold. destruct (scale10 p q (k - n)) as [sp sq].
    cbv zeta.
    destruct (_ && _); [cbn [snd]; lia|].
    destruct (rounds_to _ _ _); [cbn [snd]; lia|].
    specialize (IH (k + 1)). lia.
Qed.

Lemma layout_nonempty (ds : string) (k n : Z) :
  ds <> "" -> layout ds k n <> "".
Proof.
  intros Hds. unfold layout.
  assert (Hpoint : forall a b, a +:+ "." +:+ b <> "").
  { intros a b H. apply string_app_empty in H as [_ H]. discriminate H. }
  destruct (_ && _).
  { intros H. apply string_app_empty in H as [H _]. contradiction. }
  destruct (_ && _); [apply Hpoint|].
  destruct (_ && _); [discriminate|].
  destruct (k =? 1); [|apply Hpoint].
  intros H. apply string_app_empty in H as [H _]. contradiction.
Qed.

(** [toString] never returns the empty string. *)
Lemma toString_nonempty (x : number) : toString x <> "".
Proof.
  destruct x as [| [] | [] | neg m e]; try discriminate.
  cbn [toString]. intros H. apply string_app_empty in H as [_ H].
  revert H. unfold toString_pos.
  pose proof (shortest_digits 16 (Finite false m e) (shl (Z.pos m) e)
                (shl 1 (- e))
                (decimal_exponent (shl (Z.pos m) e) (shl 1 (- e))) 1) as Hk.
  destruct (shortest 16 _ _ _ _ 1) as [s k]. cbn [snd] in Hk.
  assert (Hdigits : forall s' k', 1 <= k' -> fixed_digits (Z.to_nat k') s' <> "").
  { intros s' k' Hk'. destruct (Z.to_nat k') eqn:E; [lia|].
    rewrite fixed_digits_succ. discriminate. }
  destruct (s =? 10 ^ k); apply layout_nonempty, Hdigits; lia.
Qed.

(** X19. [requireString] never returns the empty string: what it hands out
    is a non-empty string parameter or the decimal form of a number. *)
Theorem requireString_is_not_empty (params : list (string * json))
    (key value : string) :
  ParamHelpers.requireString params key = Return value -> value <> "".
Proof.
  unfold ParamHelpers.requireString.
  destruct (read params key) as [[| | b | x | s | items | obj] |];
    try discriminate.
  - intros [= <-]. apply toString_nonempty.
  - destruct (String.eqb_spec s ""); [discriminate|]. intros [= <-]. assumption.
Qed.

Lemma requireString_is_not_empty_witness : "100000" <> "".
Proof.
  apply (requireString_is_not_empty [("price", VNumber (of_Z 100000))] "price").
  vm_compute. reflexivity.
Defined.

(** ** The query string *)

Lemma count_char_app (c : ascii) (a b : string) :
  count_char c (a +:+ b) = (count_char c a + count_char c b)%nat.
Proof.
  induction a as [|c' a IH]; [reflexivity|].
  rewrite string_app_cons. cbn [count_char]. rewrite IH. lia.
Qed.

Lemma hex_char_separator (n : nat) :
  (n < 16)%nat ->
  Ascii.eqb (hex_char n) "&" = false /\ Ascii.eqb (hex_char n) "=" = false.
Proof.
  intros Hn.
  do 16 (destruct n as [|n]; [split; reflexivity|]). lia.
Qed.

(** [encodeURIComponent] leaves no [&] and no [=]. *)
Lemma encodeURIComponent_separators (s : string) :
  count_char "&" (encodeURIComponent s) = 0%nat
  /\ count_char "=" (encodeURIComponent s) = 0%nat.
Proof.
  induction s as [|c s [IH1 IH2]]; [split; reflexivity|].
  cbn [encodeURIComponent].
  destruct (unreserved c) eqn:Hc.
  - cbn [count_char]. rewrite IH1, IH2.
    destruct (Ascii.eqb_spec c "&") as [-> | _]; [discriminate Hc|].
    destruct (Ascii.eqb_spec c "=") as [-> | _]; [discriminate Hc|].
    split; reflexivity.
  - pose proof (nat_ascii_bounded c) as Hb.
    assert (H1 : (nat_of_ascii c / 16 < 16)%nat)
      by (apply Nat.Div0.div_lt_upper_bound; lia).
    assert (H2 : (nat_of_ascii c mod 16 < 16)%nat)
      by (apply Nat.mod_upper_bound; lia).
    destruct (hex_char_separator _ H1) as [Ha1 Ha2].
    destruct (hex_char_separator _ H2) as [Hb1 Hb2].
    cbn [count_char]. rewrite Ha1, Ha2, Hb1, Hb2, IH1, IH2.
    split; reflexivity.
Qed.

Lemma encode_entry_separators (entry : string * json) (part : string) :
  encode_entry entry = Some part ->
  count_char "&" part = 0%nat /\ count_char "=" part = 1%nat.
Proof.
  unfold encode_entry. destruct (ToString (snd entry)) as [s|]; [|discriminate].
  intros [= <-]. rewrite !count_char_app.
  destruct (encodeURIComponent_separators (fst entry)) as [-> ->].
  destruct (encodeURIComponent_separators s) as [-> ->].
  split; reflexivity.
Qed.

Lemma join_separators (parts : list string) :
  Forall (fun part => count_char "&" part = 0%nat
                      /\ count_char "=" part = 1%nat) parts ->
  count_char "&" (join "&" parts) = Nat.pred (length parts)
  /\ count_char "=" (join "&" parts) = length parts.
Proof.
  induction 1 as [|part parts [H1 H2] Hall [IH1 IH2]]; [split; reflexivity|].
  destruct parts as [|part' parts'].
  - cbn [join length Nat.pred]. auto.
  - change (join "&" (part :: part' :: parts'))
      with (part +:+ "&" +:+ join "&" (part' :: parts')).
    rewrite !count_char_app, H1, H2, IH1, IH2. cbn [length Nat.pred].
    split; reflexivity.
Qed.

Lemma map_all_length {A B : Type} (f : A -> option B) (l : list A)
    (bs : list B) :
  map_all f l = Some bs ->
  length bs = length l /\ forall b, In b bs -> exists a, f a = Some b.
Proof.
  revert bs. induction l as [|a l IH]; cbn [map_all]; intros bs.
  - intros [= <-]. split; [reflexivity | intros b []].
  - destruct (f a) as [b|] eqn:Ea; [|discriminate].
    destruct (map_all f l) as [bs'|]; [|discriminate].
    intros [= <-]. destruct (IH bs' eq_refl) as [Hlen Hin].
    split; [cbn [length]; rewrite Hlen; reflexivity|].
    intros b' [<- | Hb']; [exists a; exact Ea | exact (Hin b' Hb')].
Qed.

(** X20. The query string has one [=] for each parameter that is neither
    [undefined] nor [null], and one [&] between any two of them: names
    and values are encoded, so that none of them can add a separator. *)
Theorem query_string_separators (params : list (string * json))
    (qp : string) :
  buildQueryParams params = Some qp ->
  count_char "=" qp = length (filter present params)
  /\ count_char "&" qp = Nat.pred (length (filter present params)).
Proof.
  unfold buildQueryParams.
  destruct (map_all encode_entry (filter present params)) as [parts|] eqn:E;
    [|discriminate].
  intros [= <-]. destruct (map_all_length _ _ _ E) as [Hlen Hin].
  rewrite <- Hlen.
  destruct (join_separators parts) as [H1 H2]; [|auto].
  apply List.Forall_forall. intros part Hpart.
  destruct (Hin part Hpart) as (entry & Hentry).
  exact (encode_entry_separators entry part Hentry).
Qed.

Lemma query_string_separators_witness :
  count_char "=" "symbol=a%26b%3Dc&limit=50" = 2%nat
  /\ count_char "&" "symbol=a%26b%3Dc&limit=50" = 1%nat.
Proof.
  apply (query_string_separators
           [("symbol", VString "a&b=c"); ("side", VNull);
            ("limit", VNumber (of_Z 50))]).
  vm_compute. reflexivity.
Defined.
Import ContractRouter Cli Runs.

(** ** The handlers of the command line *)

Lemma unless_failed_bind {A B : Type} (P : A -> Prop) (Q : B -> Prop)
    (s : step A) (f : A -> step B) :
  unless_failed P s -> (forall a, P a -> unless_failed Q (f a)) ->
  unless_failed Q (bind s f).
Proof.
  destruct s as [a | [m | d]]; cbn [unless_failed bind]; auto.
Qed.

Lemma unless_failed_run (s : step process) :
  unless_failed (fun p => exists m, p = Ends (Failed m)) s ->
  exists m, run s = Ends (Failed m).
Proof.
  destruct s as [p | [m | d]]; cbn [unless_failed run]; [auto | | intros []].
  intros _. exists m. reflexivity.
Qed.

Lemma requireString_unless_failed (params : list (string * json))
    (key : string) :
  unless_failed (fun _ => True) (Cli.requireString params key).
Proof.
  unfold Cli.requireString.
  destruct (read params key) as [[| | | | s | |]|]; cbn; auto.
  destruct (String.eqb s ""); cbn; auto.
Qed.

Lemma getContractType_unless_failed (params : list (string * json)) :
  unless_failed (fun _ => True) (getContractType params).
Proof.
  unfold getContractType, template.
  destruct (contract_type_of _); [exact I|].
  destruct (ToString _); exact I.
Qed.

Lemma optNumber_unless_failed (params : list (string * json)) (key : string)
    (d : option number) :
  unless_failed (fun _ => True) (Cli.optNumber params key d).
Proof.
  unfold Cli.optNumber.
  destruct (read params key) as [[| | | | s | |]|]; cbn; auto.
  destruct (isNaN _); cbn; auto.
Qed.

Lemma requireNumber_unless_failed (params : list (string * json))
    (key : string) :
  unless_failed (fun _ => True) (Cli.requireNumber params key).
Proof.
  unfold Cli.requireNumber.
  apply (unless_failed_bind (fun _ => True)); [apply optNumber_unless_failed|].
  intros [x|] _; exact I.
Qed.

Lemma checkSymbol_unless_failed (ct : ContractType) (symbol : string) :
  unless_failed (fun _ => validateSymbol ct symbol = None) (checkSymbol ct symbol).
Proof.
  unfold checkSymbol. destruct (validateSymbol ct symbol) as [e|] eqn:E; cbn; auto.
  destruct (String.eqb_spec e "") as [-> | _]; cbn; auto.
  exfalso. revert E. unfold validateSymbol.
  destruct ct; repeat match goal with
                      | |- context [if ?b then _ else _] => destruct b
                      end; try discriminate;
    intros [= H]; apply string_app_empty in H as [H _]; discriminate H.
Qed.

Ltac failing_step :=
  first
    [ apply (unless_failed_bind (fun _ => True));
      [ first [ apply requireString_unless_failed
              | apply getContractType_unless_failed
              | apply optNumber_unless_failed
              | apply requireNumber_unless_failed ]
      | intros ? _ ]
    | eapply unless_failed_bind;
      [ apply checkSymbol_unless_failed | intros ? ? ] ].

(** X21. The command line's own [requireString] takes only strings.  Flag
    mode turns a value that reads as an integer, [true] or [false] into
    a number or a boolean, so such a value given for a required string
    parameter is reported as missing. *)
Theorem coerced_value_is_reported_missing
    (JSON_parse : string -> completion (list (string * json)))
    (k v : string) :
  k <> "__proto__" ->
  is_integer_literal v = true \/ v = "true" \/ v = "false" ->
  exists params,
    parseCliArgs JSON_parse ["--" +:+ k; v] = Return params
    /\ Cli.requireString params k
       = Stop (Failed ("Missing required parameter: --" +:+ k)).
Proof.
  intros Hproto Hv.
  assert (Hdash : startsWith v "--" = false).
  { destruct Hv as [H | [-> | ->]]; try reflexivity.
    destruct (integer_literal_shape v H) as (neg & ds & -> & Hne & Hds).
    destruct ds as [|c r]; [contradiction|].
    cbn [all_digits] in Hds. apply andb_prop in Hds as [Hc _].
    apply is_digit_cases in Hc. simpl in Hc.
    destruct neg;
      repeat (destruct Hc as [<- | Hc]; [reflexivity|]); destruct Hc. }
  exists [(k, coerce v)]. split.
  - unfold parseCliArgs. cbn [parse_flags].
    rewrite startsWith_dashes, Hdash. cbn [negb parse_flags].
    unfold slice_2. replace (drop 2 ("--" +:+ k)) with k by reflexivity.
    unfold set_key. destruct (String.eqb_spec k "__proto__"); [contradiction|].
    reflexivity.
  - unfold Cli.requireString, read. cbn [get_key]. rewrite String.eqb_refl.
    unfold coerce. destruct Hv as [H | [-> | ->]]; try reflexivity.
    rewrite H. destruct (String.eqb v "true"); [reflexivity|].
    destruct (String.eqb v "false"); reflexivity.
Qed.

(** [--orderQty 10] *)
Lemma coerced_value_is_reported_missing_witness :
  exists params,
    parseCliArgs (fun _ => Throw "SyntaxError") ["--orderQty"; "10"]
    = Return params
    /\ Cli.requireString params "orderQty"
       = Stop (Failed "Missing required parameter: --orderQty").
Proof.
  refine (coerced_value_is_reported_missing _ "orderQty" "10" _ _).
  - discriminate.
  - left. reflexivity.
Defined.

(** X22. Without product metadata nothing that needs scaling is sent: when
    the cache is not loaded, an order, an amendment or a leverage
    setting for an inverse or spot contract, and any transfer, end in
    failure before a request is made. *)
Theorem nothing_scaled_is_sent_without_metadata
    (params : list (string * json)) (pc : ProductInfoCache.t)
    (uuid : string) :
  isLoaded pc = false ->
  (getContractType params = Go inverse \/ getContractType params = Go spot ->
   Forall (fun p => exists m, p = Ends (Failed m))
     (scaling_handlers params pc uuid))
  /\ exists m, handleTransferFunds params pc = Ends (Failed m).
Proof.
  intros Hloaded. split.
  - intros Hct.
    assert (Hkind : exists ct, getContractType params = Go ct
                               /\ isInverse ct || isSpot ct = true).
    { destruct Hct as [H | H]; eexists; split; try exact H; reflexivity. }
    clear Hct. destruct Hkind as (ct & Hct & Hkind).
    unfold scaling_handlers.
    repeat (apply List.Forall_cons; [|]); [| | | apply List.Forall_nil].
    + unfold handlePlaceOrder. apply unless_failed_run.
      do 4 failing_step. rewrite Hct. cbn [bind]. failing_step.
      unfold orderParams. rewrite Hloaded. cbn [negb].
      destruct ct; try discriminate Hkind; exact I.
    + unfold handleAmendOrder. apply unless_failed_run.
      failing_step. rewrite Hct. cbn [bind].
      destruct (missing _ && missing _); [exact I|].
      failing_step. unfold amendParams. rewrite Hkind, Hloaded. exact I.
    + unfold handleSetLeverage. apply unless_failed_run.
      do 2 failing_step. rewrite Hct. cbn [bind].
      destruct ct; try discriminate Hkind; cbn [isSpot]; [|exact I].
      failing_step. unfold leverageParams. rewrite Hloaded. exact I.
  - unfold handleTransferFunds. apply unless_failed_run.
    do 3 failing_step. rewrite Hloaded. exact I.
Qed.

(** A spot order against a cache that was never loaded. *)
Lemma nothing_scaled_is_sent_without_metadata_witness :
  exists m,
    handlePlaceOrder
      [("symbol", VString "BTCUSDT"); ("side", VString "Buy");
       ("orderQty", VString "0.5"); ("ordType", VString "Market");
       ("contractType", VString "spot")]
      (new "https://api.phemex.com") "123e4567-e89b-12d3-a456-426614174000"
    = Ends (Failed m).
Proof.
  pose proof (proj1 (nothing_scaled_is_sent_without_metadata
                       [("symbol", VString "BTCUSDT"); ("side", VString "Buy");
                        ("orderQty", VString "0.5"); ("ordType", VString "Market");
                        ("contractType", VString "spot")]
                       (new "https://api.phemex.com")
                       "123e4567-e89b-12d3-a456-426614174000" eq_refl)
                (or_intror eq_refl)) as H.
  exact (List.Forall_inv H).
Defined.

(** X23. For a linear contract no handler looks at the product metadata:
    with any two caches the runs are the same, request and answer. *)
Theorem linear_handlers_ignore_metadata (params : list (string * json))
    (pc pc' : ProductInfoCache.t) (uuid : string) :
  getContractType params = Go linear ->
  validating_handlers params pc uuid = validating_handlers params pc' uuid.
Proof.
  intros Hct.
  unfold validating_handlers, handleGetOpenOrders, handleGetOrderHistory,
    handleGetTrades, handlePlaceOrder, handleAmendOrder, handleCancelOrder,
    handleCancelAllOrders, handleSetLeverage, handleSwitchPosMode.
  rewrite !Hct. reflexivity.
Qed.

(** A linear order, with the fixture's cache and with an empty one. *)
Lemma linear_handlers_ignore_metadata_witness :
  validating_handlers
    [("symbol", VString "BTCUSDT"); ("side", VString "Buy");
     ("orderQty", VString "0.01"); ("ordType", VString "Market")]
    Fixture.mock_cache "123e4567-e89b-12d3-a456-426614174000"
  = validating_handlers
      [("symbol", VString "BTCUSDT"); ("side", VString "Buy");
       ("orderQty", VString "0.01"); ("ordType", VString "Market")]
      (new "") "123e4567-e89b-12d3-a456-426614174000".
Proof.
  apply linear_handlers_ignore_metadata. reflexivity.
Defined.

(** X24. A symbol that validation refuses for the contract type is never
    sent: every handler that validates ends in failure before a request
    is made. *)
Theorem refused_symbol_is_never_sent (params : list (string * json))
    (pc : ProductInfoCache.t) (uuid symbol : string) (ct : ContractType) :
  Cli.requireString params "symbol" = Go symbol ->
  getContractType params = Go ct ->
  validateSymbol ct symbol <> None ->
  Forall (fun p => exists m, p = Ends (Failed m))
    (validating_handlers params pc uuid).
Proof.
  intros Hsymbol Hct Hrefused.
  unfold validating_handlers.
  repeat (apply List.Forall_cons; [|]); try apply List.Forall_nil;
    apply unless_failed_run.
  - unfold handleGetOpenOrders. rewrite Hsymbol, Hct. cbn [bind].
    failing_step. contradiction.
  - unfold handleGetOrderHistory. rewrite Hsymbol. cbn [bind].
    failing_step. rewrite Hct. cbn [bind]. failing_step. contradiction.
  - unfold handleGetTrades. rewrite Hsymbol. cbn [bind].
    failing_step. rewrite Hct. cbn [bind]. failing_step. contradiction.
  - unfold handlePlaceOrder. rewrite Hsymbol. cbn [bind].
    do 3 failing_step. rewrite Hct. cbn [bind]. failing_step. contradiction.
  - unfold handleAmendOrder. rewrite Hsymbol, Hct. cbn [bind].
    destruct (missing _ && missing _); [exact I|].
    failing_step. contradiction.
  - unfold handleCancelOrder. rewrite Hsymbol, Hct. cbn [bind].
    destruct (missing _ && missing _); [exact I|].
    failing_step. contradiction.
  - unfold handleCancelAllOrders. rewrite Hsymbol, Hct. cbn [bind].
    failing_step. contradiction.
  - unfold handleSetLeverage. rewrite Hsymbol. cbn [bind].
    failing_step. rewrite Hct. cbn [bind].
    destruct (isSpot ct); [exact I|]. failing_step. contradiction.
  - unfold handleSwitchPosMode. rewrite Hsymbol. cbn [bind].
    failing_step. rewrite Hct. cbn [bind].
    destruct (isSpot ct); [exact I|]. destruct (isInverse ct); [exact I|].
    failing_step. contradiction.
Qed.

(** Cancelling all orders of BTCUSDT as an inverse contract. *)
Lemma refused_symbol_is_never_sent_witness :
  exists m,
    handleCancelAllOrders
      [("symbol", VString "BTCUSDT"); ("contractType", VString "inverse")]
      Fixture.mock_cache
    = Ends (Failed m).
Proof.
  pose proof (refused_symbol_is_never_sent
                [("symbol", VString "BTCUSDT");
                 ("contractType", VString "inverse")]
                Fixture.mock_cache "" "BTCUSDT" inverse
                eq_refl eq_refl ltac:(discriminate)) as H.
  rewrite List.Forall_forall in H. apply H. simpl. auto 10.
Defined.

Lemma call_request (m : Method) (endpoint : string)
    (params : list (string * json))
    (k : fetched (PhemexResponse json) -> exit) (r : request) :
  request_of (call m endpoint params k) = Some r ->
  method r = m /\ path r = endpoint
  /\ buildQueryParams params = Some (query r) /\ body r = None.
Proof.
  unfold call. destruct (buildQueryParams params); [|discriminate].
  intros [= <-]. auto.
Qed.

Lemma callMd_request (endpoint : string) (params : list (string * json))
    (k : fetched PhemexMdResponse -> exit) (r : request) :
  request_of (callMd endpoint params k) = Some r ->
  method r = GET_md /\ path r = endpoint
  /\ buildQueryParams params = Some (query r) /\ body r = None.
Proof.
  unfold callMd. destruct (buildQueryParams params); [|discriminate].
  intros [= <-]. auto.
Qed.

Ltac any_step :=
  match goal with
  | |- context [bind ?s _] =>
      destruct s; cbn [bind run request_of]; [|discriminate]
  end.

Ltac routed :=
  repeat any_step;
  repeat match goal with
         | |- context [if ?b then _ else _] =>
             destruct b eqn:?; cbn [bind run request_of]; try discriminate
         end;
  repeat any_step;
  let H := fresh in
  intros H;
  first [apply call_request in H | apply callMd_request in H];
  destruct H as (_ & -> & _);
  match goal with
  | ct : ContractType |- _ => destruct ct; try discriminate; reflexivity
  end.

(** X25. No handler sends a request to the empty path the router keeps for
    what spot does not have: every request of a routed handler goes to
    a path that begins with a slash. *)
Theorem routed_requests_have_a_path (params : list (string * json))
    (pc : ProductInfoCache.t) (uuid : string) (now : number)
    (p : process) (r : request) :
  In p (routed_handlers params pc uuid now) ->
  request_of p = Some r ->
  startsWith (path r) "/" = true.
Proof.
  unfold routed_handlers. cbn [In].
  intros [<- | [<- | [<- | [<- | [<- | [<- | [<- | [<- | [<- | [<- | [<- |
         [<- | [<- | [<- | [<- | [<- | []]]]]]]]]]]]]]]]].
  - unfold handleGetTicker. routed.
  - unfold handleGetOrderbook. routed.
  - unfold handleGetKlines. routed.
  - unfold handleGetRecentTrades. routed.
  - unfold handleGetFundingRate. routed.
  - unfold handleGetAccount. routed.
  - unfold handleGetPositions. routed.
  - unfold handleGetOpenOrders. routed.
  - unfold handleGetOrderHistory. routed.
  - unfold handleGetTrades. routed.
  - unfold handlePlaceOrder. routed.
  - unfold handleAmendOrder. routed.
  - unfold handleCancelOrder. routed.
  - unfold handleCancelAllOrders. routed.
  - unfold handleSetLeverage. routed.
  - unfold handleSwitchPosMode. routed.
Qed.

(** The account of a linear contract. *)
Lemma routed_requests_have_a_path_witness :
  startsWith "/g-accounts/accountPositions" "/" = true.
Proof.
  apply (routed_requests_have_a_path [] (new "") "" NaN
           (handleGetAccount [])
           {| method := GET; path := "/g-accounts/accountPositions";
              query := "currency=USDT"; body := None |}).
  - simpl. auto 10.
  - reflexivity.
Defined.

(** X26. The request of a transfer.  When [handleTransferFunds] sends a
    request, the metadata were loaded, the currency has a scale, and
    the request posts to [/assets/transfer] the scaled amount, which
    has no fractional part, the currency, and the move operation: 2 for
    the direction [spot_to_futures], 1 for any other direction. *)
Theorem transfer_request (params : list (string * json))
    (pc : ProductInfoCache.t) (r : request) :
  request_of (handleTransferFunds params pc) = Some r ->
  exists currency amount direction amountEv,
    Cli.requireString params "currency" = Go currency
    /\ Cli.requireString params "amount" = Go amount
    /\ Cli.requireString params "direction" = Go direction
    /\ isLoaded pc = true
    /\ scaleCurrencyAmount pc currency amount = Return amountEv
    /\ no_fraction amountEv = true
    /\ method r = POST /\ path r = "/assets/transfer"
    /\ body r
       = Some (VObject
                 [("amountEv", VNumber amountEv);
                  ("currency", VString currency);
                  ("moveOp",
                   VNumber (if String.eqb direction "spot_to_futures"
                            then of_Z 2 else of_Z 1))]).
Proof.
  unfold handleTransferFunds.
  destruct (Cli.requireString params "currency") as [currency|];
    cbn [bind run request_of]; [|discriminate].
  destruct (Cli.requireString params "amount") as [amount|];
    cbn [bind run request_of]; [|discriminate].
  destruct (Cli.requireString params "direction") as [direction|];
    cbn [bind run request_of]; [|discriminate].
  destruct (isLoaded pc); cbn [negb run request_of]; [|discriminate].
  destruct (scaleCurrencyAmount pc currency amount) as [amountEv|] eqn:E;
    cbn [run request_of post]; [|discriminate].
  intros [= <-]. exists currency, amount, direction, amountEv.
  repeat split; try reflexivity.
  - exact E.
  - revert E. unfold scaleCurrencyAmount.
    destruct (currencyScales pc !! currency); [|discriminate].
    intros [= <-]. apply round_no_fraction.
Qed.

(** A transfer of 1.5 BTC in a direction that is misspelt. *)
Lemma transfer_request_witness :
  exists currency amount direction amountEv,
    Cli.requireString
      [("currency", VString "BTC"); ("amount", VString "1.5");
       ("direction", VString "spot-to-futures")] "currency" = Go currency
    /\ Cli.requireString
         [("currency", VString "BTC"); ("amount", VString "1.5");
          ("direction", VString "spot-to-futures")] "amount" = Go amount
    /\ Cli.requireString
         [("currency", VString "BTC"); ("amount", VString "1.5");
          ("direction", VString "spot-to-futures")] "direction" = Go direction
    /\ isLoaded Fixture.mock_cache = true
    /\ scaleCurrencyAmount Fixture.mock_cache currency amount = Return amountEv
    /\ no_fraction amountEv = true
    /\ method {| method := POST; path := "/assets/transfer"; query := "";
                 body := Some (VObject
                                 [("amountEv", VNumber (of_Z 150000000));
                                  ("currency", VString "BTC");
                                  ("moveOp", VNumber (of_Z 1))]) |} = POST
    /\ path {| method := POST; path := "/assets/transfer"; query := "";
               body := Some (VObject
                               [("amountEv", VNumber (of_Z 150000000));
                                ("currency", VString "BTC");
                                ("moveOp", VNumber (of_Z 1))]) |}
       = "/assets/transfer"
    /\ body {| method := POST; path := "/assets/transfer"; query := "";
               body := Some (VObject
                               [("amountEv", VNumber (of_Z 150000000));
                                ("currency", VString "BTC");
                                ("moveOp", VNumber (of_Z 1))]) |}
       = Some (VObject
                 [("amountEv", VNumber amountEv);
                  ("currency", VString currency);
                  ("moveOp",
                   VNumber (if String.eqb direction "spot_to_futures"
                            then of_Z 2 else of_Z 1))]).
Proof.
  apply (transfer_request
           [("currency", VString "BTC"); ("amount", VString "1.5");
            ("direction", VString "spot-to-futures")] Fixture.mock_cache).
  vm_compute. reflexivity.
Defined.

Lemma answered_succeeded (prefix : string)
    (finish : PhemexResponse json -> exit) (f : fetched (PhemexResponse json))
    (d : json) :
  answered prefix finish f = Succeeded d ->
  exists res, f = Resolves res /\ finish res = Succeeded d.
Proof.
  unfold answered. destruct f as [message | res]; [discriminate|].
  destruct (nonzero (code res)); [discriminate|].
  intros H. exists res. auto.
Qed.

Lemma call_answer (m : Method) (endpoint : string)
    (params : list (string * json))
    (k : fetched (PhemexResponse json) -> exit)
    (f : fetched (PhemexResponse json)) (e : exit) :
  answer_of (call m endpoint params k) f = Some e -> k f = e.
Proof.
  unfold call. destruct (buildQueryParams params); [|discriminate].
  intros [= <-]. reflexivity.
Qed.

Ltac answer_step :=
  match goal with
  | |- context [bind ?s _] =>
      destruct s; cbn [bind run answer_of]; [|discriminate]
  | |- context [if ?b then _ else _] =>
      destruct b; cbn [bind run answer_of]; try discriminate
  end.

(** X27. What is printed for an inverse or spot contract holds no scaled
    number: when the symbol, resolved, is in the cache, every handler
    that converts the answer prints data in which no key ending in Ep,
    Er or Ev holds a number, at any depth. *)
Theorem printed_answers_hold_no_scaled_number (params : list (string * json))
    (pc : ProductInfoCache.t) (uuid symbol : string) (ct : ContractType)
    (info : ProductInfo) (p : process) (f : fetched (PhemexResponse json))
    (d : json) :
  Cli.requireString params "symbol" = Go symbol ->
  getContractType params = Go ct ->
  ct <> linear ->
  get pc (resolveSymbol ct symbol) = Some info ->
  In p (converting_handlers params pc uuid) ->
  answer_of p f = Some (Succeeded d) ->
  no_scaled_number d = true.
Proof.
  intros Hsymbol Hct Hkind Hget Hin.
  assert (Hconv : forall data,
             no_scaled_number (converted pc ct (resolveSymbol ct symbol) data)
             = true).
  { intros data. unfold converted.
    destruct ct; [contradiction | |];
      apply (convertResponse_no_scaled_number pc _ info Hget). }
  assert (Hfinish : forall prefix,
             answered prefix
               (fun res => Succeeded
                             (converted pc ct (resolveSymbol ct symbol) (data res)))
               f = Succeeded d ->
             no_scaled_number d = true).
  { intros prefix H. apply answered_succeeded in H as (res & _ & [= <-]).
    apply Hconv. }
  revert Hin. unfold converting_handlers. cbn [In].
  intros [<- | [<- | [<- | [<- | [<- | [<- | [<- | [<- | []]]]]]]]].
  - unfold handleGetOpenOrders. rewrite Hsymbol, Hct. cbn [bind].
    repeat answer_step. intros H. apply call_answer in H.
    destruct f as [message | res]; [discriminate|].
    destruct (nonzero (code res)).
    + destruct (String.eqb (msg res) "OM_ORDER_NOT_FOUND"); [|discriminate].
      injection H as <-. reflexivity.
    + injection H as <-. apply Hconv.
  - unfold handleGetOrderHistory. rewrite Hsymbol. cbn [bind].
    answer_step. rewrite Hct. cbn [bind]. repeat answer_step.
    intros H. apply call_answer in H. exact (Hfinish _ H).
  - unfold handleGetTrades. rewrite Hsymbol. cbn [bind].
    answer_step. rewrite Hct. cbn [bind]. repeat answer_step.
    intros H. apply call_answer in H. exact (Hfinish _ H).
  - unfold handlePlaceOrder. rewrite Hsymbol. cbn [bind].
    do 3 answer_step. rewrite Hct. cbn [bind]. do 2 answer_step.
    intros H. apply call_answer in H. exact (Hfinish _ H).
  - unfold handleAmendOrder. rewrite Hsymbol, Hct. cbn [bind].
    do 3 answer_step.
    intros H. apply call_answer in H. exact (Hfinish _ H).
  - unfold handleCancelOrder. rewrite Hsymbol, Hct. cbn [bind].
    do 2 answer_step.
    intros H. apply call_answer in H. exact (Hfinish _ H).
  - unfold handleCancelAllOrders. rewrite Hsymbol, Hct. cbn [bind].
    answer_step.
    intros H. apply call_answer in H. exact (Hfinish _ H).
  - unfold handleSetLeverage. rewrite Hsymbol. cbn [bind].
    answer_step. rewrite Hct. cbn [bind].
    destruct ct; [contradiction | | discriminate].
    cbn [isSpot isInverse]. do 2 answer_step.
    intros H. apply call_answer in H.
    apply answered_succeeded in H as (res & _ & [= <-]).
    apply (convertResponse_no_scaled_number pc _ info Hget).
Qed.

(** The open orders of the fixture's BTCUSD. *)
Lemma printed_answers_hold_no_scaled_number_witness :
  no_scaled_number
    (VArray [VObject [("price", VString "50000.5"); ("side", VString "Buy")]])
  = true.
Proof.
  apply (printed_answers_hold_no_scaled_number
           [("symbol", VString "BTCUSD"); ("contractType", VString "inverse")]
           Fixture.mock_cache "" "BTCUSD" inverse
           {| symbol := "BTCUSD"; contractType := inverse;
              priceScale := pow10 4; ratioScale := pow10 8;
              valueScale := pow10 8; contractSize := of_Z 1 |}
           (handleGetOpenOrders
              [("symbol", VString "BTCUSD"); ("contractType", VString "inverse")]
              Fixture.mock_cache)
           (Resolves {| code := of_Z 0; msg := "OK";
                        data := VArray
                                  [VObject
                                     [("priceEp", VNumber (of_Z 500005000));
                                      ("side", VString "Buy")]] |})).
  - reflexivity.
  - reflexivity.
  - discriminate.
  - vm_compute. reflexivity.
  - simpl. auto.
  - vm_compute. reflexivity.
Defined.

(** X28. An inverse or spot order for a symbol that is not in the loaded
    cache is not sent: the order ends with the error of the scaling
    method, when it has a price (inverse) or in any case (spot, whose
    quantity is scaled). *)
Theorem order_for_unknown_symbol_is_not_sent (params : list (string * json))
    (pc : ProductInfoCache.t) (uuid symbol side orderQty ordType : string)
    (ct : ContractType) :
  Cli.requireString params "symbol" = Go symbol ->
  Cli.requireString params "side" = Go side ->
  Cli.requireString params "orderQty" = Go orderQty ->
  Cli.requireString params "ordType" = Go ordType ->
  getContractType params = Go ct ->
  validateSymbol ct symbol = None ->
  isLoaded pc = true ->
  get pc (resolveSymbol ct symbol) = None ->
  (ct = inverse /\ Cli.optString params "price" <> None) \/ ct = spot ->
  handlePlaceOrder params pc uuid
  = Ends (Failed ("No product info for " +:+ resolveSymbol ct symbol)).
Proof.
  intros Hsymbol Hside Hqty Htype Hct Hvalid Hloaded Hget Hkind.
  unfold get in Hget.
  unfold handlePlaceOrder.
  rewrite Hsymbol, Hside, Hqty, Htype, Hct. cbn [bind].
  unfold checkSymbol. rewrite Hvalid. cbn [bind].
  unfold orderParams. rewrite Hloaded. cbn [negb].
  destruct Hkind as [[-> Hprice] | ->]; cbn [isInverse isSpot].
  - destruct (Cli.optString params "price") as [price|]; [|contradiction].
    cbn [set_scaled]. unfold scalePrice at 1. rewrite Hget. reflexivity.
  - unfold scaleValue. rewrite Hget. reflexivity.
Qed.

(** A spot order for a symbol the fixture does not list. *)
Lemma order_for_unknown_symbol_is_not_sent_witness :
  handlePlaceOrder
    [("symbol", VString "XYZUSDT"); ("side", VString "Buy");
     ("orderQty", VString "0.5"); ("ordType", VString "Market");
     ("contractType", VString "spot")]
    Fixture.mock_cache "123e4567-e89b-12d3-a456-426614174000"
  = Ends (Failed "No product info for sXYZUSDT").
Proof.
  apply (order_for_unknown_symbol_is_not_sent _ _ _
           "XYZUSDT" "Buy" "0.5" "Market" spot);
    try (vm_compute; reflexivity).
  right. reflexivity.
Defined.

(** ** Subtraction against the Standard Library *)

(** Subtraction agrees with the Standard Library's binary64 on every
    pair of the samples. *)
Lemma sub_agrees_with_SpecFloat :
  agree_on_samples JSGlobal.sub JSGlobal.spec_sub = true.
Proof. vm_compute. reflexivity. Qed.

(** ** Flags without a value, and error messages *)

Lemma parse_flags_trailing (pairs : list (string * string)) (k : string)
    (result : list (string * json)) :
  Forall (fun kv => startsWith (snd kv) "--" = false) pairs ->
  parse_flags (flag_pairs pairs ++ ["--" +:+ k]) result
  = set_key k (VBoolean true) (coerced_pairs pairs result).
Proof.
  intros Hall. revert result.
  induction Hall as [|[k' v'] pairs Hv _ IH]; intros result.
  - cbn [flag_pairs app parse_flags coerced_pairs].
    rewrite startsWith_dashes. reflexivity.
  - cbn [flag_pairs app parse_flags coerced_pairs]. cbn [snd] in Hv.
    rewrite startsWith_dashes, Hv. cbn [negb]. apply IH.
Qed.

(** X29. A flag at the end of the arguments, with no value after it, is set
    to [true], whatever was given for it before; [optBool] reads it as
    true. *)
Theorem trailing_flag_is_true
    (JSON_parse : string -> completion (list (string * json)))
    (pairs : list (string * string)) (k : string) (defaultVal : bool) :
  Forall (fun kv => startsWith (snd kv) "--" = false) pairs ->
  k <> "__proto__" ->
  exists params,
    parseCliArgs JSON_parse (flag_pairs pairs ++ ["--" +:+ k]) = Return params
    /\ get_key k params = Some (VBoolean true)
    /\ ParamHelpers.optBool params k defaultVal = true.
Proof.
  intros Hvalues Hproto.
  exists (set_key k (VBoolean true) (coerced_pairs pairs [])).
  assert (Hget : get_key k (set_key k (VBoolean true) (coerced_pairs pairs []))
                 = Some (VBoolean true))
    by (apply get_key_set_key_eq, Hproto).
  split; [|split; [exact Hget|]].
  - rewrite <- (parse_flags_trailing pairs k [] Hvalues). unfold parseCliArgs.
    destruct pairs as [|[k0 v0] pairs]; cbn [flag_pairs app].
    + replace (startsWith ("--" +:+ k) "{") with false; [reflexivity|].
      unfold startsWith. destruct k; reflexivity.
    + destruct (flag_pairs pairs ++ ["--" +:+ k]); reflexivity.
  - unfold ParamHelpers.optBool, read. rewrite Hget. reflexivity.
Qed.

(** [--symbol BTCUSDT --reduceOnly] *)
Lemma trailing_flag_is_true_witness :
  exists params,
    parseCliArgs (fun _ => Throw "SyntaxError")
      ["--symbol"; "BTCUSDT"; "--reduceOnly"] = Return params
    /\ get_key "reduceOnly" params = Some (VBoolean true)
    /\ ParamHelpers.optBool params "reduceOnly" false = true.
Proof.
  refine (trailing_flag_is_true _ [("symbol", "BTCUSDT")] "reduceOnly" false
            _ _).
  - repeat constructor.
  - discriminate.
Defined.

Lemma lookup_message_not_empty (key text : string) :
  lookup_message key PHEMEX_ERRORS = Some text -> text <> "".
Proof.
  unfold PHEMEX_ERRORS. cbn [lookup_message].
  repeat match goal with
         | |- context [if String.eqb ?k key then _ else _] =>
             destruct (String.eqb k key); [intros [= <-]; discriminate|]
         end.
  discriminate.
Qed.

(** X30. [getErrorMessage] never returns an empty message: it is the
    message of the exchange when that is not empty, else the text of
    the table for the code, else a text that names the code. *)
Theorem getErrorMessage_is_not_empty (code : number) (msg : option string) :
  getErrorMessage code msg <> ""
  /\ (forall m, msg = Some m -> m <> "" -> getErrorMessage code msg = m)
  /\ (lookup_message (toString code) PHEMEX_ERRORS = None ->
      msg = None \/ msg = Some "" ->
      getErrorMessage code msg
      = "Unknown error (code: " +:+ toString code +:+ ")").
Proof.
  unfold getErrorMessage.
  assert (Htable : match lookup_message (toString code) PHEMEX_ERRORS with
                   | Some text => text
                   | None => "Unknown error (code: " +:+ toString code +:+ ")"
                   end <> "").
  { destruct (lookup_message _ _) as [text|] eqn:E;
      [exact (lookup_message_not_empty _ _ E) | discriminate]. }
  split; [|split].
  - destruct msg as [m|]; [|exact Htable].
    destruct (String.eqb_spec m "") as [-> | Hm]; [exact Htable | exact Hm].
  - intros m -> Hm. destruct (String.eqb_spec m ""); [contradiction|].
    reflexivity.
  - intros Hnone [-> | ->]; cbn [negb String.eqb]; rewrite Hnone; reflexivity.
Qed.

Lemma getErrorMessage_is_not_empty_witness :
  getErrorMessage (of_Z 39996) (Some "") <> "".
Proof. apply getErrorMessage_is_not_empty. Defined.
